(** * Canvas rendering pipeline of nova-ecs-render-canvas

    A shallow embedding of the three cooperating subsystems of the canvas
    renderer (src/utils/CoordinateSystem.ts, src/utils/StyleManager.ts,
    src/utils/BatchManager.ts), of the orchestration in
    src/CanvasRenderer.ts and of the self-contained parts of the debug
    renderer, together with the properties of the rendering pipeline that
    the specification states about them and further properties that the
    code has.

    Conventions of the embedding:
    - a JavaScript [number] is an exact rational ([Qc]); a division whose
      divisor may be zero returns [None] where JavaScript would produce
      [NaN] or an infinity;
    - the 2D context is an external object: every call and every property
      write on it is recorded, in order, in a log of [CtxCall]s;
    - the fixed-point type of @esengine/nova-ecs-math, and
      [ColorUtils.toHex] and the [BaseRenderer] superclass of
      @esengine/nova-ecs-render-core, are dependencies of the package, not
      part of it: they are parameters ([FixedPoint], [Host]); the style
      descriptors of render-core are records of the fields that the
      renderer reads. *)

From Stdlib Require Import ZArith QArith Qcanon Lia Lqa.
From stdpp Require Import base numbers option list strings pretty gmap.

Local Open Scope Z_scope.

(** ** JavaScript numbers *)

Abbreviation number := Qc (only parsing).

(** [a / b] for a divisor that is not a literal: [None] stands for the
    non-finite results of JavaScript ([NaN], [Infinity], [-Infinity]). *)
Definition js_div (a b : number) : option number :=
  if decide (b = 0%Qc) then None else Some (a / b)%Qc.

(** ** The fixed-point dependency

    [Fixed] of @esengine/nova-ecs-math: a decimal fixed-point number, an
    integer count [raw] of units of [1 / SCALE].  Addition and subtraction
    are exact; multiplication, division and the constructor from a number
    round to a nearest representable value; division by zero fails.
    Magnitudes are taken to stay in the range where the implementation's
    integers are exact. *)

Class FixedPoint := {
  Fixed : Type;
  SCALE : Z;
  raw : Fixed → Z;
  Fixed_new : number → Fixed;
  Fixed_ZERO : Fixed;
  Fixed_ONE : Fixed;
  Fixed_toNumber : Fixed → number;
  Fixed_add : Fixed → Fixed → Fixed;
  Fixed_subtract : Fixed → Fixed → Fixed;
  Fixed_multiply : Fixed → Fixed → Fixed;
  Fixed_divide : Fixed → Fixed → option Fixed;
  Fixed_equals : Fixed → Fixed → bool;
  SCALE_pos : 0 < SCALE;
  raw_inj : ∀ a b, raw a = raw b → a = b;
  raw_ZERO : raw Fixed_ZERO = 0;
  raw_ONE : raw Fixed_ONE = SCALE;
  toNumber_raw : ∀ a, Fixed_toNumber a = (Qc_of_Z (raw a) / Qc_of_Z SCALE)%Qc;
  raw_add : ∀ a b, raw (Fixed_add a b) = raw a + raw b;
  raw_subtract : ∀ a b, raw (Fixed_subtract a b) = raw a - raw b;
  multiply_round : ∀ a b,
    2 * Z.abs (raw (Fixed_multiply a b) * SCALE - raw a * raw b) ≤ SCALE;
  divide_round : ∀ a b, raw b ≠ 0 →
    ∃ c, Fixed_divide a b = Some c ∧
         2 * Z.abs (raw c * raw b - raw a * SCALE) ≤ Z.abs (raw b);
  new_round : ∀ q : number,
    2 * Z.abs (raw (Fixed_new q) * Zpos (Qden q) - Qnum q * SCALE)
      ≤ Zpos (Qden q);
  equals_raw : ∀ a b, Fixed_equals a b = bool_decide (raw a = raw b)
}.

Section Geometry.
Context `{FixedPoint}.

Record FixedVector2 := mkFixedVector2 { v2_x : Fixed; v2_y : Fixed }.

Definition FixedVector2_ZERO : FixedVector2 :=
  mkFixedVector2 Fixed_ZERO Fixed_ZERO.

Definition FixedVector2_add (a b : FixedVector2) : FixedVector2 :=
  mkFixedVector2 (Fixed_add (v2_x a) (v2_x b)) (Fixed_add (v2_y a) (v2_y b)).

Definition FixedVector2_subtract (a b : FixedVector2) : FixedVector2 :=
  mkFixedVector2 (Fixed_subtract (v2_x a) (v2_x b))
                 (Fixed_subtract (v2_y a) (v2_y b)).

Record FixedRect := mkFixedRect {
  rect_x : Fixed; rect_y : Fixed; rect_width : Fixed; rect_height : Fixed
}.

(** ** src/types/CanvasTypes.ts *)

Record ScreenPoint := mkScreenPoint { sp_x : number; sp_y : number }.
Record ScreenSize := mkScreenSize { width : number; height : number }.
Record ScreenRect := mkScreenRect {
  sr_x : number; sr_y : number; sr_width : number; sr_height : number
}.

(** ** src/utils/CoordinateSystem.ts *)

Record CoordinateSystem := mkCoordinateSystem {
  pixelsPerUnit : number;
  canvasSize : ScreenSize;
  cameraPosition : FixedVector2;
  cameraZoom : Fixed;
  devicePixelRatio : number
}.

(** The constructor; its defaults are [100], [800 x 600] and [1]. *)
Definition CoordinateSystem_new (ppu : number) (size : ScreenSize)
    (dpr : number) : CoordinateSystem :=
  {| pixelsPerUnit := ppu; canvasSize := size;
     cameraPosition := FixedVector2_ZERO; cameraZoom := Fixed_ONE;
     devicePixelRatio := dpr |}.

Definition setCanvasSize (size : ScreenSize) (cs : CoordinateSystem) :=
  {| pixelsPerUnit := pixelsPerUnit cs; canvasSize := size;
     cameraPosition := cameraPosition cs; cameraZoom := cameraZoom cs;
     devicePixelRatio := devicePixelRatio cs |}.

Definition setCameraPosition (p : FixedVector2) (cs : CoordinateSystem) :=
  {| pixelsPerUnit := pixelsPerUnit cs; canvasSize := canvasSize cs;
     cameraPosition := p; cameraZoom := cameraZoom cs;
     devicePixelRatio := devicePixelRatio cs |}.



Definition worldToScreen (cs : CoordinateSystem) (worldPos : FixedVector2)
    : ScreenPoint :=
  let relative := FixedVector2_subtract worldPos (cameraPosition cs) in
  let scaled :=
    mkFixedVector2 (Fixed_multiply (v2_x relative) (cameraZoom cs))
                   (Fixed_multiply (v2_y relative) (cameraZoom cs)) in
  let pixelX := (Fixed_toNumber (v2_x scaled) * pixelsPerUnit cs)%Qc in
  let pixelY := (Fixed_toNumber (v2_y scaled) * pixelsPerUnit cs)%Qc in
  let screenX := (pixelX + width (canvasSize cs) / 2)%Qc in
  let screenY := (height (canvasSize cs) / 2 - pixelY)%Qc in
  mkScreenPoint screenX screenY.

Definition screenToWorld (cs : CoordinateSystem) (screenPos : ScreenPoint)
    : option FixedVector2 :=
  let pixelX := (sp_x screenPos - width (canvasSize cs) / 2)%Qc in
  let pixelY := (height (canvasSize cs) / 2 - sp_y screenPos)%Qc in
  worldX ← js_div pixelX (pixelsPerUnit cs);
  worldY ← js_div pixelY (pixelsPerUnit cs);
  wx ← Fixed_divide (Fixed_new worldX) (cameraZoom cs);
  wy ← Fixed_divide (Fixed_new worldY) (cameraZoom cs);
  Some (FixedVector2_add (mkFixedVector2 wx wy) (cameraPosition cs)).

Definition worldToScreenDistance (cs : CoordinateSystem) (worldDistance : Fixed)
    : number :=
  (Fixed_toNumber worldDistance * pixelsPerUnit cs
     * Fixed_toNumber (cameraZoom cs))%Qc.

Definition screenToWorldDistance (cs : CoordinateSystem) (screenPixels : number)
    : option Fixed :=
  q ← js_div screenPixels
        (pixelsPerUnit cs * Fixed_toNumber (cameraZoom cs))%Qc;
  Some (Fixed_new q).

Definition worldToScreenRect (cs : CoordinateSystem) (worldRect : FixedRect)
    : ScreenRect :=
  let topLeft :=
    worldToScreen cs
      (mkFixedVector2 (rect_x worldRect)
         (Fixed_add (rect_y worldRect) (rect_height worldRect))) in
  let bottomRight :=
    worldToScreen cs
      (mkFixedVector2 (Fixed_add (rect_x worldRect) (rect_width worldRect))
         (rect_y worldRect)) in
  {| sr_x := sp_x topLeft; sr_y := sp_y topLeft;
     sr_width := (sp_x bottomRight - sp_x topLeft)%Qc;
     sr_height := (sp_y bottomRight - sp_y topLeft)%Qc |}.

Definition setDevicePixelRatio (ratio : number) (cs : CoordinateSystem) :=
  {| pixelsPerUnit := pixelsPerUnit cs; canvasSize := canvasSize cs;
     cameraPosition := cameraPosition cs; cameraZoom := cameraZoom cs;
     devicePixelRatio := ratio |}.

(** [VisibleBounds] of src/types/CanvasTypes.ts. *)
Record VisibleBounds := mkVisibleBounds {
  vb_left : number; vb_right : number; vb_top : number; vb_bottom : number;
  vb_width : number; vb_height : number
}.

Definition getVisibleBounds (cs : CoordinateSystem) : option VisibleBounds :=
  topLeft ← screenToWorld cs (mkScreenPoint 0%Qc 0%Qc);
  bottomRight ←
    screenToWorld cs
      (mkScreenPoint (width (canvasSize cs)) (height (canvasSize cs)));
  Some {| vb_left := Fixed_toNumber (v2_x topLeft);
          vb_right := Fixed_toNumber (v2_x bottomRight);
          vb_top := Fixed_toNumber (v2_y topLeft);
          vb_bottom := Fixed_toNumber (v2_y bottomRight);
          vb_width :=
            Fixed_toNumber (Fixed_subtract (v2_x bottomRight) (v2_x topLeft));
          vb_height :=
            Fixed_toNumber (Fixed_subtract (v2_y topLeft) (v2_y bottomRight)) |}.

(** [a >= b] is written [b ≤ a]; the default of [margin] is [Fixed.ZERO]. *)
Definition isPointVisible (cs : CoordinateSystem) (worldPos : FixedVector2)
    (margin : Fixed) : bool :=
  let screenPos := worldToScreen cs worldPos in
  let marginPixels := worldToScreenDistance cs margin in
  bool_decide (- marginPixels ≤ sp_x screenPos)%Qc
  && bool_decide (sp_x screenPos ≤ width (canvasSize cs) + marginPixels)%Qc
  && bool_decide (- marginPixels ≤ sp_y screenPos)%Qc
  && bool_decide (sp_y screenPos ≤ height (canvasSize cs) + marginPixels)%Qc.

Definition isRectVisible (cs : CoordinateSystem) (worldRect : FixedRect)
    (margin : Fixed) : bool :=
  let screenRect := worldToScreenRect cs worldRect in
  let marginPixels := worldToScreenDistance cs margin in
  bool_decide (- marginPixels ≤ sr_x screenRect + sr_width screenRect)%Qc
  && bool_decide (sr_x screenRect ≤ width (canvasSize cs) + marginPixels)%Qc
  && bool_decide (- marginPixels ≤ sr_y screenRect + sr_height screenRect)%Qc
  && bool_decide (sr_y screenRect ≤ height (canvasSize cs) + marginPixels)%Qc.

Record CameraInfo := mkCameraInfo {
  ci_position : FixedVector2;
  ci_zoom : Fixed;
  ci_pixelsPerUnit : number;
  ci_visibleBounds : VisibleBounds
}.

Definition getCameraInfo (cs : CoordinateSystem) : option CameraInfo :=
  visibleBounds ← getVisibleBounds cs;
  Some {| ci_position := cameraPosition cs; ci_zoom := cameraZoom cs;
          ci_pixelsPerUnit := pixelsPerUnit cs;
          ci_visibleBounds := visibleBounds |}.

End Geometry.

(** ** Style descriptors of @esengine/nova-ecs-render-core

    The fields are the ones the renderer reads; an optional field of the
    TypeScript interface is an [option]. *)

Record Color := mkColor { r : number; g : number; b : number; a : number }.

Inductive BlendMode :=
| Normal | Add | Multiply | Screen | Overlay | Darken | Lighten
| UnknownBlendMode.

Section Styles.
Context `{FixedPoint}.

Record LineStyle := mkLineStyle {
  ls_color : Color;
  ls_thickness : Fixed;
  ls_dashPattern : option (list Fixed)
}.

Record ShapeStyle := mkShapeStyle {
  ss_fillColor : option Color;
  ss_strokeColor : option Color;
  ss_strokeThickness : option Fixed;
  ss_dashPattern : option (list Fixed)
}.

Record TextStyle := mkTextStyle {
  ts_color : Color;
  ts_fontSize : Fixed;
  ts_fontFamily : option string;
  ts_fontWeight : option string;
  ts_fontStyle : option string;
  ts_textAlign : option string;
  ts_textBaseline : option string
}.

Record TextureStyle := mkTextureStyle {
  tx_tint : option Color;
  tx_opacity : option number;
  tx_scale : option FixedVector2;
  tx_rotation : option Fixed;
  tx_anchor : option FixedVector2;
  tx_flipX : bool;
  tx_flipY : bool
}.

Record Transform2D := mkTransform2D {
  position : FixedVector2;
  rotation : Fixed;
  scale : FixedVector2
}.

(** The [style: unknown] slot of a draw command holds one of the three
    style objects. *)
Inductive Style :=
| OfLineStyle (s : LineStyle)
| OfShapeStyle (s : ShapeStyle)
| OfTextStyle (s : TextStyle).

End Styles.

(** What the package takes from its host: [ColorUtils.toHex] of render-core,
    the state and [popTransform] of the [BaseRenderer] superclass (which
    keeps its own transform stack and acts on that state only), and the
    JavaScript built-ins [JSON.stringify] (on style objects),
    number-to-string conversion and [Math.PI]. *)
Class Host `{FixedPoint} := {
  ColorUtils_toHex : Color → string;
  JSON_stringify : Style → string;
  Number_toString : number → string;
  Math_PI : number;
  BaseRenderer : Type;
  BaseRenderer_popTransform : BaseRenderer → BaseRenderer
}.

(** ** The 2D context

    An opaque drawable source handle, and the calls and property writes the
    package performs on a [CanvasRenderingContext2D]. *)

Definition ImageSource : Type := nat.

Inductive CtxCall :=
| ctx_save
| ctx_restore
| ctx_translate (x y : number)
| ctx_rotate (angle : number)
| ctx_scale (x y : number)
| ctx_setTransform (a b c d e f : number)
| ctx_beginPath
| ctx_closePath
| ctx_moveTo (x y : number)
| ctx_lineTo (x y : number)
| ctx_arc (x y radius startAngle endAngle : number)
| ctx_ellipse (x y radiusX radiusY rotation startAngle endAngle : number)
| ctx_rect (x y w h : number)
| ctx_fillRect (x y w h : number)
| ctx_fill
| ctx_stroke
| ctx_clip
| ctx_fillText (text : string) (x y : number)
| ctx_drawImage (source : ImageSource) (dx dy : number)
| ctx_drawImage_region (source : ImageSource) (sx sy sw sh dx dy dw dh : number)
| ctx_setLineDash (segments : list number)
| ctx_set_strokeStyle (v : string)
| ctx_set_fillStyle (v : string)
| ctx_set_lineWidth (v : number)
| ctx_set_font (v : string)
| ctx_set_textAlign (v : string)
| ctx_set_textBaseline (v : string)
| ctx_set_globalAlpha (v : number)
| ctx_mul_globalAlpha (v : number)
| ctx_set_globalCompositeOperation (v : string)
| ctx_set_imageSmoothingEnabled (v : bool).

(** ** src/types/CanvasTypes.ts: the style cache *)

Record StyleCacheEntry := mkStyleCacheEntry {
  strokeStyle : option string;
  fillStyle : option string;
  lineWidth : option number;
  lineCap : option string;
  lineJoin : option string;
  font : option string;
  textAlign : option string;
  textBaseline : option string;
  globalAlpha : option number;
  globalCompositeOperation : option string
}.

(** The object literal [{}]. *)
Definition empty_StyleCacheEntry : StyleCacheEntry :=
  mkStyleCacheEntry None None None None None None None None None None.

(** ** src/utils/StyleManager.ts *)

Record StyleManager := mkStyleManager {
  currentStyle : StyleCacheEntry;
  styleChangeCount : Z;
  enableCaching : bool
}.

Definition StyleManager_new (enableCaching : bool) : StyleManager :=
  mkStyleManager empty_StyleCacheEntry 0 enableCaching.

Definition getStyleChangeCount (sm : StyleManager) : Z := styleChangeCount sm.

(** [cached !== v], where an absent property of the cache is [undefined]. *)
Definition differs {A} `{EqDecision A} (cached : option A) (v : A) : bool :=
  match cached with
  | Some c => negb (bool_decide (c = v))
  | None => true
  end.

(** [cache.f = v], one assignment per cached attribute. *)
Definition cache_set_strokeStyle (v : string) (c : StyleCacheEntry) : StyleCacheEntry :=
  mkStyleCacheEntry (Some v) (fillStyle c) (lineWidth c) (lineCap c) (lineJoin c)
    (font c) (textAlign c) (textBaseline c) (globalAlpha c) (globalCompositeOperation c).
Definition cache_set_fillStyle (v : string) (c : StyleCacheEntry) : StyleCacheEntry :=
  mkStyleCacheEntry (strokeStyle c) (Some v) (lineWidth c) (lineCap c) (lineJoin c)
    (font c) (textAlign c) (textBaseline c) (globalAlpha c) (globalCompositeOperation c).
Definition cache_set_lineWidth (v : number) (c : StyleCacheEntry) : StyleCacheEntry :=
  mkStyleCacheEntry (strokeStyle c) (fillStyle c) (Some v) (lineCap c) (lineJoin c)
    (font c) (textAlign c) (textBaseline c) (globalAlpha c) (globalCompositeOperation c).
Definition cache_set_font (v : string) (c : StyleCacheEntry) : StyleCacheEntry :=
  mkStyleCacheEntry (strokeStyle c) (fillStyle c) (lineWidth c) (lineCap c) (lineJoin c)
    (Some v) (textAlign c) (textBaseline c) (globalAlpha c) (globalCompositeOperation c).
Definition cache_set_textAlign (v : string) (c : StyleCacheEntry) : StyleCacheEntry :=
  mkStyleCacheEntry (strokeStyle c) (fillStyle c) (lineWidth c) (lineCap c) (lineJoin c)
    (font c) (Some v) (textBaseline c) (globalAlpha c) (globalCompositeOperation c).
Definition cache_set_textBaseline (v : string) (c : StyleCacheEntry) : StyleCacheEntry :=
  mkStyleCacheEntry (strokeStyle c) (fillStyle c) (lineWidth c) (lineCap c) (lineJoin c)
    (font c) (textAlign c) (Some v) (globalAlpha c) (globalCompositeOperation c).
Definition cache_set_globalAlpha (v : number) (c : StyleCacheEntry) : StyleCacheEntry :=
  mkStyleCacheEntry (strokeStyle c) (fillStyle c) (lineWidth c) (lineCap c) (lineJoin c)
    (font c) (textAlign c) (textBaseline c) (Some v) (globalCompositeOperation c).
Definition cache_set_globalCompositeOperation (v : string) (c : StyleCacheEntry) : StyleCacheEntry :=
  mkStyleCacheEntry (strokeStyle c) (fillStyle c) (lineWidth c) (lineCap c) (lineJoin c)
    (font c) (textAlign c) (textBaseline c) (globalAlpha c) (Some v).

(** The objects shared by the renderer, its style manager and its batch
    manager: one 2D context (its call log), one style manager, one
    coordinate system. *)
Section SharedObjects.
Context `{Host}.

Record Env := mkEnv {
  ctx : list CtxCall;
  styleManager : StyleManager;
  coordinateSystem : CoordinateSystem
}.

(** One call, or one property write, on the 2D context. *)
Definition call (c : CtxCall) (e : Env) : Env :=
  mkEnv (ctx e ++ [c]) (styleManager e) (coordinateSystem e).

Definition set_styleManager (sm : StyleManager) (e : Env) : Env :=
  mkEnv (ctx e) sm (coordinateSystem e).

Definition set_coordinateSystem (cs : CoordinateSystem) (e : Env) : Env :=
  mkEnv (ctx e) (styleManager e) cs.

(** The body shared by the eight [set...] methods: when caching is off or
    the cached value differs, write the context property, remember the
    value and count one style change. *)
Definition cached_write {A} `{EqDecision A}
    (get : StyleCacheEntry → option A)
    (set : A → StyleCacheEntry → StyleCacheEntry)
    (write : A → CtxCall) (v : A) (e : Env) : Env :=
  let sm := styleManager e in
  if negb (enableCaching sm) || differs (get (currentStyle sm)) v then
    let e1 := call (write v) e in
    set_styleManager
      (mkStyleManager (set v (currentStyle sm)) (styleChangeCount sm + 1)
         (enableCaching sm)) e1
  else e.

Definition setStrokeStyle : string → Env → Env :=
  cached_write strokeStyle cache_set_strokeStyle ctx_set_strokeStyle.
Definition setFillStyle : string → Env → Env :=
  cached_write fillStyle cache_set_fillStyle ctx_set_fillStyle.
Definition setLineWidth : number → Env → Env :=
  cached_write lineWidth cache_set_lineWidth ctx_set_lineWidth.
Definition setFont : string → Env → Env :=
  cached_write font cache_set_font ctx_set_font.
Definition setTextAlign : string → Env → Env :=
  cached_write textAlign cache_set_textAlign ctx_set_textAlign.
Definition setTextBaseline : string → Env → Env :=
  cached_write textBaseline cache_set_textBaseline ctx_set_textBaseline.
Definition setGlobalAlpha : number → Env → Env :=
  cached_write globalAlpha cache_set_globalAlpha ctx_set_globalAlpha.
Definition setGlobalCompositeOperation : string → Env → Env :=
  cached_write globalCompositeOperation cache_set_globalCompositeOperation
    ctx_set_globalCompositeOperation.

Definition resetStyleChangeCount (e : Env) : Env :=
  let sm := styleManager e in
  set_styleManager (mkStyleManager (currentStyle sm) 0 (enableCaching sm)) e.

(** [setLineDash] as both line and shape styles apply it: the pattern
    when it is present and not empty, the empty pattern otherwise. *)
Definition applyDashPattern (dashPattern : option (list Fixed)) (e : Env) : Env :=
  match dashPattern with
  | Some (d :: ds) => call (ctx_setLineDash (map Fixed_toNumber (d :: ds))) e
  | _ => call (ctx_setLineDash []) e
  end.

Definition applyLineStyle (style : LineStyle) (e : Env) : Env :=
  let colorStr := ColorUtils_toHex (ls_color style) in
  let lineWidth := Fixed_toNumber (ls_thickness style) in
  let e1 := setStrokeStyle colorStr e in
  let e2 := setLineWidth lineWidth e1 in
  applyDashPattern (ls_dashPattern style) e2.

Definition applyShapeStyle (style : ShapeStyle) (e : Env) : Env :=
  let e1 :=
    match ss_fillColor style with
    | Some fillColor => setFillStyle (ColorUtils_toHex fillColor) e
    | None => e
    end in
  match ss_strokeColor style with
  | Some strokeColor =>
      let e2 := setStrokeStyle (ColorUtils_toHex strokeColor) e1 in
      let e3 :=
        match ss_strokeThickness style with
        | Some t => setLineWidth (Fixed_toNumber t) e2
        | None => e2
        end in
      applyDashPattern (ss_dashPattern style) e3
  | None => e1
  end.

(** [v || d] on an optional string: the empty string is falsy. *)
Definition or_default (v : option string) (d : string) : string :=
  match v with
  | Some s => if bool_decide (s = "") then d else s
  | None => d
  end.

(** [if (v)] on an optional string. *)
Definition truthy (v : option string) : option string :=
  match v with
  | Some s => if bool_decide (s = "") then None else Some s
  | None => None
  end.

Definition applyTextStyle (style : TextStyle) (e : Env) : Env :=
  let colorStr := ColorUtils_toHex (ts_color style) in
  let e1 := setFillStyle colorStr e in
  let fontWeight := or_default (ts_fontWeight style) "normal" in
  let fontStyle := or_default (ts_fontStyle style) "normal" in
  let fontSize := Fixed_toNumber (ts_fontSize style) in
  let fontFamily := or_default (ts_fontFamily style) "Arial" in
  let fontStr :=
    fontStyle +:+ " " +:+ fontWeight +:+ " " +:+ Number_toString fontSize
      +:+ "px " +:+ fontFamily in
  let e2 := setFont fontStr e1 in
  let e3 :=
    match truthy (ts_textAlign style) with
    | Some al => setTextAlign al e2
    | None => e2
    end in
  match truthy (ts_textBaseline style) with
  | Some bl => setTextBaseline bl e3
  | None => e3
  end.

Definition blendModeToCanvas (blendMode : BlendMode) : string :=
  match blendMode with
  | Normal => "source-over"
  | Add => "lighter"
  | Multiply => "multiply"
  | Screen => "screen"
  | Overlay => "overlay"
  | Darken => "darken"
  | Lighten => "lighten"
  | UnknownBlendMode => "source-over"
  end.

Definition applyBlendMode (blendMode : BlendMode) (e : Env) : Env :=
  setGlobalCompositeOperation (blendModeToCanvas blendMode) e.

Definition applyOpacity (opacity : number) (e : Env) : Env :=
  setGlobalAlpha opacity e.

Definition saveState (e : Env) : Env := call ctx_save e.

Definition restoreState (e : Env) : Env :=
  let e1 := call ctx_restore e in
  let sm := styleManager e1 in
  set_styleManager
    (mkStyleManager empty_StyleCacheEntry (styleChangeCount sm)
       (enableCaching sm)) e1.

Definition resetCache (e : Env) : Env :=
  let sm := styleManager e in
  set_styleManager
    (mkStyleManager empty_StyleCacheEntry (styleChangeCount sm)
       (enableCaching sm)) e.

End SharedObjects.

(** ** src/types/CanvasTypes.ts: draw commands *)

Inductive DrawCommandType := tLine | tCircle | tRect | tPolygon | tText | tTexture.

(** The string literal of the union type. *)
Definition type_name (t : DrawCommandType) : string :=
  match t with
  | tLine => "line"
  | tCircle => "circle"
  | tRect => "rect"
  | tPolygon => "polygon"
  | tText => "text"
  | tTexture => "texture"
  end.

Section Batching.
Context `{Host}.

(** The [data: unknown] slot of a draw command. *)
Inductive DrawData :=
| OfLineDrawData (start end_ : FixedVector2)
| OfCircleDrawData (center : FixedVector2) (radius : Fixed)
| OfRectDrawData (x y w h : Fixed)
| OfPolygonDrawData (vertices : list FixedVector2)
| OfTextDrawData (text : string) (position : FixedVector2).

Record DrawCommand := mkDrawCommand {
  cmd_type : DrawCommandType;
  cmd_data : DrawData;
  cmd_style : Style
}.

(** ** src/utils/BatchManager.ts *)

Record BatchGroup := mkBatchGroup {
  group_type : DrawCommandType;
  group_style : Style;
  group_commands : list DrawCommand
}.

(** The five [draw...Immediate] fields are callbacks that the renderer
    installs; they act on the objects the renderer shares with the batch
    manager. *)
Record BatchManager := mkBatchManager {
  batchCommands : list DrawCommand;
  maxBatchSize : Z;
  batchingEnabled : bool;
  batchedDrawCallCount : Z;
  bm_drawLineImmediate : FixedVector2 → FixedVector2 → LineStyle → Env → Env;
  bm_drawCircleImmediate : FixedVector2 → Fixed → ShapeStyle → Env → Env;
  bm_drawRectImmediate : FixedRect → ShapeStyle → Env → Env;
  bm_drawPolygonImmediate : list FixedVector2 → ShapeStyle → Env → Env;
  bm_drawTextImmediate : string → FixedVector2 → TextStyle → Env → Env
}.

(** The constructor: empty buffer, batching off, counter 0, callbacks that
    do nothing. *)
Definition BatchManager_new (maxBatchSize : Z) : BatchManager :=
  mkBatchManager [] maxBatchSize false 0
    (λ _ _ _ e, e) (λ _ _ _ e, e) (λ _ _ e, e) (λ _ _ e, e) (λ _ _ _ e, e).

Definition set_batchCommands (cs : list DrawCommand) (bm : BatchManager) :=
  mkBatchManager cs (maxBatchSize bm) (batchingEnabled bm)
    (batchedDrawCallCount bm) (bm_drawLineImmediate bm)
    (bm_drawCircleImmediate bm) (bm_drawRectImmediate bm)
    (bm_drawPolygonImmediate bm) (bm_drawTextImmediate bm).

Definition set_batchingEnabled (en : bool) (bm : BatchManager) :=
  mkBatchManager (batchCommands bm) (maxBatchSize bm) en
    (batchedDrawCallCount bm) (bm_drawLineImmediate bm)
    (bm_drawCircleImmediate bm) (bm_drawRectImmediate bm)
    (bm_drawPolygonImmediate bm) (bm_drawTextImmediate bm).

Definition set_batchedDrawCallCount (n : Z) (bm : BatchManager) :=
  mkBatchManager (batchCommands bm) (maxBatchSize bm) (batchingEnabled bm)
    n (bm_drawLineImmediate bm)
    (bm_drawCircleImmediate bm) (bm_drawRectImmediate bm)
    (bm_drawPolygonImmediate bm) (bm_drawTextImmediate bm).

Definition getBatchedDrawCallCount (bm : BatchManager) : Z :=
  batchedDrawCallCount bm.

Definition resetBatchedDrawCallCount (bm : BatchManager) : BatchManager :=
  set_batchedDrawCallCount 0 bm.

Definition getGroupKey (command : DrawCommand) : string :=
  type_name (cmd_type command) +:+ "_" +:+ JSON_stringify (cmd_style command).

(** [group.commands.push(command)] on the group object. *)
Definition group_push (command : DrawCommand) (group : BatchGroup) : BatchGroup :=
  mkBatchGroup (group_type group) (group_style group)
    (group_commands group ++ [command]).

(** The loop of [groupCommands].  The group objects live in the array
    [groups]; [groupMap] maps a key to the position of its group in that
    array, so a push through the map is seen through the array. *)
Fixpoint groupCommands_loop (commands : list DrawCommand)
    (groups : list BatchGroup) (groupMap : gmap string nat) : list BatchGroup :=
  match commands with
  | [] => groups
  | command :: rest =>
      let key := getGroupKey command in
      match groupMap !! key with
      | Some i =>
          groupCommands_loop rest (alter (group_push command) i groups) groupMap
      | None =>
          let group :=
            mkBatchGroup (cmd_type command) (cmd_style command) [] in
          groupCommands_loop rest
            (groups ++ [group_push command group])
            (<[key := length groups]> groupMap)
      end
  end.

Definition groupCommands (commands : list DrawCommand) : list BatchGroup :=
  groupCommands_loop commands [] ∅.

(** The casts [x as T] of the [execute...Group] methods.  Commands are
    only built by the [add...] methods, which pair each type with its own
    data and style, so a cast never meets another variant; the model
    skips a command or group on which it would. *)
Definition as_LineStyle (s : Style) : option LineStyle :=
  match s with OfLineStyle s => Some s | _ => None end.
Definition as_ShapeStyle (s : Style) : option ShapeStyle :=
  match s with OfShapeStyle s => Some s | _ => None end.
Definition as_TextStyle (s : Style) : option TextStyle :=
  match s with OfTextStyle s => Some s | _ => None end.

Definition executeLineGroup (group : BatchGroup) (e : Env) : Env :=
  match as_LineStyle (group_style group) with
  | Some style =>
      let e1 := applyLineStyle style e in
      let e2 := call ctx_beginPath e1 in
      let e3 :=
        foldl (λ e command,
                 match cmd_data command with
                 | OfLineDrawData start end_ =>
                     let start := worldToScreen (coordinateSystem e) start in
                     let end_ := worldToScreen (coordinateSystem e) end_ in
                     call (ctx_lineTo (sp_x end_) (sp_y end_))
                       (call (ctx_moveTo (sp_x start) (sp_y start)) e)
                 | _ => e
                 end)
              e2 (group_commands group) in
      call ctx_stroke e3
  | None => e
  end.

Definition executeCircleGroup (bm : BatchManager) (group : BatchGroup)
    (e : Env) : Env :=
  match as_ShapeStyle (group_style group) with
  | Some style =>
      foldl (λ e command,
               match cmd_data command with
               | OfCircleDrawData center radius =>
                   bm_drawCircleImmediate bm center radius style e
               | _ => e
               end)
            e (group_commands group)
  | None => e
  end.

Definition executeRectGroup (bm : BatchManager) (group : BatchGroup)
    (e : Env) : Env :=
  match as_ShapeStyle (group_style group) with
  | Some style =>
      foldl (λ e command,
               match cmd_data command with
               | OfRectDrawData x y w h =>
                   let bounds := mkFixedRect x y w h in
                   bm_drawRectImmediate bm bounds style e
               | _ => e
               end)
            e (group_commands group)
  | None => e
  end.

Definition executePolygonGroup (bm : BatchManager) (group : BatchGroup)
    (e : Env) : Env :=
  match as_ShapeStyle (group_style group) with
  | Some style =>
      foldl (λ e command,
               match cmd_data command with
               | OfPolygonDrawData vertices =>
                   bm_drawPolygonImmediate bm vertices style e
               | _ => e
               end)
            e (group_commands group)
  | None => e
  end.

Definition executeTextGroup (bm : BatchManager) (group : BatchGroup)
    (e : Env) : Env :=
  match as_TextStyle (group_style group) with
  | Some style =>
      foldl (λ e command,
               match cmd_data command with
               | OfTextDrawData text position =>
                   bm_drawTextImmediate bm text position style e
               | _ => e
               end)
            e (group_commands group)
  | None => e
  end.

Definition executeGroup (bm : BatchManager) (group : BatchGroup) (e : Env) : Env :=
  match group_type group with
  | tLine => executeLineGroup group e
  | tCircle => executeCircleGroup bm group e
  | tRect => executeRectGroup bm group e
  | tPolygon => executePolygonGroup bm group e
  | tText => executeTextGroup bm group e
  | tTexture => e
  end.

Definition executeBatch (s : BatchManager * Env) : BatchManager * Env :=
  let '(bm, e) := s in
  match batchCommands bm with
  | [] => s
  | _ =>
      let groups := groupCommands (batchCommands bm) in
      let e' := foldl (λ e group, executeGroup bm group e) e groups in
      (set_batchedDrawCallCount
         (batchedDrawCallCount bm + Z.of_nat (length groups)) bm, e')
  end.

Definition beginBatch (s : BatchManager * Env) : BatchManager * Env :=
  let '(bm, e) := s in
  (set_batchedDrawCallCount 0 (set_batchCommands [] (set_batchingEnabled true bm)), e).

Definition endBatch (s : BatchManager * Env) : BatchManager * Env :=
  if batchingEnabled s.1 then
    let '(bm, e) := executeBatch s in
    (set_batchCommands [] (set_batchingEnabled false bm), e)
  else s.

Definition flushBatch (s : BatchManager * Env) : BatchManager * Env :=
  if bool_decide (0 < Z.of_nat (length (batchCommands s.1))) then
    let '(bm, e) := executeBatch s in
    (set_batchCommands [] bm, e)
  else s.

Definition addCommand (command : DrawCommand) (s : BatchManager * Env)
    : BatchManager * Env :=
  let '(bm, e) := s in
  let bm1 := set_batchCommands (batchCommands bm ++ [command]) bm in
  if bool_decide (maxBatchSize bm1 ≤ Z.of_nat (length (batchCommands bm1))) then
    flushBatch (bm1, e)
  else (bm1, e).

Definition addLine (start end_ : FixedVector2) (style : LineStyle)
    (s : BatchManager * Env) : BatchManager * Env :=
  if negb (batchingEnabled s.1) then
    (s.1, bm_drawLineImmediate s.1 start end_ style s.2)
  else
    addCommand (mkDrawCommand tLine (OfLineDrawData start end_) (OfLineStyle style)) s.

Definition addCircle (center : FixedVector2) (radius : Fixed) (style : ShapeStyle)
    (s : BatchManager * Env) : BatchManager * Env :=
  if negb (batchingEnabled s.1) then
    (s.1, bm_drawCircleImmediate s.1 center radius style s.2)
  else
    addCommand
      (mkDrawCommand tCircle (OfCircleDrawData center radius) (OfShapeStyle style)) s.

Definition addRect (bounds : FixedRect) (style : ShapeStyle)
    (s : BatchManager * Env) : BatchManager * Env :=
  if negb (batchingEnabled s.1) then
    (s.1, bm_drawRectImmediate s.1 bounds style s.2)
  else
    addCommand
      (mkDrawCommand tRect
         (OfRectDrawData (rect_x bounds) (rect_y bounds)
            (rect_width bounds) (rect_height bounds))
         (OfShapeStyle style)) s.

Definition addPolygon (vertices : list FixedVector2) (style : ShapeStyle)
    (s : BatchManager * Env) : BatchManager * Env :=
  if negb (batchingEnabled s.1) then
    (s.1, bm_drawPolygonImmediate s.1 vertices style s.2)
  else
    addCommand
      (mkDrawCommand tPolygon (OfPolygonDrawData vertices) (OfShapeStyle style)) s.

Definition addText (text : string) (position : FixedVector2) (style : TextStyle)
    (s : BatchManager * Env) : BatchManager * Env :=
  if negb (batchingEnabled s.1) then
    (s.1, bm_drawTextImmediate s.1 text position style s.2)
  else
    addCommand
      (mkDrawCommand tText (OfTextDrawData text position) (OfTextStyle style)) s.

End Batching.

(** ** src/types/CanvasTypes.ts: textures, configuration, statistics *)

Record CanvasTexture := mkCanvasTexture {
  tex_width : number;
  tex_height : number;
  tex_source : ImageSource
}.

(** An [ITexture] argument: the package's own wrapper, or an object of
    another class implementing the interface. *)
Inductive ITexture :=
| IsCanvasTexture (t : CanvasTexture)
| OtherTexture (id : nat).

Record CanvasRendererConfig := mkCanvasRendererConfig {
  cfg_pixelsPerUnit : number;
  cfg_enableHighDPI : bool;
  cfg_enableStyleCaching : bool;
  cfg_enableBatchRendering : bool;
  cfg_maxBatchSize : Z;
  cfg_backgroundColor : option Color;
  cfg_enableAntialiasing : bool
}.

Definition DEFAULT_CANVAS_CONFIG : CanvasRendererConfig :=
  mkCanvasRendererConfig (Qc_of_Z 100) true true true 1000 None true.

Record CanvasRenderStats := mkCanvasRenderStats {
  drawCalls : Z;
  batchedDrawCalls : Z;
  styleChanges : Z;
  transformChanges : Z;
  textureBinds : Z;
  pixelsDrawn : number;
  frameTime : number
}.

Definition zero_stats : CanvasRenderStats :=
  mkCanvasRenderStats 0 0 0 0 0 0%Qc 0%Qc.

(** An object [Partial<CanvasRendererConfig>]. *)
Record PartialConfig := mkPartialConfig {
  opt_pixelsPerUnit : option number;
  opt_enableHighDPI : option bool;
  opt_enableStyleCaching : option bool;
  opt_enableBatchRendering : option bool;
  opt_maxBatchSize : option Z;
  opt_backgroundColor : option Color;
  opt_enableAntialiasing : option bool
}.

(** [{ ...DEFAULT_CANVAS_CONFIG, ...config }]. *)
Definition merge_config (config : PartialConfig) : CanvasRendererConfig :=
  let d := DEFAULT_CANVAS_CONFIG in
  mkCanvasRendererConfig
    (default (cfg_pixelsPerUnit d) (opt_pixelsPerUnit config))
    (default (cfg_enableHighDPI d) (opt_enableHighDPI config))
    (default (cfg_enableStyleCaching d) (opt_enableStyleCaching config))
    (default (cfg_enableBatchRendering d) (opt_enableBatchRendering config))
    (default (cfg_maxBatchSize d) (opt_maxBatchSize config))
    (opt_backgroundColor config)
    (default (cfg_enableAntialiasing d) (opt_enableAntialiasing config)).

(** The canvas element: its backing size, its CSS size and the size that
    [getBoundingClientRect] reports; [canvas_has2d] tells whether
    [getContext('2d')] yields a context. *)
Record Canvas := mkCanvas {
  canvas_width : number;
  canvas_height : number;
  canvas_style_width : string;
  canvas_style_height : string;
  canvas_clientRect : ScreenSize;
  canvas_has2d : bool
}.

Record Viewport := mkViewport { vp_width : number; vp_height : number }.

(** ** src/CanvasRenderer.ts *)

Section Renderer.
Context `{Host}.

(** *** Immediate drawing methods

    They use the context, the style manager and the coordinate system
    only, and are what [setupBatchManager] installs in the batch
    manager. *)

Definition drawLineImmediate (start end_ : FixedVector2) (style : LineStyle)
    (e : Env) : Env :=
  let e1 := applyLineStyle style e in
  let startScreen := worldToScreen (coordinateSystem e1) start in
  let endScreen := worldToScreen (coordinateSystem e1) end_ in
  let e2 := call ctx_beginPath e1 in
  let e3 := call (ctx_moveTo (sp_x startScreen) (sp_y startScreen)) e2 in
  let e4 := call (ctx_lineTo (sp_x endScreen) (sp_y endScreen)) e3 in
  call ctx_stroke e4.

(** The tail shared by the shape methods: fill when the style has a fill
    colour, then stroke when it has a stroke colour, applying the shape
    style before each. *)
Definition fillAndStroke (style : ShapeStyle) (e : Env) : Env :=
  let e1 :=
    match ss_fillColor style with
    | Some _ => call ctx_fill (applyShapeStyle style e)
    | None => e
    end in
  match ss_strokeColor style with
  | Some _ => call ctx_stroke (applyShapeStyle style e1)
  | None => e1
  end.

Definition drawCircleImmediate (center : FixedVector2) (radius : Fixed)
    (style : ShapeStyle) (e : Env) : Env :=
  let centerScreen := worldToScreen (coordinateSystem e) center in
  let radiusPixels := worldToScreenDistance (coordinateSystem e) radius in
  let e1 := call ctx_beginPath e in
  let e2 :=
    call (ctx_arc (sp_x centerScreen) (sp_y centerScreen) radiusPixels
            0%Qc (2 * Math_PI)%Qc) e1 in
  fillAndStroke style e2.

Definition drawRectImmediate (bounds : FixedRect) (style : ShapeStyle)
    (e : Env) : Env :=
  let screenRect := worldToScreenRect (coordinateSystem e) bounds in
  let e1 := call ctx_beginPath e in
  let e2 :=
    call (ctx_rect (sr_x screenRect) (sr_y screenRect)
            (sr_width screenRect) (sr_height screenRect)) e1 in
  fillAndStroke style e2.

Definition drawPolygonImmediate (vertices : list FixedVector2)
    (style : ShapeStyle) (e : Env) : Env :=
  match vertices with
  | v0 :: (_ :: _ :: _) as others =>
      let e1 := call ctx_beginPath e in
      let firstPoint := worldToScreen (coordinateSystem e1) v0 in
      let e2 := call (ctx_moveTo (sp_x firstPoint) (sp_y firstPoint)) e1 in
      let e3 :=
        foldl (λ e v,
                 let point := worldToScreen (coordinateSystem e) v in
                 call (ctx_lineTo (sp_x point) (sp_y point)) e)
              e2 others in
      let e4 := call ctx_closePath e3 in
      fillAndStroke style e4
  | _ => e
  end.

Definition drawEllipseImmediate (bounds : FixedRect) (style : ShapeStyle)
    (e : Env) : Env :=
  let screenRect := worldToScreenRect (coordinateSystem e) bounds in
  let centerX := (sr_x screenRect + sr_width screenRect / 2)%Qc in
  let centerY := (sr_y screenRect + sr_height screenRect / 2)%Qc in
  let radiusX := (sr_width screenRect / 2)%Qc in
  let radiusY := (sr_height screenRect / 2)%Qc in
  let e1 := call ctx_beginPath e in
  let e2 :=
    call (ctx_ellipse centerX centerY radiusX radiusY 0%Qc 0%Qc
            (2 * Math_PI)%Qc) e1 in
  fillAndStroke style e2.

Definition drawTextImmediate (text : string) (position : FixedVector2)
    (style : TextStyle) (e : Env) : Env :=
  let e1 := call ctx_save e in
  let e2 := call (ctx_scale 1%Qc (-1)%Qc) e1 in
  let e3 := applyTextStyle style e2 in
  let screenPos := worldToScreen (coordinateSystem e3) position in
  let e4 := call (ctx_fillText text (sp_x screenPos) (- sp_y screenPos)%Qc) e3 in
  call ctx_restore e4.

Definition when {A} (o : option A) (f : A → Env → Env) (e : Env) : Env :=
  match o with Some v => f v e | None => e end.

Definition applyTextureStyle (style : TextureStyle) (position : ScreenPoint)
    (texture : CanvasTexture) (e : Env) : Env :=
  let e1 := when (tx_tint style) (λ tint, call (ctx_set_globalAlpha (a tint))) e in
  let e2 := when (tx_opacity style) (λ o, call (ctx_mul_globalAlpha o)) e1 in
  let e3 :=
    when (tx_scale style)
      (λ s, call (ctx_scale (Fixed_toNumber (v2_x s)) (Fixed_toNumber (v2_y s)))) e2 in
  let e4 :=
    when (tx_rotation style)
      (λ rot e,
         if Fixed_equals rot Fixed_ZERO then e
         else
           call (ctx_translate (- sp_x position)%Qc (- sp_y position)%Qc)
             (call (ctx_rotate (Fixed_toNumber rot))
                (call (ctx_translate (sp_x position) (sp_y position)) e))) e3 in
  let e5 :=
    when (tx_anchor style)
      (λ anchor,
         let offsetX := (tex_width texture * Fixed_toNumber (v2_x anchor))%Qc in
         let offsetY := (tex_height texture * Fixed_toNumber (v2_y anchor))%Qc in
         call (ctx_translate (- offsetX)%Qc (- offsetY)%Qc)) e4 in
  if tx_flipX style || tx_flipY style then
    let scaleX := if tx_flipX style then (-1)%Qc else 1%Qc in
    let scaleY := if tx_flipY style then (-1)%Qc else 1%Qc in
    let e6 := call (ctx_scale scaleX scaleY) e5 in
    let e7 :=
      if tx_flipX style
      then call (ctx_translate (- tex_width texture)%Qc 0%Qc) e6 else e6 in
    if tx_flipY style
    then call (ctx_translate 0%Qc (- tex_height texture)%Qc) e7 else e7
  else e5.

Definition drawTextureImmediate (texture : CanvasTexture)
    (position : FixedVector2) (style : option TextureStyle) (e : Env) : Env :=
  let screenPos := worldToScreen (coordinateSystem e) position in
  let e1 := call ctx_save e in
  let e2 := when style (λ st, applyTextureStyle st screenPos texture) e1 in
  let e3 :=
    call (ctx_drawImage (tex_source texture) (sp_x screenPos) (sp_y screenPos)) e2 in
  call ctx_restore e3.

Definition drawTextureRegionImmediate (texture : CanvasTexture)
    (sourceRect destRect : FixedRect) (style : option TextureStyle)
    (e : Env) : Env :=
  let destScreenRect := worldToScreenRect (coordinateSystem e) destRect in
  let e1 := call ctx_save e in
  let e2 :=
    when style
      (λ st,
         applyTextureStyle st
           (mkScreenPoint (sr_x destScreenRect) (sr_y destScreenRect)) texture) e1 in
  let e3 :=
    call (ctx_drawImage_region (tex_source texture)
            (Fixed_toNumber (rect_x sourceRect)) (Fixed_toNumber (rect_y sourceRect))
            (Fixed_toNumber (rect_width sourceRect))
            (Fixed_toNumber (rect_height sourceRect))
            (sr_x destScreenRect) (sr_y destScreenRect)
            (sr_width destScreenRect) (sr_height destScreenRect)) e2 in
  call ctx_restore e3.

End Renderer.

Section RendererState.
Context `{Host}.

Record RenderState := mkRenderState {
  rs_blendMode : BlendMode;
  rs_opacity : number;
  rs_clipRect : option FixedRect
}.

(** [env] holds the context, the style manager and the coordinate system,
    which the batch manager shares; [console] collects the messages of
    [console.warn]; [base] is the state of the [BaseRenderer]
    superclass. *)
Record CanvasRenderer := mkCanvasRenderer {
  canvas : Canvas;
  config : CanvasRendererConfig;
  env : Env;
  batchManager : BatchManager;
  transformStackDepth : Z;
  canvasStats : CanvasRenderStats;
  console : list string;
  base : BaseRenderer
}.

Definition set_canvas (c : Canvas) (r : CanvasRenderer) :=
  mkCanvasRenderer c (config r) (env r) (batchManager r)
    (transformStackDepth r) (canvasStats r) (console r) (base r).
Definition set_env (e : Env) (r : CanvasRenderer) :=
  mkCanvasRenderer (canvas r) (config r) e (batchManager r)
    (transformStackDepth r) (canvasStats r) (console r) (base r).
Definition set_batchManager (bm : BatchManager) (r : CanvasRenderer) :=
  mkCanvasRenderer (canvas r) (config r) (env r) bm
    (transformStackDepth r) (canvasStats r) (console r) (base r).
Definition set_transformStackDepth (d : Z) (r : CanvasRenderer) :=
  mkCanvasRenderer (canvas r) (config r) (env r) (batchManager r)
    d (canvasStats r) (console r) (base r).
Definition set_canvasStats (st : CanvasRenderStats) (r : CanvasRenderer) :=
  mkCanvasRenderer (canvas r) (config r) (env r) (batchManager r)
    (transformStackDepth r) st (console r) (base r).
Definition set_base (b : BaseRenderer) (r : CanvasRenderer) :=
  mkCanvasRenderer (canvas r) (config r) (env r) (batchManager r)
    (transformStackDepth r) (canvasStats r) (console r) b.
Definition console_warn (msg : string) (r : CanvasRenderer) :=
  mkCanvasRenderer (canvas r) (config r) (env r) (batchManager r)
    (transformStackDepth r) (canvasStats r) (console r ++ [msg]) (base r).

(** A method of the style manager or a call on the context, run on the
    renderer's shared objects. *)
Definition on_env (f : Env → Env) (r : CanvasRenderer) : CanvasRenderer :=
  set_env (f (env r)) r.

(** A method of the batch manager, run on the renderer's batch manager
    and shared objects. *)
Definition on_batchManager (f : BatchManager * Env → BatchManager * Env)
    (r : CanvasRenderer) : CanvasRenderer :=
  let '(bm, e) := f (batchManager r, env r) in
  set_env e (set_batchManager bm r).

Definition inc_drawCalls (r : CanvasRenderer) : CanvasRenderer :=
  let st := canvasStats r in
  set_canvasStats
    (mkCanvasRenderStats (drawCalls st + 1) (batchedDrawCalls st)
       (styleChanges st) (transformChanges st) (textureBinds st)
       (pixelsDrawn st) (frameTime st)) r.

Definition inc_textureBinds (r : CanvasRenderer) : CanvasRenderer :=
  let st := canvasStats r in
  set_canvasStats
    (mkCanvasRenderStats (drawCalls st) (batchedDrawCalls st)
       (styleChanges st) (transformChanges st) (textureBinds st + 1)
       (pixelsDrawn st) (frameTime st)) r.

Definition inc_transformChanges (r : CanvasRenderer) : CanvasRenderer :=
  let st := canvasStats r in
  set_canvasStats
    (mkCanvasRenderStats (drawCalls st) (batchedDrawCalls st)
       (styleChanges st) (transformChanges st + 1) (textureBinds st)
       (pixelsDrawn st) (frameTime st)) r.

(** [CoordinateSystem.applyHighDPIScaling(ctx, canvas)]. *)
Definition applyHighDPIScaling (r : CanvasRenderer) : CanvasRenderer :=
  let cs := coordinateSystem (env r) in
  let ratio := devicePixelRatio cs in
  if bool_decide (ratio = 1%Qc) then r
  else
    let rect := canvas_clientRect (canvas r) in
    let c :=
      mkCanvas (width rect * ratio)%Qc (height rect * ratio)%Qc
        (Number_toString (width rect) +:+ "px")
        (Number_toString (height rect) +:+ "px")
        (canvas_clientRect (canvas r)) (canvas_has2d (canvas r)) in
    let r1 := set_canvas c r in
    let r2 := on_env (call (ctx_scale ratio ratio)) r1 in
    on_env (λ e, set_coordinateSystem
                   (setCanvasSize (mkScreenSize (width rect) (height rect))
                      (coordinateSystem e)) e) r2.

Definition setupCoordinateSystem (r : CanvasRenderer) : CanvasRenderer :=
  let r1 :=
    on_env (call (ctx_translate (canvas_width (canvas r) / 2)%Qc
                    (canvas_height (canvas r) / 2)%Qc)) r in
  on_env (call (ctx_scale 1%Qc (-1)%Qc)) r1.

Definition setupCanvas (r : CanvasRenderer) : CanvasRenderer :=
  let r1 := if cfg_enableHighDPI (config r) then applyHighDPIScaling r else r in
  let r2 :=
    if negb (cfg_enableAntialiasing (config r1))
    then on_env (call (ctx_set_imageSmoothingEnabled false)) r1 else r1 in
  setupCoordinateSystem r2.

Definition setupBatchManager (r : CanvasRenderer) : CanvasRenderer :=
  let bm := batchManager r in
  set_batchManager
    (mkBatchManager (batchCommands bm) (maxBatchSize bm) (batchingEnabled bm)
       (batchedDrawCallCount bm)
       drawLineImmediate drawCircleImmediate drawRectImmediate
       drawPolygonImmediate drawTextImmediate) r.

(** The constructor.  [windowDevicePixelRatio] is the value of
    [window.devicePixelRatio] and [base] the state that [super()] sets
    up; the result is [None] when no 2D context is available and the
    constructor throws. *)
Definition CanvasRenderer_new (canvas : Canvas) (partial : PartialConfig)
    (windowDevicePixelRatio : number) (base : BaseRenderer)
    : option CanvasRenderer :=
  let config := merge_config partial in
  if negb (canvas_has2d canvas) then None
  else
    let devicePixelRatio :=
      if cfg_enableHighDPI config then
        (if bool_decide (windowDevicePixelRatio = 0%Qc) then 1%Qc
         else windowDevicePixelRatio)
      else 1%Qc in
    let coordinateSystem :=
      CoordinateSystem_new (cfg_pixelsPerUnit config)
        (mkScreenSize (canvas_width canvas) (canvas_height canvas))
        devicePixelRatio in
    let styleManager := StyleManager_new (cfg_enableStyleCaching config) in
    let batchManager := BatchManager_new (cfg_maxBatchSize config) in
    let r :=
      mkCanvasRenderer canvas config
        (mkEnv [] styleManager coordinateSystem) batchManager
        0 zero_stats [] base in
    Some (setupCanvas (setupBatchManager r)).

(** *** Lifecycle *)

Definition resetCanvasStats (r : CanvasRenderer) : CanvasRenderer :=
  let r1 := set_canvasStats zero_stats r in
  let r2 := on_env resetStyleChangeCount r1 in
  set_batchManager (resetBatchedDrawCallCount (batchManager r2)) r2.

Definition updateStatistics (r : CanvasRenderer) : CanvasRenderer :=
  let st := canvasStats r in
  set_canvasStats
    (mkCanvasRenderStats (drawCalls st)
       (getBatchedDrawCallCount (batchManager r))
       (getStyleChangeCount (styleManager (env r)))
       (transformChanges st) (textureBinds st)
       (canvas_width (canvas r) * canvas_height (canvas r))%Qc
       (frameTime st)) r.

Definition applyCameraTransform (r : CanvasRenderer) : CanvasRenderer := r.

Definition onBeginFrame (r : CanvasRenderer) : CanvasRenderer :=
  let r1 := on_env (call ctx_save) r in
  let r2 := set_transformStackDepth 0 r1 in
  let r3 := resetCanvasStats r2 in
  applyCameraTransform r3.

Definition popTransform (r : CanvasRenderer) : CanvasRenderer :=
  let r1 :=
    if bool_decide (0 < transformStackDepth r) then
      set_transformStackDepth (transformStackDepth r - 1)
        (on_env (call ctx_restore) r)
    else r in
  set_base (BaseRenderer_popTransform (base r1)) r1.

(** The loop [while (this.transformStackDepth > 0) this.popTransform()],
    with a bound on the number of iterations; [None] when the bound is
    reached before the loop ends. *)
Fixpoint unwindTransforms (fuel : nat) (r : CanvasRenderer)
    : option CanvasRenderer :=
  if bool_decide (0 < transformStackDepth r) then
    match fuel with
    | O => None
    | S fuel => unwindTransforms fuel (popTransform r)
    end
  else Some r.

Definition onEndFrame_fuel (fuel : nat) (r : CanvasRenderer)
    : option CanvasRenderer :=
  let r1 := on_batchManager flushBatch r in
  r2 ← unwindTransforms fuel r1;
  let r3 := on_env (call ctx_restore) r2 in
  Some (updateStatistics r3).

(** [onEndFrame]: the loop runs [transformStackDepth] times. *)
Definition onEndFrame (r : CanvasRenderer) : option CanvasRenderer :=
  onEndFrame_fuel (Z.to_nat (transformStackDepth r)) r.

Definition onClear (color : Color) (r : CanvasRenderer) : CanvasRenderer :=
  let r1 := on_env (call ctx_save) r in
  let r2 := on_env (call (ctx_setTransform 1 0 0 1 0 0)%Qc) r1 in
  let r3 := on_env (call (ctx_set_fillStyle (ColorUtils_toHex color))) r2 in
  let r4 :=
    on_env (call (ctx_fillRect 0%Qc 0%Qc (canvas_width (canvas r3))
                    (canvas_height (canvas r3)))) r3 in
  on_env (call ctx_restore) r4.

Definition dispose (r : CanvasRenderer) : CanvasRenderer :=
  on_env resetCache (on_batchManager endBatch r).

(** *** Transforms *)

Definition applyTransform (transform : Transform2D) (r : CanvasRenderer)
    : CanvasRenderer :=
  let r1 := on_env (call ctx_save) r in
  let r2 := set_transformStackDepth (transformStackDepth r1 + 1) r1 in
  let r3 := inc_transformChanges r2 in
  let screenPos :=
    worldToScreen (coordinateSystem (env r3)) (position transform) in
  let r4 :=
    on_env (call (ctx_translate
                    (sp_x screenPos - canvas_width (canvas r3) / 2)%Qc
                    (- (sp_y screenPos - canvas_height (canvas r3) / 2))%Qc)) r3 in
  let r5 := on_env (call (ctx_rotate (Fixed_toNumber (rotation transform)))) r4 in
  on_env (call (ctx_scale (Fixed_toNumber (v2_x (scale transform)))
                  (Fixed_toNumber (v2_y (scale transform))))) r5.

(** *** Drawing primitives *)

Definition onDrawLine (start end_ : FixedVector2) (style : LineStyle)
    (r : CanvasRenderer) : CanvasRenderer :=
  let r1 :=
    if cfg_enableBatchRendering (config r)
    then on_batchManager (addLine start end_ style) r
    else on_env (drawLineImmediate start end_ style) r in
  inc_drawCalls r1.

Definition onDrawCircle (center : FixedVector2) (radius : Fixed)
    (style : ShapeStyle) (r : CanvasRenderer) : CanvasRenderer :=
  let r1 :=
    if cfg_enableBatchRendering (config r)
    then on_batchManager (addCircle center radius style) r
    else on_env (drawCircleImmediate center radius style) r in
  inc_drawCalls r1.

Definition onDrawRect (bounds : FixedRect) (style : ShapeStyle)
    (r : CanvasRenderer) : CanvasRenderer :=
  let r1 :=
    if cfg_enableBatchRendering (config r)
    then on_batchManager (addRect bounds style) r
    else on_env (drawRectImmediate bounds style) r in
  inc_drawCalls r1.

Definition onDrawPolygon (vertices : list FixedVector2) (style : ShapeStyle)
    (r : CanvasRenderer) : CanvasRenderer :=
  let r1 :=
    if cfg_enableBatchRendering (config r)
    then on_batchManager (addPolygon vertices style) r
    else on_env (drawPolygonImmediate vertices style) r in
  inc_drawCalls r1.

Definition onDrawEllipse (bounds : FixedRect) (style : ShapeStyle)
    (r : CanvasRenderer) : CanvasRenderer :=
  inc_drawCalls (on_env (drawEllipseImmediate bounds style) r).

Definition onDrawText (text : string) (position : FixedVector2)
    (style : TextStyle) (r : CanvasRenderer) : CanvasRenderer :=
  let r1 :=
    if cfg_enableBatchRendering (config r)
    then on_batchManager (addText text position style) r
    else on_env (drawTextImmediate text position style) r in
  inc_drawCalls r1.

(** *** Textures *)

Definition onDrawTexture (texture : ITexture) (position : FixedVector2)
    (style : option TextureStyle) (r : CanvasRenderer) : CanvasRenderer :=
  match texture with
  | IsCanvasTexture texture =>
      let r1 := on_env (drawTextureImmediate texture position style) r in
      inc_textureBinds (inc_drawCalls r1)
  | OtherTexture _ =>
      console_warn "Invalid texture type for Canvas renderer" r
  end.

Definition onDrawTextureRegion (texture : ITexture)
    (sourceRect destRect : FixedRect) (style : option TextureStyle)
    (r : CanvasRenderer) : CanvasRenderer :=
  match texture with
  | IsCanvasTexture texture =>
      let r1 :=
        on_env (drawTextureRegionImmediate texture sourceRect destRect style) r in
      inc_textureBinds (inc_drawCalls r1)
  | OtherTexture _ =>
      console_warn "Invalid texture type for Canvas renderer" r
  end.

(** *** Render state and viewport *)

Definition applyClipRect (clipRect : FixedRect) (r : CanvasRenderer)
    : CanvasRenderer :=
  let screenRect := worldToScreenRect (coordinateSystem (env r)) clipRect in
  let r1 := on_env (call ctx_save) r in
  let r2 := on_env (call ctx_beginPath) r1 in
  let r3 :=
    on_env (call (ctx_rect (sr_x screenRect) (sr_y screenRect)
                    (sr_width screenRect) (sr_height screenRect))) r2 in
  on_env (call ctx_clip) r3.

Definition onSetRenderState (state : RenderState) (r : CanvasRenderer)
    : CanvasRenderer :=
  let r1 := on_env (applyBlendMode (rs_blendMode state)) r in
  let r2 := on_env (applyOpacity (rs_opacity state)) r1 in
  match rs_clipRect state with
  | Some clipRect => applyClipRect clipRect r2
  | None => r2
  end.

Definition onSetViewport (viewport : Viewport) (r : CanvasRenderer)
    : CanvasRenderer :=
  if bool_decide (canvas_width (canvas r) ≠ vp_width viewport)
     || bool_decide (canvas_height (canvas r) ≠ vp_height viewport) then
    let c := canvas r in
    let r1 :=
      set_canvas
        (mkCanvas (vp_width viewport) (vp_height viewport)
           (canvas_style_width c) (canvas_style_height c)
           (canvas_clientRect c) (canvas_has2d c)) r in
    let r2 :=
      on_env (λ e, set_coordinateSystem
                     (setCanvasSize
                        (mkScreenSize (vp_width viewport) (vp_height viewport))
                        (coordinateSystem e)) e) r1 in
    let r3 :=
      if cfg_enableHighDPI (config r2) then applyHighDPIScaling r2 else r2 in
    setupCoordinateSystem r3
  else r.

(** [onMeasureText].  [measureText text] is the width that
    [ctx.measureText(text)] reports with the font in force; the result
    is [None] when a division fails. *)
Definition onMeasureText (measureText : string → number) (text : string)
    (style : TextStyle) (r : CanvasRenderer)
    : CanvasRenderer * option FixedVector2 :=
  let r1 := on_env (applyTextStyle style) r in
  let metrics_width := measureText text in
  (r1,
   w ← js_div metrics_width (cfg_pixelsPerUnit (config r1));
   height ←
     Fixed_divide (ts_fontSize style)
       (Fixed_new (cfg_pixelsPerUnit (config r1)));
   Some (mkFixedVector2 (Fixed_new w) height)).

(** *** Utility methods *)

Definition supportedFeatures : list string :=
  ["2d"; "canvas"; "basic-shapes"; "text"; "textures"; "transforms";
   "clipping"; "batch-rendering"; "high-dpi"].

Definition onSupportsFeature (feature : string) : bool :=
  bool_decide (feature ∈ supportedFeatures).

Record RendererInfo := mkRendererInfo {
  info_name : string;
  info_version : string;
  info_vendor : string;
  info_capabilities : list string
}.

Definition onGetRendererInfo : RendererInfo :=
  {| info_name := "CanvasRenderer"; info_version := "1.0.0";
     info_vendor := "HTML5 Canvas 2D";
     info_capabilities :=
       ["2d"; "canvas"; "basic-shapes"; "text"; "textures"; "transforms";
        "clipping"; "batch-rendering"; "high-dpi"] |}.

Definition getRenderTarget (r : CanvasRenderer) : Canvas := canvas r.

Definition setRenderTarget (r : CanvasRenderer) : CanvasRenderer :=
  console_warn "Render target switching not implemented for Canvas renderer" r.

(** *** Sequences of calls

    The calls that reach the renderer between [onBeginFrame] and
    [onEndFrame]. *)
Inductive RendererCall :=
| CallApplyTransform (transform : Transform2D)
| CallPopTransform
| CallDrawLine (start end_ : FixedVector2) (style : LineStyle)
| CallDrawCircle (center : FixedVector2) (radius : Fixed) (style : ShapeStyle)
| CallDrawRect (bounds : FixedRect) (style : ShapeStyle)
| CallDrawPolygon (vertices : list FixedVector2) (style : ShapeStyle)
| CallDrawEllipse (bounds : FixedRect) (style : ShapeStyle)
| CallDrawText (text : string) (position : FixedVector2) (style : TextStyle)
| CallDrawTexture (texture : ITexture) (position : FixedVector2)
    (style : option TextureStyle)
| CallDrawTextureRegion (texture : ITexture) (sourceRect destRect : FixedRect)
    (style : option TextureStyle)
| CallClear (color : Color)
| CallSetRenderState (state : RenderState)
| CallSetViewport (viewport : Viewport).

Definition run_call (c : RendererCall) (r : CanvasRenderer) : CanvasRenderer :=
  match c with
  | CallApplyTransform t => applyTransform t r
  | CallPopTransform => popTransform r
  | CallDrawLine s e st => onDrawLine s e st r
  | CallDrawCircle c rad st => onDrawCircle c rad st r
  | CallDrawRect bnd st => onDrawRect bnd st r
  | CallDrawPolygon vs st => onDrawPolygon vs st r
  | CallDrawEllipse bnd st => onDrawEllipse bnd st r
  | CallDrawText t p st => onDrawText t p st r
  | CallDrawTexture t p st => onDrawTexture t p st r
  | CallDrawTextureRegion t s d st => onDrawTextureRegion t s d st r
  | CallClear col => onClear col r
  | CallSetRenderState st => onSetRenderState st r
  | CallSetViewport vp => onSetViewport vp r
  end.

Definition run_calls (cs : list RendererCall) (r : CanvasRenderer)
    : CanvasRenderer :=
  foldl (λ r c, run_call c r) r cs.

End RendererState.

(** ** src/CanvasDebugRenderer.ts

    The parts of the debug renderer that do not go through the public
    drawing interface of the superclass: the performance measurements and
    the bounds of the overlay. *)

Section DebugRenderer.
Context `{Host}.

(** The two maps of the debug renderer. *)
Record PerformanceState := mkPerformanceState {
  performanceCounters : gmap string number;
  performanceMeasurements : gmap string number
}.

(** [now] is the value of [performance.now()]. *)
Definition startPerformanceMeasure (name : string) (now : number)
    (st : PerformanceState) : PerformanceState :=
  mkPerformanceState (<[name := now]> (performanceCounters st))
    (performanceMeasurements st).

Definition endPerformanceMeasure (name : string) (now : number)
    (st : PerformanceState) : PerformanceState :=
  match performanceCounters st !! name with
  | Some startTime =>
      let duration := (now - startTime)%Qc in
      mkPerformanceState (delete name (performanceCounters st))
        (<[name := duration]> (performanceMeasurements st))
  | None => st
  end.

Definition getPerformanceMeasurements (st : PerformanceState)
    : gmap string number :=
  performanceMeasurements st.

Definition clearPerformanceMeasurements (st : PerformanceState)
    : PerformanceState :=
  mkPerformanceState ∅ ∅.

(** [DebugInfo] of render-core, with the fields the package reads. *)
Record DebugItem := mkDebugItem {
  item_label : string;
  item_value : string;
  item_color : option Color
}.

Record DebugInfo := mkDebugInfo {
  info_title : string;
  info_items : list DebugItem;
  info_position : option FixedVector2
}.

Definition calculateOverlayBounds (info : DebugInfo) (position : FixedVector2)
    : FixedRect :=
  let lineHeight := Fixed_new (Qc_of_Z 16) in
  let titleHeight := Fixed_new (Qc_of_Z 20) in
  let padding := Fixed_new (Qc_of_Z 8) in
  let width := Fixed_new (Qc_of_Z 200) in
  let height :=
    Fixed_add
      (Fixed_add titleHeight
         (Fixed_multiply lineHeight
            (Fixed_new (Qc_of_Z (Z.of_nat (length (info_items info)))))))
      (Fixed_multiply padding (Fixed_new (Qc_of_Z 2))) in
  mkFixedRect (Fixed_subtract (v2_x position) padding)
    (Fixed_subtract (v2_y position) padding) width height.

End DebugRenderer.

(** ** A reference host

    One implementation of the two interfaces, on which the model runs: a
    fixed-point type with six decimal digits whose operations round to
    nearest, ties upwards (as [Math.round] does), and a host that prints
    numbers as fractions and styles field by field.  The instances
    themselves follow the proofs of the laws, further down. *)

Definition ref_scale : Z := 1000000.

(** [Math.round(n / d)] for [0 < d]. *)
Definition ref_round_div_pos (n d : Z) : Z := (2 * n + d) `div` (2 * d).

(** [Math.round(n / d)] for [d ≠ 0]. *)
Definition ref_round_div (n d : Z) : Z :=
  if bool_decide (d < 0) then ref_round_div_pos (- n) (- d)
  else ref_round_div_pos n d.

Definition ref_new (q : number) : Z :=
  ref_round_div_pos (Qnum q * ref_scale) (Zpos (Qden q)).

Definition ref_toNumber (a : Z) : number := (Qc_of_Z a / Qc_of_Z ref_scale)%Qc.

Definition ref_multiply (a b : Z) : Z := ref_round_div_pos (a * b) ref_scale.

Definition ref_divide (a b : Z) : option Z :=
  if bool_decide (b = 0) then None else Some (ref_round_div (a * ref_scale) b).

(** Decimal printing is a matter of the JavaScript engine; the reference
    host prints a number as a fraction. *)
Definition ref_show_number (q : number) : string :=
  pretty (Qnum q) +:+ "/" +:+ pretty (Zpos (Qden q)).

Definition ref_toHex (c : Color) : string :=
  "#" +:+ ref_show_number (r c) +:+ "," +:+ ref_show_number (g c)
    +:+ "," +:+ ref_show_number (b c) +:+ "," +:+ ref_show_number (a c).

Definition ref_show_opt {A} (f : A → string) (o : option A) : string :=
  match o with Some v => f v | None => "undefined" end.

Definition ref_show_list {A} (f : A → string) (l : list A) : string :=
  "[" +:+ foldr (λ v s, f v +:+ ";" +:+ s) "]" l.

(** ** Vocabulary of the statements *)

Section Vocabulary.
Context `{FP : FixedPoint, HH : !Host}.

(** [new Fixed(n)] for an integer literal [n]. *)
Definition Fixed_of_Z (n : Z) : Fixed := Fixed_new (Qc_of_Z n).





(** [f] writes the context property [c] and counts one style change. *)
Definition writes (f : Env → Env) (c : CtxCall) (e : Env) : Prop :=
  ctx (f e) = ctx e ++ [c] ∧
  styleChangeCount (styleManager (f e)) = styleChangeCount (styleManager e) + 1.

(** Every attribute setter, for every value, writes. *)
Definition all_setters_write (e : Env) : Prop :=
  (∀ v, writes (setStrokeStyle v) (ctx_set_strokeStyle v) e) ∧
  (∀ v, writes (setFillStyle v) (ctx_set_fillStyle v) e) ∧
  (∀ v, writes (setLineWidth v) (ctx_set_lineWidth v) e) ∧
  (∀ v, writes (setFont v) (ctx_set_font v) e) ∧
  (∀ v, writes (setTextAlign v) (ctx_set_textAlign v) e) ∧
  (∀ v, writes (setTextBaseline v) (ctx_set_textBaseline v) e) ∧
  (∀ v, writes (setGlobalAlpha v) (ctx_set_globalAlpha v) e) ∧
  (∀ v, writes (setGlobalCompositeOperation v)
          (ctx_set_globalCompositeOperation v) e).

(** A write of one of the attributes that the style manager caches. *)
Definition is_style_write (c : CtxCall) : bool :=
  match c with
  | ctx_set_strokeStyle _ | ctx_set_fillStyle _ | ctx_set_lineWidth _
  | ctx_set_font _ | ctx_set_textAlign _ | ctx_set_textBaseline _
  | ctx_set_globalAlpha _ | ctx_set_globalCompositeOperation _ => true
  | _ => false
  end.

(** The number of such writes in a context log. *)
Definition style_writes (log : list CtxCall) : Z :=
  foldr (λ c n, (if is_style_write c then 1 else 0) + n) 0 log.

(** [f] counts one style change for each attribute write it makes, and
    nothing else. *)
Definition counts_writes (f : Env → Env) : Prop :=
  ∀ e, styleChangeCount (styleManager (f e)) - style_writes (ctx (f e))
       = styleChangeCount (styleManager e) - style_writes (ctx e).

(** The value that [applyTextStyle] gives to the [font] attribute. *)
Definition font_of (style : TextStyle) : string :=
  or_default (ts_fontStyle style) "normal" +:+ " "
    +:+ or_default (ts_fontWeight style) "normal" +:+ " "
    +:+ Number_toString (Fixed_toNumber (ts_fontSize style))
    +:+ "px " +:+ or_default (ts_fontFamily style) "Arial".

(** The cache holds every attribute that [applyTextStyle] sets for
    [style]. *)
Definition text_style_cached (style : TextStyle) (e : Env) : Prop :=
  let cache := currentStyle (styleManager e) in
  fillStyle cache = Some (ColorUtils_toHex (ts_color style)) ∧
  font cache = Some (font_of style) ∧
  (∀ al, truthy (ts_textAlign style) = Some al → textAlign cache = Some al) ∧
  (∀ bl, truthy (ts_textBaseline style) = Some bl →
         textBaseline cache = Some bl).

(** *** Stable grouping

    The grouping as the specification words it: one group per key, the
    groups in the order in which their keys first appear, each holding
    the commands of its key in arrival order. *)

(** The first command of every key, in order of first appearance. *)
Fixpoint leaders (commands : list DrawCommand) : list DrawCommand :=
  match commands with
  | [] => []
  | c :: rest =>
      c :: filter (λ c', getGroupKey c' ≠ getGroupKey c) (leaders rest)
  end.

Definition members (key : string) (commands : list DrawCommand)
    : list DrawCommand :=
  filter (λ c, getGroupKey c = key) commands.

Definition group_of (commands : list DrawCommand) (leader : DrawCommand)
    : BatchGroup :=
  mkBatchGroup (cmd_type leader) (cmd_style leader)
    (members (getGroupKey leader) commands).

Definition stable_groups (commands : list DrawCommand) : list BatchGroup :=
  group_of commands <$> leaders commands.

(** The map of [groupCommands] sends a key to the position of its group. *)
Definition groupMap_ok (done : list DrawCommand) (groupMap : gmap string nat)
    : Prop :=
  ∀ k i, groupMap !! k = Some i ↔ (getGroupKey <$> leaders done) !! i = Some k.

(** The key under which the commands of a group were collected. *)
Definition group_key (group : BatchGroup) : string :=
  type_name (group_type group) +:+ "_" +:+ JSON_stringify (group_style group).

(** The keys that occur in a list of commands. *)
Definition keys_of (commands : list DrawCommand) : gset string :=
  list_to_set (getGroupKey <$> commands).

(** *** Batches of lines *)





(** *** Batches of circles *)

(** One [drawCircle] request: centre, radius, style. *)
Definition Circle : Type := FixedVector2 * Fixed * ShapeStyle.



Definition addCircles (circles : list Circle) (s : BatchManager * Env)
    : BatchManager * Env :=
  foldl (λ s c, addCircle c.1.1 c.1.2 c.2 s) s circles.


(** The immediate-draw callback on each circle in turn, with one style. *)
Definition draw_circles (bm : BatchManager) (style : ShapeStyle)
    (circles : list Circle) (e : Env) : Env :=
  foldl (λ e c, bm_drawCircleImmediate bm c.1.1 c.1.2 style e) e circles.

(** *** The life of a renderer *)

(** Calls, frame starts and frame ends, in any order. *)
Inductive Step :=
| StepCall (c : RendererCall)
| StepBeginFrame
| StepEndFrame.

Definition run_step (s : Step) (r : CanvasRenderer) : option CanvasRenderer :=
  match s with
  | StepCall c => Some (run_call c r)
  | StepBeginFrame => Some (onBeginFrame r)
  | StepEndFrame => onEndFrame r
  end.

Fixpoint run_steps (steps : list Step) (r : CanvasRenderer)
    : option CanvasRenderer :=
  match steps with
  | [] => Some r
  | s :: steps => r' ← run_step s r; run_steps steps r'
  end.

(** The renderer configured with [enableBatchRendering: flag]. *)
Definition set_enableBatchRendering (flag : bool) (r : CanvasRenderer)
    : CanvasRenderer :=
  let c := config r in
  mkCanvasRenderer (canvas r)
    (mkCanvasRendererConfig (cfg_pixelsPerUnit c) (cfg_enableHighDPI c)
       (cfg_enableStyleCaching c) flag (cfg_maxBatchSize c)
       (cfg_backgroundColor c) (cfg_enableAntialiasing c))
    (env r) (batchManager r) (transformStackDepth r) (canvasStats r)
    (console r) (base r).

(** The renderer with its console log dropped. *)
Definition forget_console (r : CanvasRenderer) : CanvasRenderer :=
  mkCanvasRenderer (canvas r) (config r) (env r) (batchManager r)
    (transformStackDepth r) (canvasStats r) [] (base r).

(** What a call adds to the draw-call counter. *)
Definition counted_draws (c : RendererCall) : Z :=
  match c with
  | CallDrawLine _ _ _ | CallDrawCircle _ _ _ | CallDrawRect _ _
  | CallDrawPolygon _ _ | CallDrawEllipse _ _ | CallDrawText _ _ _ => 1
  | CallDrawTexture (IsCanvasTexture _) _ _
  | CallDrawTextureRegion (IsCanvasTexture _) _ _ _ => 1
  | _ => 0
  end.

Definition total_counted_draws (calls : list RendererCall) : Z :=
  foldr (λ c n, counted_draws c + n) 0 calls.

(** The renderer's configuration with [enableBatchRendering: flag]. *)
Definition with_batching (flag : bool) (partial : PartialConfig)
    : PartialConfig :=
  mkPartialConfig (opt_pixelsPerUnit partial) (opt_enableHighDPI partial)
    (opt_enableStyleCaching partial) (Some flag) (opt_maxBatchSize partial)
    (opt_backgroundColor partial) (opt_enableAntialiasing partial).

(** The batch manager as the renderer's constructor leaves it: batching
    off, nothing buffered, nothing counted, and the immediate drawing
    methods of the renderer as callbacks. *)
Definition batch_idle (r : CanvasRenderer) : Prop :=
  batchingEnabled (batchManager r) = false ∧
  batchCommands (batchManager r) = [] ∧
  batchedDrawCallCount (batchManager r) = 0 ∧
  bm_drawLineImmediate (batchManager r) = drawLineImmediate ∧
  bm_drawCircleImmediate (batchManager r) = drawCircleImmediate ∧
  bm_drawRectImmediate (batchManager r) = drawRectImmediate ∧
  bm_drawPolygonImmediate (batchManager r) = drawPolygonImmediate ∧
  bm_drawTextImmediate (batchManager r) = drawTextImmediate.

(** What a call on the context adds to the depth of its state stack. *)
Definition save_delta (c : CtxCall) : Z :=
  match c with ctx_save => 1 | ctx_restore => -1 | _ => 0 end.

(** Saves minus restores in a context log. *)
Definition save_depth (log : list CtxCall) : Z :=
  foldr (λ c n, save_delta c + n) 0 log.

(** What a call adds to the transform-change and texture-bind counters,
    and the clip rectangles it applies. *)
Definition counted_transforms (c : RendererCall) : Z :=
  match c with CallApplyTransform _ => 1 | _ => 0 end.

Definition counted_textures (c : RendererCall) : Z :=
  match c with
  | CallDrawTexture (IsCanvasTexture _) _ _
  | CallDrawTextureRegion (IsCanvasTexture _) _ _ _ => 1
  | _ => 0
  end.

Definition counted_clips (c : RendererCall) : Z :=
  match c with
  | CallSetRenderState state =>
      match rs_clipRect state with Some _ => 1 | None => 0 end
  | _ => 0
  end.

Definition total (count : RendererCall → Z) (calls : list RendererCall) : Z :=
  foldr (λ c n, count c + n) 0 calls.

(** The batch manager of a renderer that never batches: the option is
    off, nothing is buffered, nothing was counted. *)
Definition never_batched (r : CanvasRenderer) : Prop :=
  cfg_enableBatchRendering (config r) = false ∧
  batchCommands (batchManager r) = [] ∧
  batchedDrawCallCount (batchManager r) = 0.

End Vocabulary.

(** * Properties

    ** The fixed-point interface *)

Section FixedLaws.
Context `{FP : FixedPoint}.

Lemma Qc_of_Z_SCALE_ne_0 : Qc_of_Z SCALE ≠ 0%Qc.
Proof.
  rewrite <- Z2Qc_inj_0. intros Heq%Z2Qc_inj. pose proof SCALE_pos. lia.
Qed.



Lemma Fixed_new_of_Z n : raw (Fixed_new (Qc_of_Z n)) = n * SCALE.
Proof.
  pose proof (new_round (Qc_of_Z n)) as Hr. simpl in Hr. lia.
Qed.

Lemma toNumber_of_Z n a : raw a = n * SCALE → Fixed_toNumber a = Qc_of_Z n.
Proof.
  intros Ha. rewrite toNumber_raw, Ha, Z2Qc_inj_mul.
  pose proof Qc_of_Z_SCALE_ne_0. field. done.
Qed.

Lemma multiply_ONE a : Fixed_multiply a Fixed_ONE = a.
Proof.
  apply raw_inj. pose proof (multiply_round a Fixed_ONE) as Hr.
  rewrite raw_ONE in Hr. pose proof SCALE_pos. nia.
Qed.

Lemma divide_exact a z c :
  raw z ≠ 0 → raw c * raw z = raw a * SCALE → Fixed_divide a z = Some c.
Proof.
  intros Hz Hc. destruct (divide_round a z Hz) as (c' & -> & Hr).
  f_equal. apply raw_inj. rewrite <- Hc in Hr. nia.
Qed.


Lemma js_div_mul (x y : number) : y ≠ 0%Qc → js_div (x * y)%Qc y = Some x.
Proof.
  intros Hy. unfold js_div. destruct (decide (y = 0%Qc)); [done|].
  f_equal. field. done.
Qed.





End FixedLaws.

(** ** Coordinate system *)

Section CoordinateTheorems.
Context `{FP : FixedPoint}.


Lemma FixedVector2_eq (p q : FixedVector2) :
  raw (v2_x p) = raw (v2_x q) → raw (v2_y p) = raw (v2_y q) → p = q.
Proof.
  destruct p, q; simpl. intros ->%raw_inj ->%raw_inj. done.
Qed.









Lemma worldToScreen_default (W H dpr : number) (m n : Z) :
  worldToScreen (CoordinateSystem_new (Qc_of_Z 100) (mkScreenSize W H) dpr)
    (mkFixedVector2 (Fixed_of_Z m) (Fixed_of_Z n))
  = mkScreenPoint (Qc_of_Z m * Qc_of_Z 100 + W / 2)%Qc
                  (H / 2 - Qc_of_Z n * Qc_of_Z 100)%Qc.
Proof.
  unfold worldToScreen, CoordinateSystem_new, Fixed_of_Z. simpl.
  rewrite !multiply_ONE.
  rewrite (toNumber_of_Z m), (toNumber_of_Z n); [done| |].
  - rewrite raw_subtract, Fixed_new_of_Z, raw_ZERO. lia.
  - rewrite raw_subtract, Fixed_new_of_Z, raw_ZERO. lia.
Qed.

(** C5.  With the camera of a fresh coordinate system (position zero, zoom
    one) and 100 pixels per unit on a canvas of width [W] and height [H],
    the world origin is at the centre [(W/2, H/2)], the point [(1, 0)] at
    [(W/2 + 100, H/2)] and the point [(0, 1)] at [(W/2, H/2 - 100)]: the
    Y axis points up. *)
Theorem worldToScreen_default_camera (W H dpr : number) :
  let cs := CoordinateSystem_new (Qc_of_Z 100) (mkScreenSize W H) dpr in
  worldToScreen cs (mkFixedVector2 (Fixed_of_Z 0) (Fixed_of_Z 0))
    = mkScreenPoint (W / 2)%Qc (H / 2)%Qc ∧
  worldToScreen cs (mkFixedVector2 (Fixed_of_Z 1) (Fixed_of_Z 0))
    = mkScreenPoint (W / 2 + Qc_of_Z 100)%Qc (H / 2)%Qc ∧
  worldToScreen cs (mkFixedVector2 (Fixed_of_Z 0) (Fixed_of_Z 1))
    = mkScreenPoint (W / 2)%Qc (H / 2 - Qc_of_Z 100)%Qc.
Proof.
  simpl. rewrite !worldToScreen_default, Z2Qc_inj_0, Z2Qc_inj_1.
  repeat split; f_equal; ring.
Qed.

End CoordinateTheorems.

(** ** Coordinate system: the camera, visibility and visible bounds *)

(** An order statement on numbers, as one on their rational values. *)
Ltac qc_to_q :=
  unfold Qcle, Qclt, Qcdiv, Qcminus, Qcplus, Qcmult, Qcopp, Qcinv, Q2Qc in *;
  cbn [this] in *; rewrite ?Qred_correct in *.

Lemma Qc_half_bounds (w : Qc) : (0 ≤ w → 0 ≤ w / 2 ∧ w / 2 ≤ w)%Qc.
Proof.
  intros Hw. qc_to_q.
  assert (H2 : (/ (1 + 1) == 1 # 2)%Q) by reflexivity. rewrite H2. split; lra.
Qed.





Section CameraTheorems.
Context `{FP : FixedPoint}.

Lemma multiply_zero_l a z : raw a = 0 → raw (Fixed_multiply a z) = 0.
Proof.
  intros Ha. pose proof (multiply_round a z) as Hr. rewrite Ha in Hr.
  pose proof SCALE_pos. nia.
Qed.

Lemma toNumber_zero a : raw a = 0 → Fixed_toNumber a = 0%Qc.
Proof.
  intros Ha. rewrite (toNumber_of_Z 0 a) by lia. apply Z2Qc_inj_0.
Qed.

Lemma toNumber_ONE : Fixed_toNumber Fixed_ONE = 1%Qc.
Proof.
  rewrite (toNumber_of_Z 1) by (rewrite raw_ONE; lia). apply Z2Qc_inj_1.
Qed.





Lemma add_ZERO a : Fixed_add a Fixed_ZERO = a.
Proof. apply raw_inj. rewrite raw_add, raw_ZERO. lia. Qed.



Lemma camera_at_canvas_centre cs :
  worldToScreen cs (cameraPosition cs)
  = mkScreenPoint (width (canvasSize cs) / 2)%Qc (height (canvasSize cs) / 2)%Qc.
Proof.
  unfold worldToScreen. cbn [v2_x v2_y FixedVector2_subtract].
  rewrite !toNumber_zero.
  - f_equal; ring.
  - apply multiply_zero_l. rewrite raw_subtract. lia.
  - apply multiply_zero_l. rewrite raw_subtract. lia.
Qed.

Lemma worldToScreenDistance_ZERO cs : worldToScreenDistance cs Fixed_ZERO = 0%Qc.
Proof.
  unfold worldToScreenDistance.
  rewrite (toNumber_zero Fixed_ZERO raw_ZERO). ring.
Qed.

(** X1.  Whatever the zoom and the pixels-per-unit scale, the camera
    position is drawn at the centre of the canvas; on a canvas whose
    width and height are not negative it is visible, with the default
    margin of zero. *)
Theorem camera_position_visible cs :
  (0 ≤ width (canvasSize cs))%Qc →
  (0 ≤ height (canvasSize cs))%Qc →
  worldToScreen cs (cameraPosition cs)
    = mkScreenPoint (width (canvasSize cs) / 2)%Qc
        (height (canvasSize cs) / 2)%Qc ∧
  isPointVisible cs (cameraPosition cs) Fixed_ZERO = true.
Proof.
  intros HW HH. split; [apply camera_at_canvas_centre|].
  unfold isPointVisible.
  rewrite camera_at_canvas_centre, worldToScreenDistance_ZERO. cbn [sp_x sp_y].
  destruct (Qc_half_bounds _ HW) as [HW0 HW1].
  destruct (Qc_half_bounds _ HH) as [HH0 HH1].
  rewrite !bool_decide_eq_true_2; [done|..]; qc_to_q; lra.
Qed.

Lemma divide_zero a z : raw a = 0 → raw z ≠ 0 → Fixed_divide a z = Some Fixed_ZERO.
Proof.
  intros Ha Hz. apply divide_exact; [done|]. rewrite raw_ZERO, Ha. lia.
Qed.

Lemma new_zero : Fixed_new 0%Qc = Fixed_ZERO.
Proof.
  apply raw_inj. rewrite raw_ZERO. pose proof (new_round 0%Qc) as Hr.
  simpl in Hr. lia.
Qed.

(** X2.  With a pixels-per-unit scale and a zoom that are not zero, the
    centre of the canvas converts to the camera position, exactly. *)
Theorem canvas_centre_is_camera cs :
  pixelsPerUnit cs ≠ 0%Qc →
  raw (cameraZoom cs) ≠ 0 →
  screenToWorld cs
    (mkScreenPoint (width (canvasSize cs) / 2)%Qc (height (canvasSize cs) / 2)%Qc)
  = Some (cameraPosition cs).
Proof.
  intros Hp Hz. unfold screenToWorld. cbn [sp_x sp_y].
  replace (width (canvasSize cs) / 2 - width (canvasSize cs) / 2)%Qc
    with (0 * pixelsPerUnit cs)%Qc by ring.
  replace (height (canvasSize cs) / 2 - height (canvasSize cs) / 2)%Qc
    with (0 * pixelsPerUnit cs)%Qc by ring.
  rewrite js_div_mul by done. cbn [mbind option_bind].
  rewrite new_zero, divide_zero by (done || apply raw_ZERO).
  cbn [mbind option_bind]. f_equal.
  apply FixedVector2_eq; cbn [v2_x v2_y FixedVector2_add];
    rewrite raw_add, raw_ZERO; lia.
Qed.

(** X3.  Moving the camera and a world point by the same vector leaves
    the screen position of the point unchanged: the conversion depends
    on the position relative to the camera only, and that difference is
    exact. *)
Theorem worldToScreen_camera_shift cs p d :
  worldToScreen (setCameraPosition (FixedVector2_add (cameraPosition cs) d) cs)
    (FixedVector2_add p d)
  = worldToScreen cs p.
Proof.
  unfold worldToScreen.
  cbn [setCameraPosition cameraPosition cameraZoom pixelsPerUnit canvasSize
       v2_x v2_y FixedVector2_subtract FixedVector2_add].
  replace (Fixed_subtract (Fixed_add (v2_x p) (v2_x d))
             (Fixed_add (v2_x (cameraPosition cs)) (v2_x d)))
    with (Fixed_subtract (v2_x p) (v2_x (cameraPosition cs)))
    by (apply raw_inj; rewrite !raw_subtract, !raw_add; lia).
  replace (Fixed_subtract (Fixed_add (v2_y p) (v2_y d))
             (Fixed_add (v2_y (cameraPosition cs)) (v2_y d)))
    with (Fixed_subtract (v2_y p) (v2_y (cameraPosition cs)))
    by (apply raw_inj; rewrite !raw_subtract, !raw_add; lia).
  done.
Qed.



(** X6.  A world rectangle of width and height zero is visible exactly
    when its corner is, for every camera and margin: [isRectVisible] and
    [isPointVisible] agree on points. *)
Theorem isRectVisible_point cs x y margin :
  isRectVisible cs (mkFixedRect x y Fixed_ZERO Fixed_ZERO) margin
  = isPointVisible cs (mkFixedVector2 x y) margin.
Proof.
  unfold isRectVisible, isPointVisible, worldToScreenRect.
  cbn [rect_x rect_y rect_width rect_height sr_x sr_y sr_width sr_height].
  rewrite !add_ZERO.
  set (p := worldToScreen cs (mkFixedVector2 x y)).
  replace (sp_x p + (sp_x p - sp_x p))%Qc with (sp_x p) by ring.
  replace (sp_y p + (sp_y p - sp_y p))%Qc with (sp_y p) by ring.
  done.
Qed.


End CameraTheorems.

(** ** Style manager *)

Section StyleTheorems.
Context `{FP : FixedPoint, HH : !Host}.

Lemma differs_same {A} `{EqDecision A} (v : A) : differs (Some v) v = false.
Proof. simpl. by rewrite bool_decide_eq_true_2. Qed.

Lemma cached_write_miss {A} `{EqDecision A} get set write (v : A) e :
  negb (enableCaching (styleManager e))
    || differs (get (currentStyle (styleManager e))) v = true →
  cached_write get set write v e
  = mkEnv (ctx e ++ [write v])
      (mkStyleManager (set v (currentStyle (styleManager e)))
         (styleChangeCount (styleManager e) + 1)
         (enableCaching (styleManager e)))
      (coordinateSystem e).
Proof. intros Hm. unfold cached_write. by rewrite Hm. Qed.

Lemma cached_write_hit {A} `{EqDecision A} get set write (v : A) e :
  enableCaching (styleManager e) = true →
  get (currentStyle (styleManager e)) = Some v →
  cached_write get set write v e = e.
Proof.
  intros Hc Hg. unfold cached_write. by rewrite Hc, Hg, differs_same.
Qed.

Lemma cached_write_enableCaching {A} `{EqDecision A} get set write (v : A) e :
  enableCaching (styleManager (cached_write get set write v e))
  = enableCaching (styleManager e).
Proof. unfold cached_write. by case_match. Qed.

Lemma cached_write_count_bounds {A} `{EqDecision A} get set write (v : A) e :
  styleChangeCount (styleManager e)
    ≤ styleChangeCount (styleManager (cached_write get set write v e))
    ≤ styleChangeCount (styleManager e) + 1.
Proof. unfold cached_write. case_match; simpl; lia. Qed.

Lemma applyDashPattern_styleManager d e :
  styleManager (applyDashPattern d e) = styleManager e.
Proof. unfold applyDashPattern. by repeat case_match. Qed.

(** With caching on, a second [applyLineStyle] of the same style right
    after the first finds both attributes cached. *)
Lemma applyLineStyle_again style e :
  enableCaching (styleManager e) = true →
  styleChangeCount (styleManager (applyLineStyle style (applyLineStyle style e)))
  = styleChangeCount (styleManager (applyLineStyle style e)).
Proof.
  intros Hc. unfold applyLineStyle at 1.
  set (e1 := applyLineStyle style e).
  assert (He1 : enableCaching (styleManager e1) = true
                ∧ strokeStyle (currentStyle (styleManager e1))
                  = Some (ColorUtils_toHex (ls_color style))
                ∧ lineWidth (currentStyle (styleManager e1))
                  = Some (Fixed_toNumber (ls_thickness style))).
  { subst e1. unfold applyLineStyle. rewrite applyDashPattern_styleManager.
    unfold setLineWidth, setStrokeStyle, cached_write. rewrite Hc. simpl.
    repeat (case_match; simpl in *; try rewrite Hc in *; simpl in *);
      repeat split; try done;
      repeat match goal with
      | Hd : differs ?c ?v = false |- _ =>
          destruct c eqn:?; simpl in Hd; [|done];
          apply negb_false_iff, bool_decide_eq_true_1 in Hd; subst
      end; congruence. }
  destruct He1 as (Hc1 & Hs & Hw).
  rewrite applyDashPattern_styleManager.
  unfold setStrokeStyle, setLineWidth.
  rewrite (cached_write_hit strokeStyle) by done.
  by rewrite (cached_write_hit lineWidth) by done.
Qed.

Lemma applyLineStyle_fresh style log n caching cs :
  styleChangeCount
    (styleManager
       (applyLineStyle style
          (mkEnv log (mkStyleManager empty_StyleCacheEntry n caching) cs)))
  = n + 2.
Proof.
  unfold applyLineStyle. rewrite applyDashPattern_styleManager.
  unfold setLineWidth, setStrokeStyle, cached_write.
  destruct caching; simpl; lia.
Qed.

Lemma applyLineStyle_uncached style log n cache cs :
  applyLineStyle style (mkEnv log (mkStyleManager cache n false) cs)
  = applyDashPattern (ls_dashPattern style)
      (mkEnv (log ++ [ctx_set_strokeStyle (ColorUtils_toHex (ls_color style));
                      ctx_set_lineWidth (Fixed_toNumber (ls_thickness style))])
         (mkStyleManager
            (cache_set_lineWidth (Fixed_toNumber (ls_thickness style))
               (cache_set_strokeStyle (ColorUtils_toHex (ls_color style)) cache))
            (n + 2) false) cs).
Proof.
  unfold applyLineStyle, setLineWidth, setStrokeStyle, cached_write, call.
  simpl. rewrite <- app_assoc. simpl. unfold set_styleManager. simpl.
  replace (n + 1 + 1) with (n + 2) by lia. done.
Qed.

Lemma applyDashPattern_mkEnv d log sm cs :
  ∃ c, applyDashPattern d (mkEnv log sm cs) = mkEnv (log ++ [c]) sm cs.
Proof.
  unfold applyDashPattern, call. destruct d as [[|]|]; simpl; eauto.
Qed.

Lemma applyLineStyle_count_bounds style e :
  styleChangeCount (styleManager e)
    ≤ styleChangeCount (styleManager (applyLineStyle style e))
    ≤ styleChangeCount (styleManager e) + 2.
Proof.
  unfold applyLineStyle. rewrite applyDashPattern_styleManager.
  unfold setLineWidth, setStrokeStyle.
  pose proof (cached_write_count_bounds strokeStyle cache_set_strokeStyle
                ctx_set_strokeStyle (ColorUtils_toHex (ls_color style)) e).
  pose proof (cached_write_count_bounds lineWidth cache_set_lineWidth
                ctx_set_lineWidth (Fixed_toNumber (ls_thickness style))
                (cached_write strokeStyle cache_set_strokeStyle
                   ctx_set_strokeStyle (ColorUtils_toHex (ls_color style)) e)).
  lia.
Qed.

(** C3, as the code has it.  Applying the same line style twice in a row:
    with caching on and nothing cached, the first call writes the stroke
    paint and the line width and counts 2, the second writes nothing, so
    the two calls count 2; whatever is cached, the second call counts
    nothing and the first between 0 and 2; with caching off every call
    counts 2, so the two calls count 4. *)
Theorem applyLineStyle_twice_counts (style : LineStyle) (log : list CtxCall)
    (cache : StyleCacheEntry) (n : Z) (cs : CoordinateSystem) :
  let count e := styleChangeCount (styleManager e) in
  let fresh_on := mkEnv log (mkStyleManager empty_StyleCacheEntry n true) cs in
  let on := mkEnv log (mkStyleManager cache n true) cs in
  let off := mkEnv log (mkStyleManager cache n false) cs in
  count (applyLineStyle style fresh_on) = n + 2 ∧
  count (applyLineStyle style (applyLineStyle style fresh_on)) = n + 2 ∧
  n ≤ count (applyLineStyle style on) ≤ n + 2 ∧
  count (applyLineStyle style (applyLineStyle style on))
    = count (applyLineStyle style on) ∧
  count (applyLineStyle style off) = n + 2 ∧
  count (applyLineStyle style (applyLineStyle style off)) = n + 4.
Proof.
  simpl.
  pose proof (applyLineStyle_count_bounds style
                (mkEnv log (mkStyleManager cache n true) cs)) as Hb.
  simpl in Hb. split_and!; try lia.
  - apply applyLineStyle_fresh.
  - rewrite applyLineStyle_again by done. apply applyLineStyle_fresh.
  - by apply applyLineStyle_again.
  - rewrite applyLineStyle_uncached. by rewrite applyDashPattern_styleManager.
  - rewrite applyLineStyle_uncached.
    destruct (applyDashPattern_mkEnv (ls_dashPattern style)
                (log ++ [ctx_set_strokeStyle (ColorUtils_toHex (ls_color style));
                         ctx_set_lineWidth (Fixed_toNumber (ls_thickness style))])
                (mkStyleManager
                   (cache_set_lineWidth (Fixed_toNumber (ls_thickness style))
                      (cache_set_strokeStyle (ColorUtils_toHex (ls_color style)) cache))
                   (n + 2) false) cs) as (c & ->).
    rewrite applyLineStyle_uncached, applyDashPattern_styleManager. simpl. lia.
Qed.

End StyleTheorems.

Section CacheTheorems.
Context `{FP : FixedPoint, HH : !Host}.

Lemma cached_write_writes {A} `{EqDecision A} get set write (v : A) e :
  get (currentStyle (styleManager e)) = None →
  writes (cached_write get set write v) (write v) e.
Proof.
  intros Hg. unfold writes. rewrite cached_write_miss.
  - done.
  - rewrite Hg. simpl. apply orb_true_r.
Qed.

Lemma empty_cache_all_setters_write e :
  currentStyle (styleManager e) = empty_StyleCacheEntry → all_setters_write e.
Proof.
  intros He. unfold all_setters_write.
  split_and!; intros v; apply cached_write_writes; by rewrite He.
Qed.

(** C7.  [restoreState] restores the context and leaves the cache empty,
    [resetCache] empties the cache and does not touch the context; after
    either, every attribute setter, for every value, writes the context
    property and counts one style change, also for the value that was
    set just before. *)
Theorem restoreState_resetCache_empty_cache (e : Env) :
  (currentStyle (styleManager (restoreState e)) = empty_StyleCacheEntry ∧
   ctx (restoreState e) = ctx e ++ [ctx_restore] ∧
   all_setters_write (restoreState e)) ∧
  (currentStyle (styleManager (resetCache e)) = empty_StyleCacheEntry ∧
   ctx (resetCache e) = ctx e ∧
   all_setters_write (resetCache e)) ∧
  (∀ v, writes (setStrokeStyle v) (ctx_set_strokeStyle v)
          (restoreState (setStrokeStyle v e))) ∧
  (∀ v, writes (setLineWidth v) (ctx_set_lineWidth v)
          (restoreState (setLineWidth v e))).
Proof.
  split_and!; try done.
  - by apply empty_cache_all_setters_write.
  - by apply empty_cache_all_setters_write.
  - intros v. by apply (empty_cache_all_setters_write (restoreState _)).
  - intros v. by apply (empty_cache_all_setters_write (restoreState _)).
Qed.

End CacheTheorems.

(** ** Style manager: the counter, the cache and what bypasses it *)

Section StyleMore.
Context `{FP : FixedPoint, HH : !Host}.

Lemma style_writes_snoc log c :
  style_writes (log ++ [c]) = style_writes log + (if is_style_write c then 1 else 0).
Proof.
  unfold style_writes. induction log as [|x log IH]; simpl; [lia|].
  rewrite IH. lia.
Qed.

Lemma counts_writes_cached_write {A} `{EqDecision A} get set write (v : A) :
  is_style_write (write v) = true →
  counts_writes (cached_write get set write v).
Proof.
  intros Hw e. unfold cached_write. case_match; [|done].
  cbn [styleManager ctx set_styleManager call styleChangeCount].
  rewrite style_writes_snoc, Hw. lia.
Qed.

Lemma counts_writes_call c :
  is_style_write c = false → counts_writes (call c).
Proof.
  intros Hc e. cbn [call ctx styleManager]. rewrite style_writes_snoc, Hc. lia.
Qed.

Lemma counts_writes_compose f g :
  counts_writes f → counts_writes g → counts_writes (λ e, g (f e)).
Proof. intros Hf Hg e. by rewrite Hg, Hf. Qed.

Lemma counts_writes_id : counts_writes (λ e, e).
Proof. done. Qed.

Lemma counts_writes_applyDashPattern d : counts_writes (applyDashPattern d).
Proof.
  intros e. unfold applyDashPattern.
  repeat case_match; by apply counts_writes_call.
Qed.

Lemma counts_writes_applyLineStyle s : counts_writes (applyLineStyle s).
Proof.
  intros e. unfold applyLineStyle.
  rewrite counts_writes_applyDashPattern.
  unfold setLineWidth, setStrokeStyle.
  by rewrite !counts_writes_cached_write.
Qed.

Lemma counts_writes_applyShapeStyle s : counts_writes (applyShapeStyle s).
Proof.
  intros e. unfold applyShapeStyle, setFillStyle, setStrokeStyle, setLineWidth.
  repeat case_match;
    rewrite ?counts_writes_applyDashPattern, ?counts_writes_cached_write; done.
Qed.

Lemma counts_writes_applyTextStyle s : counts_writes (applyTextStyle s).
Proof.
  intros e. unfold applyTextStyle, setFillStyle, setFont, setTextAlign, setTextBaseline.
  repeat case_match; rewrite ?counts_writes_cached_write; done.
Qed.

(** X8.  The style-change counter counts exactly the attribute writes:
    each of [applyLineStyle], [applyShapeStyle], [applyTextStyle],
    [applyBlendMode], [applyOpacity], [saveState], [restoreState] and
    [resetCache], whatever the cache holds and whether caching is on or
    off, raises the counter by the number of writes of cached attributes
    that it makes on the context ([setLineDash], [save] and [restore]
    are not counted); so does every sequence of them. *)
Theorem styleChangeCount_counts_writes :
  (∀ style, counts_writes (applyLineStyle style)) ∧
  (∀ style, counts_writes (applyShapeStyle style)) ∧
  (∀ style, counts_writes (applyTextStyle style)) ∧
  (∀ blendMode, counts_writes (applyBlendMode blendMode)) ∧
  (∀ opacity, counts_writes (applyOpacity opacity)) ∧
  counts_writes saveState ∧ counts_writes restoreState ∧
  counts_writes resetCache ∧
  (∀ fs : list (Env → Env),
     Forall counts_writes fs → counts_writes (λ e, foldl (λ e f, f e) e fs)).
Proof.
  split_and!.
  - apply counts_writes_applyLineStyle.
  - apply counts_writes_applyShapeStyle.
  - apply counts_writes_applyTextStyle.
  - intros m. by apply counts_writes_cached_write.
  - intros o. by apply counts_writes_cached_write.
  - by apply counts_writes_call.
  - intros e. unfold restoreState.
    cbn [styleManager ctx set_styleManager call styleChangeCount].
    rewrite style_writes_snoc. simpl. lia.
  - done.
  - intros fs Hfs. induction Hfs as [|f fs Hf Hfs IH]; [done|].
    intros e. simpl. by rewrite (IH (f e)), Hf.
Qed.

(** After a cached write with caching on, the cache holds the value. *)
Lemma cached_write_holds {A} `{EqDecision A} get set write (v : A) e :
  (∀ v c, get (set v c) = Some v) →
  enableCaching (styleManager e) = true →
  get (currentStyle (styleManager (cached_write get set write v e))) = Some v.
Proof.
  intros Hgs Hc. unfold cached_write. rewrite Hc. simpl.
  destruct (get (currentStyle (styleManager e))) as [c|] eqn:Hg; simpl.
  - case_bool_decide; simpl; [congruence|]. apply Hgs.
  - apply Hgs.
Qed.

(** A cached write leaves the other attributes of the cache alone. *)
Lemma cached_write_frame {A B} `{EqDecision A} get set write (v : A) e
    (get' : StyleCacheEntry → option B) :
  (∀ v c, get' (set v c) = get' c) →
  get' (currentStyle (styleManager (cached_write get set write v e)))
  = get' (currentStyle (styleManager e)).
Proof. intros Hgs. unfold cached_write. case_match; [apply Hgs|done]. Qed.

Lemma applyTextStyle_hit style e :
  enableCaching (styleManager e) = true →
  text_style_cached style e →
  applyTextStyle style e = e.
Proof.
  intros Hc (Hfill & Hfont & Halign & Hbase).
  unfold applyTextStyle, setFillStyle, setFont, setTextAlign, setTextBaseline.
  rewrite (cached_write_hit fillStyle) by done.
  fold (font_of style).
  rewrite (cached_write_hit font) by done.
  destruct (truthy (ts_textAlign style)) as [al|].
  - rewrite (cached_write_hit textAlign) by auto.
    destruct (truthy (ts_textBaseline style)) as [bl|]; [|done].
    by rewrite (cached_write_hit textBaseline) by auto.
  - destruct (truthy (ts_textBaseline style)) as [bl|]; [|done].
    by rewrite (cached_write_hit textBaseline) by auto.
Qed.

Lemma applyTextStyle_cached style e :
  enableCaching (styleManager e) = true →
  enableCaching (styleManager (applyTextStyle style e)) = true ∧
  text_style_cached style (applyTextStyle style e).
Proof.
  intros Hc.
  unfold applyTextStyle, setFillStyle, setFont, setTextAlign, setTextBaseline.
  fold (font_of style).
  set (e1 := cached_write fillStyle _ _ _ e).
  set (e2 := cached_write font _ _ _ e1).
  assert (Hc1 : enableCaching (styleManager e1) = true)
    by (subst e1; by rewrite cached_write_enableCaching).
  assert (Hc2 : enableCaching (styleManager e2) = true)
    by (subst e2; by rewrite cached_write_enableCaching).
  assert (H1 : fillStyle (currentStyle (styleManager e2))
               = Some (ColorUtils_toHex (ts_color style))).
  { subst e2. rewrite (cached_write_frame font) by done.
    subst e1. by apply cached_write_holds. }
  assert (H2 : font (currentStyle (styleManager e2)) = Some (font_of style)).
  { subst e2. by apply cached_write_holds. }
  unfold text_style_cached. cbn zeta.
  destruct (truthy (ts_textAlign style)) as [al|];
    destruct (truthy (ts_textBaseline style)) as [bl|];
    rewrite ?cached_write_enableCaching; (split; [done|]);
    split_and!;
    rewrite ?(cached_write_frame textBaseline _ _ _ _ fillStyle),
      ?(cached_write_frame textAlign _ _ _ _ fillStyle),
      ?(cached_write_frame textBaseline _ _ _ _ font),
      ?(cached_write_frame textAlign _ _ _ _ font) by done; try done.
  - intros ? [= <-]. rewrite (cached_write_frame textBaseline) by done.
    by apply cached_write_holds.
  - intros ? [= <-]. apply cached_write_holds; [done|].
    by rewrite cached_write_enableCaching.
  - intros ? [= <-]. by apply cached_write_holds.
  - intros ? [= <-]. by apply cached_write_holds.
Qed.

(** X9.  With caching on, [applyTextStyle] is idempotent: a second
    application of the same text style right after the first writes
    nothing on the context and counts nothing. *)
Theorem applyTextStyle_idempotent style e :
  enableCaching (styleManager e) = true →
  applyTextStyle style (applyTextStyle style e) = applyTextStyle style e.
Proof.
  intros Hc. destruct (applyTextStyle_cached style e Hc) as [Hc' Hcached].
  by apply applyTextStyle_hit.
Qed.

Lemma cached_write_coordinateSystem {A} `{EqDecision A} get set write (v : A) e :
  coordinateSystem (cached_write get set write v e) = coordinateSystem e.
Proof. unfold cached_write. by case_match. Qed.

Lemma applyTextStyle_coordinateSystem style e :
  coordinateSystem (applyTextStyle style e) = coordinateSystem e.
Proof.
  unfold applyTextStyle, setFillStyle, setFont, setTextAlign, setTextBaseline.
  repeat case_match; by rewrite ?cached_write_coordinateSystem.
Qed.

(** X10.  [drawTextImmediate] brackets its work with [ctx.save] and
    [ctx.restore] directly, not with [saveState] and [restoreState]: the
    last call on the context is the restore, yet the cache still holds
    the fill paint, the font and the alignment of the text style.  So,
    with caching on, a [setFillStyle] of the text colour right after
    writes nothing, and a second text in the same style is drawn with no
    attribute write at all: only [save], [scale], [fillText] and
    [restore] reach the context. *)
Theorem drawTextImmediate_again text1 p1 text2 p2 style e :
  enableCaching (styleManager e) = true →
  let e1 := drawTextImmediate text1 p1 style e in
  let screenPos := worldToScreen (coordinateSystem e) p2 in
  last (ctx e1) = Some ctx_restore ∧
  text_style_cached style e1 ∧
  setFillStyle (ColorUtils_toHex (ts_color style)) e1 = e1 ∧
  drawTextImmediate text2 p2 style e1
  = mkEnv (ctx e1 ++ [ctx_save; ctx_scale 1%Qc (-1)%Qc;
                      ctx_fillText text2 (sp_x screenPos) (- sp_y screenPos)%Qc;
                      ctx_restore])
      (styleManager e1) (coordinateSystem e1).
Proof.
  intros Hc e1 screenPos.
  set (e0 := call (ctx_scale 1%Qc (-1)%Qc) (call ctx_save e)).
  destruct (applyTextStyle_cached style e0 Hc) as [Hc' Hcached].
  assert (Hsm : styleManager e1 = styleManager (applyTextStyle style e0)) by done.
  assert (Hcs : coordinateSystem e1 = coordinateSystem e).
  { subst e1. unfold drawTextImmediate. cbn [call coordinateSystem].
    by rewrite applyTextStyle_coordinateSystem. }
  assert (Hcached1 : text_style_cached style e1).
  { unfold text_style_cached. by rewrite Hsm. }
  split_and!.
  - subst e1. unfold drawTextImmediate. cbn [call ctx]. by rewrite last_snoc.
  - done.
  - apply cached_write_hit; [by rewrite Hsm|]. by destruct Hcached1.
  - unfold drawTextImmediate at 1.
    rewrite (applyTextStyle_hit style (call _ (call ctx_save e1))).
    + unfold call. cbn [ctx styleManager coordinateSystem].
      rewrite <- !app_assoc, Hcs. done.
    + cbn [call styleManager]. by rewrite Hsm.
    + done.
Qed.

(** X11.  A shape style with neither a fill colour nor a stroke colour
    paints nothing, also when it carries a stroke thickness or a dash
    pattern: [applyShapeStyle] does nothing, and [drawCircleImmediate]
    and [drawRectImmediate] only build the path ([beginPath] and [arc]
    or [rect]), with no fill, no stroke and no attribute write. *)
Theorem shape_without_colours style e :
  ss_fillColor style = None →
  ss_strokeColor style = None →
  applyShapeStyle style e = e ∧
  fillAndStroke style e = e ∧
  (∀ center radius,
     drawCircleImmediate center radius style e
     = call (ctx_arc (sp_x (worldToScreen (coordinateSystem e) center))
               (sp_y (worldToScreen (coordinateSystem e) center))
               (worldToScreenDistance (coordinateSystem e) radius)
               0%Qc (2 * Math_PI)%Qc)
         (call ctx_beginPath e)) ∧
  (∀ bounds,
     drawRectImmediate bounds style e
     = call (ctx_rect (sr_x (worldToScreenRect (coordinateSystem e) bounds))
               (sr_y (worldToScreenRect (coordinateSystem e) bounds))
               (sr_width (worldToScreenRect (coordinateSystem e) bounds))
               (sr_height (worldToScreenRect (coordinateSystem e) bounds)))
         (call ctx_beginPath e)).
Proof.
  intros Hf Hs. split_and!.
  - unfold applyShapeStyle. by rewrite Hf, Hs.
  - unfold fillAndStroke. by rewrite Hf, Hs.
  - intros. unfold drawCircleImmediate, fillAndStroke. by rewrite Hf, Hs.
  - intros. unfold drawRectImmediate, fillAndStroke. by rewrite Hf, Hs.
Qed.

End StyleMore.

(** ** Batch manager *)

Section GroupingSpec.
Context `{FP : FixedPoint, HH : !Host}.

Lemma leaders_keys cmds k :
  k ∈ getGroupKey <$> leaders cmds ↔ k ∈ getGroupKey <$> cmds.
Proof.
  induction cmds as [|c cmds IH]; [done|]. simpl.
  rewrite !elem_of_cons, <- IH. split.
  - intros [->|Hk]; [by left|]. right.
    apply list_elem_of_fmap in Hk as (c' & -> & Hc').
    apply list_elem_of_filter in Hc' as [_ Hc'].
    apply list_elem_of_fmap. eauto.
  - intros [->|Hk]; [by left|].
    destruct (decide (k = getGroupKey c)) as [->|Hne]; [by left|]. right.
    apply list_elem_of_fmap in Hk as (c' & -> & Hc').
    apply list_elem_of_fmap. exists c'. split; [done|].
    apply list_elem_of_filter. done.
Qed.

Lemma filter_keys_NoDup (P : DrawCommand → Prop) `{∀ c, Decision (P c)} l :
  NoDup (getGroupKey <$> l) → NoDup (getGroupKey <$> filter P l).
Proof.
  induction l as [|c l IH]; [done|]. simpl. intros [Hc Hl]%NoDup_cons.
  rewrite filter_cons. case_decide; [|by auto].
  simpl. apply NoDup_cons. split; [|by auto].
  intros Hin. apply Hc.
  apply list_elem_of_fmap in Hin as (c' & -> & Hc').
  apply list_elem_of_filter in Hc' as [_ Hc'].
  apply list_elem_of_fmap. eauto.
Qed.

Lemma leaders_NoDup cmds : NoDup (getGroupKey <$> leaders cmds).
Proof.
  induction cmds as [|c cmds IH]; simpl; [constructor|].
  apply NoDup_cons. split; [|by apply filter_keys_NoDup].
  intros Hin. apply list_elem_of_fmap in Hin as (c' & Hk & Hc').
  apply list_elem_of_filter in Hc' as [Hne _]. done.
Qed.

Lemma leaders_snoc cmds c :
  leaders (cmds ++ [c])
  = if decide (getGroupKey c ∈ getGroupKey <$> cmds)
    then leaders cmds else leaders cmds ++ [c].
Proof.
  induction cmds as [|x cmds IH]; simpl.
  - done.
  - rewrite IH. destruct (decide (getGroupKey c ∈ getGroupKey <$> cmds)) as [Hin|Hnin].
    + rewrite decide_True; [done|]. by right.
    + rewrite filter_app.
      destruct (decide (getGroupKey c = getGroupKey x)) as [Heq|Hne].
      * rewrite decide_True by (rewrite Heq; left).
        rewrite (filter_cons_False _ c) by (intros Hn; by apply Hn).
        by rewrite filter_nil, app_nil_r.
      * rewrite decide_False by (by intros [?|?]%elem_of_cons).
        by rewrite (filter_cons_True _ c).
Qed.

Lemma members_snoc k cmds c :
  members k (cmds ++ [c])
  = if decide (getGroupKey c = k) then members k cmds ++ [c] else members k cmds.
Proof.
  unfold members. rewrite filter_app, filter_cons, filter_nil.
  case_decide; [done|]. by rewrite app_nil_r.
Qed.

Lemma members_none k cmds :
  k ∉ getGroupKey <$> cmds → members k cmds = [].
Proof.
  intros Hk. unfold members. induction cmds as [|c cmds IH]; [done|].
  rewrite fmap_cons, not_elem_of_cons in Hk. destruct Hk as [Hne Hk].
  rewrite filter_cons_False by done. by apply IH.
Qed.

Lemma stable_groups_old done c i :
  (getGroupKey <$> leaders done) !! i = Some (getGroupKey c) →
  stable_groups (done ++ [c]) = alter (group_push c) i (stable_groups done).
Proof.
  intros Hi. unfold stable_groups.
  rewrite leaders_snoc, decide_True.
  2:{ apply leaders_keys. by eapply list_elem_of_lookup_2. }
  apply list_eq. intros j.
  destruct (decide (i = j)) as [<-|Hij].
  - rewrite list_lookup_alter_eq, !list_lookup_fmap.
    rewrite list_lookup_fmap in Hi.
    destruct (leaders done !! i) as [l|]; [|done]. simpl in *.
    f_equal. unfold group_of, group_push. simpl.
    injection Hi as Hi. by rewrite members_snoc, decide_True.
  - rewrite list_lookup_alter_ne, !list_lookup_fmap by done.
    destruct (leaders done !! j) as [l|] eqn:Hl; [|done]. simpl.
    f_equal. unfold group_of. f_equal.
    rewrite members_snoc, decide_False; [done|].
    intros Heq. apply Hij.
    eapply NoDup_lookup; [apply leaders_NoDup|done|].
    by rewrite list_lookup_fmap, Hl, Heq.
Qed.

Lemma stable_groups_new done c :
  getGroupKey c ∉ getGroupKey <$> leaders done →
  stable_groups (done ++ [c])
  = stable_groups done
      ++ [group_push c (mkBatchGroup (cmd_type c) (cmd_style c) [])].
Proof.
  intros Hc. unfold stable_groups.
  rewrite leaders_snoc.
  rewrite decide_False; [|by rewrite <- leaders_keys].
  rewrite fmap_app. f_equal.
  - apply list_fmap_ext. intros j l Hl.
    unfold group_of. f_equal. rewrite members_snoc, decide_False; [done|].
    intros Heq. apply Hc. rewrite Heq. apply list_elem_of_fmap.
    exists l. split; [done|]. by eapply list_elem_of_lookup_2.
  - simpl. unfold group_of, group_push. simpl. do 2 f_equal.
    rewrite members_snoc, decide_True by done.
    rewrite members_none; [done|]. by rewrite <- leaders_keys.
Qed.

Lemma groupMap_ok_new done c groupMap :
  groupMap_ok done groupMap →
  groupMap !! getGroupKey c = None →
  (getGroupKey c ∉ getGroupKey <$> leaders done) ∧
  groupMap_ok (done ++ [c])
    (<[getGroupKey c := length (stable_groups done)]> groupMap).
Proof.
  intros Hok Hnone.
  assert (Hc : getGroupKey c ∉ getGroupKey <$> leaders done).
  { intros (i & Hi)%list_elem_of_lookup_1. apply Hok in Hi. congruence. }
  split; [done|]. intros k i.
  rewrite leaders_snoc.
  rewrite decide_False; [|by rewrite <- leaders_keys].
  rewrite fmap_app. simpl.
  unfold stable_groups. rewrite length_fmap.
  replace (length (leaders done)) with (length (getGroupKey <$> leaders done))
    by apply length_fmap.
  rewrite lookup_snoc_Some.
  destruct (decide (getGroupKey c = k)) as [<-|Hne].
  - rewrite lookup_insert_eq. split.
    + intros [= <-]. by right.
    + intros [[_ Hi]|[-> _]]; [|done].
      exfalso. apply Hc. by eapply list_elem_of_lookup_2.
  - rewrite lookup_insert_ne by done. rewrite (Hok k i). split.
    + intros Hi. left. split; [|done]. by eapply lookup_lt_Some.
    + intros [[_ Hi]|[_ Heq]]; [done|]. by destruct Hne.
Qed.

Lemma groupCommands_loop_stable rest done groupMap :
  groupMap_ok done groupMap →
  groupCommands_loop rest (stable_groups done) groupMap
  = stable_groups (done ++ rest).
Proof.
  revert done groupMap.
  induction rest as [|c rest IH]; intros done groupMap Hok; simpl.
  - by rewrite app_nil_r.
  - destruct (groupMap !! getGroupKey c) as [i|] eqn:Hkey.
    + apply Hok in Hkey.
      rewrite <- (stable_groups_old done c i Hkey).
      rewrite IH, <- app_assoc; [done|].
      intros k j. rewrite leaders_snoc, decide_True; [apply Hok|].
      apply leaders_keys. by eapply list_elem_of_lookup_2.
    + destruct (groupMap_ok_new done c groupMap Hok Hkey) as [Hc Hok'].
      rewrite <- (stable_groups_new done c Hc).
      by rewrite IH, <- app_assoc.
Qed.

(** [groupCommands] is the stable grouping by key. *)
Lemma groupCommands_stable commands :
  groupCommands commands = stable_groups commands.
Proof.
  unfold groupCommands.
  change (@nil BatchGroup) with (stable_groups []).
  rewrite groupCommands_loop_stable; [done|].
  intros k i. by rewrite lookup_empty.
Qed.

End GroupingSpec.

Section BatchTheorems.
Context `{FP : FixedPoint, HH : !Host}.

Lemma leaders_subseteq cmds l : l ∈ leaders cmds → l ∈ cmds.
Proof.
  induction cmds as [|c cmds IH]; simpl; [done|].
  intros [->|Hl]%elem_of_cons; [by left|]. right.
  apply IH. by apply list_elem_of_filter in Hl as [_ Hl].
Qed.









Lemma draw_circles_callback bm bm' style circles e :
  bm_drawCircleImmediate bm' = bm_drawCircleImmediate bm →
  draw_circles bm' style circles e = draw_circles bm style circles e.
Proof. intros Heq. unfold draw_circles. by rewrite Heq. Qed.




(** C9.  When the buffer is empty, whether batching is on or off,
    [flushBatch] changes nothing: the batch manager (buffer, flag,
    batched-draw-call counter), the context log, the style manager with
    its style-change counter and the coordinate system are all as
    before. *)
Theorem flushBatch_empty_noop (bm : BatchManager) (e : Env) :
  batchCommands bm = [] →
  flushBatch (bm, e) = (bm, e) ∧
  ctx (flushBatch (bm, e)).2 = ctx e ∧
  styleChangeCount (styleManager (flushBatch (bm, e)).2)
    = styleChangeCount (styleManager e) ∧
  batchedDrawCallCount (flushBatch (bm, e)).1 = batchedDrawCallCount bm ∧
  batchingEnabled (flushBatch (bm, e)).1 = batchingEnabled bm ∧
  batchCommands (flushBatch (bm, e)).1 = [].
Proof.
  intros Hb. assert (Hf : flushBatch (bm, e) = (bm, e)).
  { unfold flushBatch. simpl. by rewrite Hb. }
  by rewrite Hf.
Qed.

(** C10.  After [beginBatch] the buffer is empty, batching is on and the
    batched-draw-call counter is 0; the call draws nothing, and commands
    that were still buffered are dropped unexecuted: the state after the
    call is the one it would be had the buffer been empty, and an
    [endBatch] right after it draws and counts nothing. *)
Theorem beginBatch_resets (bm : BatchManager) (e : Env) :
  batchCommands (beginBatch (bm, e)).1 = [] ∧
  batchingEnabled (beginBatch (bm, e)).1 = true ∧
  batchedDrawCallCount (beginBatch (bm, e)).1 = 0 ∧
  (beginBatch (bm, e)).2 = e ∧
  beginBatch (bm, e) = beginBatch (set_batchCommands [] bm, e) ∧
  (endBatch (beginBatch (bm, e))).2 = e ∧
  batchedDrawCallCount (endBatch (beginBatch (bm, e))).1 = 0.
Proof. split_and!; reflexivity. Qed.

Lemma add_immediate bm e :
  batchingEnabled bm = false →
  (∀ start end_ style,
     addLine start end_ style (bm, e)
     = (bm, bm_drawLineImmediate bm start end_ style e)) ∧
  (∀ center radius style,
     addCircle center radius style (bm, e)
     = (bm, bm_drawCircleImmediate bm center radius style e)) ∧
  (∀ bounds style,
     addRect bounds style (bm, e) = (bm, bm_drawRectImmediate bm bounds style e)) ∧
  (∀ vertices style,
     addPolygon vertices style (bm, e)
     = (bm, bm_drawPolygonImmediate bm vertices style e)) ∧
  (∀ text position style,
     addText text position style (bm, e)
     = (bm, bm_drawTextImmediate bm text position style e)).
Proof.
  intros Hb. unfold addLine, addCircle, addRect, addPolygon, addText. simpl.
  by rewrite Hb.
Qed.

End BatchTheorems.

(** ** Batch manager: grouping, counting and the size limit *)

Section BatchMore.
Context `{FP : FixedPoint, HH : !Host}.

Lemma members_cons_ne k c X :
  getGroupKey c ≠ k → members k (c :: X) = members k X.
Proof. intros Hne. unfold members. by rewrite filter_cons_False. Qed.

Lemma members_cons_eq c X :
  members (getGroupKey c) (c :: X) = c :: members (getGroupKey c) X.
Proof. unfold members. by rewrite filter_cons_True. Qed.

Lemma group_members_cons c X (L : list DrawCommand) :
  getGroupKey c ∉ getGroupKey <$> L →
  (λ l, members (getGroupKey l) (c :: X)) <$> L
  = (λ l, members (getGroupKey l) X) <$> L.
Proof.
  intros Hc. apply list_fmap_ext. intros i l Hl.
  apply members_cons_ne. intros Heq. apply Hc. rewrite Heq.
  apply list_elem_of_fmap. exists l. split; [done|].
  by eapply list_elem_of_lookup_2.
Qed.

Lemma filter_keys_all k (L : list DrawCommand) :
  k ∉ getGroupKey <$> L → filter (λ l, getGroupKey l ≠ k) L = L.
Proof.
  induction L as [|l L IH]; [done|]. rewrite fmap_cons, not_elem_of_cons.
  intros [Hne HL]. rewrite filter_cons_True by done. by rewrite IH.
Qed.

Lemma group_members_split k X (L : list DrawCommand) :
  NoDup (getGroupKey <$> L) →
  k ∈ getGroupKey <$> L →
  concat ((λ l, members (getGroupKey l) X) <$> L)
  ≡ₚ members k X
     ++ concat ((λ l, members (getGroupKey l) X)
                <$> filter (λ l, getGroupKey l ≠ k) L).
Proof.
  induction L as [|l L IH]; [by intros _ ?%elem_of_nil|].
  rewrite fmap_cons. intros [Hl HL]%NoDup_cons Hk. simpl.
  destruct (decide (getGroupKey l = k)) as [<-|Hne].
  - rewrite filter_cons_False by (intros Hn; by apply Hn).
    by rewrite filter_keys_all.
  - apply elem_of_cons in Hk as [Hk|Hk]; [by destruct Hne|].
    rewrite filter_cons_True by done. simpl.
    rewrite (IH HL Hk). by rewrite !app_assoc, (Permutation_app_comm (members _ _)).
Qed.

Lemma group_members_permutation commands :
  concat ((λ l, members (getGroupKey l) commands) <$> leaders commands)
  ≡ₚ commands.
Proof.
  induction commands as [|c X IH]; [done|].
  cbn [leaders fmap list_fmap concat].
  rewrite members_cons_eq. simpl. constructor.
  rewrite group_members_cons.
  2:{ intros (l & Hk & Hl)%list_elem_of_fmap.
      by apply list_elem_of_filter in Hl as [Hne _]. }
  destruct (decide (getGroupKey c ∈ getGroupKey <$> leaders X)) as [Hin|Hnin].
  - rewrite <- (group_members_split _ _ _ (leaders_NoDup X) Hin). done.
  - rewrite filter_keys_all by done.
    rewrite members_none by (by rewrite <- leaders_keys). done.
Qed.

Lemma leaders_length commands : (length (leaders commands) ≤ length commands)%nat.
Proof.
  induction commands as [|c X IH]; simpl; [done|].
  pose proof (length_filter (λ c', getGroupKey c' ≠ getGroupKey c) (leaders X)).
  lia.
Qed.

Lemma leaders_distinct commands :
  length (leaders commands) = size (keys_of commands).
Proof.
  unfold keys_of.
  rewrite <- (length_fmap getGroupKey (leaders commands)).
  rewrite <- (size_list_to_set (C:=gset string)) by apply leaders_NoDup.
  f_equal. apply set_eq. intros k. rewrite !elem_of_list_to_set.
  apply leaders_keys.
Qed.

(** X12.  For every list of commands, [groupCommands] partitions it: the
    groups have pairwise different keys, no group is empty, every
    command of a group has the key of the group, the commands of all
    groups together are the commands of the list (each one once), and
    the number of groups is the number of different keys, at most the
    number of commands. *)
Theorem groupCommands_partition commands :
  let groups := groupCommands commands in
  NoDup (group_key <$> groups) ∧
  Forall (λ g, group_commands g ≠ [] ∧
               Forall (λ c, getGroupKey c = group_key g) (group_commands g))
         groups ∧
  concat (group_commands <$> groups) ≡ₚ commands ∧
  length groups = size (keys_of commands) ∧
  (length groups ≤ length commands)%nat.
Proof.
  cbn zeta. rewrite groupCommands_stable. unfold stable_groups.
  split_and!.
  - rewrite <- list_fmap_compose.
    replace (group_key ∘ group_of commands) with getGroupKey; [apply leaders_NoDup|].
    done.
  - apply Forall_fmap, Forall_forall. intros l Hl. simpl. split.
    + intros Hnil.
      assert (Hin : l ∈ members (getGroupKey l) commands).
      { apply list_elem_of_filter. split; [done|]. by apply leaders_subseteq. }
      rewrite Hnil in Hin. by apply elem_of_nil in Hin.
    + apply Forall_forall. intros c Hc.
      by apply list_elem_of_filter in Hc as [Hk _].
  - rewrite <- list_fmap_compose. apply group_members_permutation.
  - rewrite length_fmap. apply leaders_distinct.
  - rewrite length_fmap. apply leaders_length.
Qed.

Lemma executeBatch_manager bm e :
  (executeBatch (bm, e)).1
  = set_batchedDrawCallCount
      (batchedDrawCallCount bm + Z.of_nat (size (keys_of (batchCommands bm)))) bm.
Proof.
  unfold executeBatch. destruct (batchCommands bm) as [|c cs] eqn:Hb.
  - unfold keys_of. rewrite fmap_nil, list_to_set_nil, size_empty.
    destruct bm; simpl. by rewrite Z.add_0_r.
  - cbn [fst]. rewrite groupCommands_stable. unfold stable_groups.
    by rewrite length_fmap, leaders_distinct.
Qed.

(** X13.  With batching on, [endBatch] adds to the batched-draw-call
    counter the number of different group keys in the buffer (nothing
    for an empty buffer, at least one and at most the number of commands
    otherwise), empties the buffer and turns batching off; the size
    limit is kept. *)
Theorem endBatch_counts_keys bm e :
  batchingEnabled bm = true →
  let n := size (keys_of (batchCommands bm)) in
  (endBatch (bm, e)).1
    = set_batchCommands []
        (set_batchingEnabled false
           (set_batchedDrawCallCount (batchedDrawCallCount bm + Z.of_nat n) bm)) ∧
  (n ≤ length (batchCommands bm))%nat ∧
  (batchCommands bm ≠ [] → (1 ≤ n)%nat).
Proof.
  intros Hen n. split_and!.
  - unfold endBatch. cbn [fst]. rewrite Hen.
    pose proof (executeBatch_manager bm e) as Hm.
    destruct (executeBatch (bm, e)) as [bm' e']. cbn [fst] in *. by rewrite Hm.
  - subst n. rewrite <- leaders_distinct. apply leaders_length.
  - subst n. rewrite <- leaders_distinct.
    destruct (batchCommands bm); [done|]. simpl. lia.
Qed.

Lemma executeBatch_fields bm e :
  batchCommands (executeBatch (bm, e)).1 = batchCommands bm ∧
  batchingEnabled (executeBatch (bm, e)).1 = batchingEnabled bm ∧
  maxBatchSize (executeBatch (bm, e)).1 = maxBatchSize bm.
Proof. by rewrite executeBatch_manager. Qed.


Lemma endBatch_off (s : BatchManager * Env) :
  batchingEnabled (endBatch s).1 = false.
Proof.
  unfold endBatch. destruct (batchingEnabled s.1) eqn:Hen; [|done].
  by destruct (executeBatch s).
Qed.

Lemma flushBatch_emptied (s : BatchManager * Env) :
  batchCommands (flushBatch s).1 = [].
Proof.
  unfold flushBatch. case_bool_decide as Hne.
  - by destruct (executeBatch s).
  - destruct (batchCommands s.1); [done|]. simpl in Hne. lia.
Qed.

(** X15.  [endBatch] and [flushBatch] are idempotent: a second call right
    after the first changes nothing.  [endBatch] always leaves batching
    off and [flushBatch] always leaves the buffer empty; with batching
    off [endBatch] does nothing at all, so commands that were buffered
    stay buffered. *)
Theorem endBatch_flushBatch_idempotent (s : BatchManager * Env) :
  endBatch (endBatch s) = endBatch s ∧
  flushBatch (flushBatch s) = flushBatch s ∧
  batchingEnabled (endBatch s).1 = false ∧
  batchCommands (flushBatch s).1 = [] ∧
  (batchingEnabled s.1 = false → endBatch s = s).
Proof.
  split_and!.
  - pose proof (endBatch_off s) as Hoff.
    unfold endBatch at 1. by rewrite Hoff.
  - pose proof (flushBatch_emptied s) as Hnil.
    unfold flushBatch at 1. by rewrite Hnil.
  - apply endBatch_off.
  - apply flushBatch_emptied.
  - intros Hoff. unfold endBatch. by rewrite Hoff.
Qed.








End BatchMore.

(** ** Renderer *)

Section RendererTheorems.
Context `{FP : FixedPoint, HH : !Host}.

Lemma on_batchManager_eq f r :
  on_batchManager f r
  = set_env (f (batchManager r, env r)).2
      (set_batchManager (f (batchManager r, env r)).1 r).
Proof. unfold on_batchManager. by destruct (f (batchManager r, env r)). Qed.

(** Reduce the field updates of the renderer and nothing else. *)
Ltac fields :=
  rewrite ?on_batchManager_eq;
  cbn [transformStackDepth config canvasStats batchManager env canvas console
       base on_env set_env set_batchManager set_canvasStats
       set_transformStackDepth set_base set_canvas console_warn inc_drawCalls
       inc_textureBinds inc_transformChanges drawCalls forget_console
       set_enableBatchRendering cfg_enableBatchRendering cfg_enableHighDPI].

Ltac unfold_calls :=
  unfold run_call, applyTransform, popTransform, onDrawLine, onDrawCircle,
    onDrawRect, onDrawPolygon, onDrawEllipse, onDrawText, onDrawTexture,
    onDrawTextureRegion, onClear, onSetRenderState, onSetViewport,
    applyClipRect, setupCoordinateSystem, applyHighDPIScaling.

Ltac by_cases := repeat (fields; try done; case_match).

Lemma run_call_config c r : config (run_call c r) = config r.
Proof. destruct c; unfold_calls; by_cases; fields; done. Qed.

Lemma run_call_depth c r :
  0 ≤ transformStackDepth r → 0 ≤ transformStackDepth (run_call c r).
Proof.
  intros Hd. destruct c; unfold_calls; by_cases; fields; try done; try lia.
  all: case_bool_decide; lia.
Qed.

Lemma run_call_drawCalls c r :
  drawCalls (canvasStats (run_call c r))
  = drawCalls (canvasStats r) + counted_draws c.
Proof.
  destruct c; unfold_calls; by_cases; fields; simpl; try done; lia.
Qed.

Lemma run_call_batchManager c r :
  cfg_enableBatchRendering (config r) = false →
  batchManager (run_call c r) = batchManager r.
Proof.
  intros Hc. destruct c; unfold_calls; rewrite ?Hc; by_cases; fields; done.
Qed.

Lemma run_call_forget_console c r :
  forget_console (run_call c (forget_console r)) = forget_console (run_call c r).
Proof.
  destruct c; unfold_calls; by_cases; fields; done.
Qed.

Lemma run_calls_snoc calls c r :
  run_calls (calls ++ [c]) r = run_call c (run_calls calls r).
Proof. unfold run_calls. by rewrite foldl_snoc. Qed.

Lemma run_calls_config calls r : config (run_calls calls r) = config r.
Proof.
  induction calls as [|c calls IH] using rev_ind; [done|].
  by rewrite run_calls_snoc, run_call_config.
Qed.

Lemma run_calls_depth calls r :
  0 ≤ transformStackDepth r → 0 ≤ transformStackDepth (run_calls calls r).
Proof.
  intros Hd. induction calls as [|c calls IH] using rev_ind; [done|].
  rewrite run_calls_snoc. by apply run_call_depth.
Qed.

Lemma run_calls_drawCalls calls r :
  drawCalls (canvasStats (run_calls calls r))
  = drawCalls (canvasStats r) + total_counted_draws calls.
Proof.
  revert r. induction calls as [|c calls IH]; intros r; simpl; [lia|].
  change (foldl _ (run_call c r) calls) with (run_calls calls (run_call c r)).
  rewrite IH, run_call_drawCalls. unfold total_counted_draws. lia.
Qed.

Lemma run_calls_batchManager calls r :
  cfg_enableBatchRendering (config r) = false →
  batchManager (run_calls calls r) = batchManager r.
Proof.
  intros Hc. induction calls as [|c calls IH] using rev_ind; [done|].
  rewrite run_calls_snoc, run_call_batchManager; [done|].
  by rewrite run_calls_config.
Qed.

Lemma run_calls_forget_console calls r :
  forget_console (run_calls calls (forget_console r))
  = forget_console (run_calls calls r).
Proof.
  induction calls as [|c calls IH] using rev_ind; [done|].
  rewrite !run_calls_snoc.
  rewrite <- (run_call_forget_console c (run_calls calls r)).
  rewrite <- IH. by rewrite run_call_forget_console.
Qed.

(** *** The unwinding loop of [onEndFrame] *)

Lemma popTransform_depth r :
  transformStackDepth (popTransform r)
  = if bool_decide (0 < transformStackDepth r)
    then transformStackDepth r - 1 else transformStackDepth r.
Proof. unfold popTransform. by case_bool_decide. Qed.

Lemma unwindTransforms_terminates fuel r :
  (Z.to_nat (transformStackDepth r) ≤ fuel)%nat →
  ∃ r', unwindTransforms fuel r = Some r' ∧
        transformStackDepth r' = Z.min 0 (transformStackDepth r) ∧
        unwindTransforms (Z.to_nat (transformStackDepth r)) r = Some r'.
Proof.
  revert r. induction fuel as [|fuel IH]; intros r Hf.
  - assert (Hd : transformStackDepth r ≤ 0) by lia.
    exists r. replace (Z.to_nat (transformStackDepth r)) with 0%nat by lia.
    simpl. rewrite bool_decide_eq_false_2 by lia. split_and!; try done; lia.
  - cbn [unwindTransforms]. case_bool_decide as Hd.
    + destruct (IH (popTransform r)) as (r' & Hr' & Hd' & Hn).
      { rewrite popTransform_depth, bool_decide_eq_true_2 by done. lia. }
      exists r'. split_and!; try done.
      * rewrite Hd', popTransform_depth, bool_decide_eq_true_2 by done. lia.
      * replace (Z.to_nat (transformStackDepth r))
          with (S (Z.to_nat (transformStackDepth (popTransform r)))).
        2:{ rewrite popTransform_depth, bool_decide_eq_true_2 by done. lia. }
        cbn [unwindTransforms]. rewrite bool_decide_eq_true_2 by done.
        exact Hn.
    + exists r. split_and!; try done; [lia|].
      replace (Z.to_nat (transformStackDepth r)) with 0%nat by lia.
      simpl. by rewrite bool_decide_eq_false_2.
Qed.

Lemma onEndFrame_fuel_terminates fuel r :
  (Z.to_nat (transformStackDepth r) ≤ fuel)%nat →
  ∃ r', onEndFrame_fuel fuel r = Some r' ∧
        onEndFrame r = Some r' ∧
        transformStackDepth r' = Z.min 0 (transformStackDepth r).
Proof.
  intros Hf. unfold onEndFrame, onEndFrame_fuel.
  set (r1 := on_batchManager flushBatch r).
  assert (Hd1 : transformStackDepth r1 = transformStackDepth r).
  { subst r1. by rewrite on_batchManager_eq. }
  destruct (unwindTransforms_terminates fuel r1) as (r2 & Hr2 & Hd2 & Hn).
  { by rewrite Hd1. }
  rewrite Hr2. rewrite <- Hd1, Hn. simpl.
  eexists. by split_and!.
Qed.

Lemma onEndFrame_terminates r :
  ∃ r', onEndFrame r = Some r' ∧
        transformStackDepth r' = Z.min 0 (transformStackDepth r).
Proof.
  destruct (onEndFrame_fuel_terminates (Z.to_nat (transformStackDepth r)) r)
    as (r' & _ & Hr' & Hd); [done|]. eauto.
Qed.

Lemma run_steps_depth steps r :
  0 ≤ transformStackDepth r →
  ∃ r', run_steps steps r = Some r' ∧ 0 ≤ transformStackDepth r'.
Proof.
  revert r. induction steps as [|s steps IH]; intros r Hd; simpl; [eauto|].
  destruct s; simpl.
  - apply IH. by apply run_call_depth.
  - apply IH. unfold onBeginFrame, applyCameraTransform, resetCanvasStats.
    fields. done.
  - destruct (onEndFrame_terminates r) as (r' & -> & Hd'). simpl.
    apply IH. lia.
Qed.

Lemma CanvasRenderer_new_depth canvas partial dpr base r :
  CanvasRenderer_new canvas partial dpr base = Some r →
  transformStackDepth r = 0.
Proof.
  unfold CanvasRenderer_new. case_match; [done|]. intros [= <-].
  unfold setupCanvas, setupBatchManager, setupCoordinateSystem,
    applyHighDPIScaling.
  by_cases; fields; done.
Qed.

(** C4.  From a state in which the transform-stack depth is not negative
    (as it is after construction), it is not negative after any sequence
    of calls, frame starts and frame ends, each of which returns; a
    [popTransform] at depth 0 leaves the context, the other shared
    objects and the depth as they are; [onBeginFrame], any calls, then
    [onEndFrame] return with depth 0, whatever was pushed and not popped;
    and the unwinding loop of [onEndFrame] ends within [depth]
    iterations, with the same result for any larger bound. *)
Theorem transformStackDepth_never_negative (r : CanvasRenderer)
    (steps : list Step) (calls : list RendererCall) :
  0 ≤ transformStackDepth r →
  (∃ r', run_steps steps r = Some r' ∧ 0 ≤ transformStackDepth r') ∧
  (let r0 := set_transformStackDepth 0 r in
   env (popTransform r0) = env r0 ∧ transformStackDepth (popTransform r0) = 0) ∧
  (∃ r', onEndFrame (run_calls calls (onBeginFrame r)) = Some r' ∧
         transformStackDepth r' = 0) ∧
  (∀ fuel, (Z.to_nat (transformStackDepth r) ≤ fuel)%nat →
           onEndFrame_fuel fuel r = onEndFrame r).
Proof.
  intros Hd. split_and!.
  - by apply run_steps_depth.
  - done.
  - destruct (onEndFrame_terminates (run_calls calls (onBeginFrame r)))
      as (r' & Hr' & Hd').
    exists r'. split; [done|].
    pose proof (run_calls_depth calls (onBeginFrame r)) as Hc.
    rewrite Hd'. apply Z.min_l, Hc. done.
  - intros fuel Hf.
    destruct (onEndFrame_fuel_terminates fuel r Hf) as (r' & -> & -> & _).
    done.
Qed.

Lemma popTransform_batchManager r :
  batchManager (popTransform r) = batchManager r ∧
  config (popTransform r) = config r.
Proof. unfold popTransform. by case_bool_decide. Qed.

Lemma unwindTransforms_batchManager fuel r r' :
  unwindTransforms fuel r = Some r' →
  batchManager r' = batchManager r ∧ config r' = config r.
Proof.
  revert r. induction fuel as [|fuel IH]; intros r; cbn [unwindTransforms];
    case_bool_decide; try done.
  - by intros [= <-].
  - intros Hr'%IH. destruct (popTransform_batchManager r) as [Hb Hc].
    by rewrite <- Hb, <- Hc.
  - by intros [= <-].
Qed.

Lemma run_step_never_batched s r :
  never_batched r →
  ∃ r', run_step s r = Some r' ∧ never_batched r'.
Proof.
  intros (Hc & Hb & Hn). destruct s as [c| |]; simpl.
  - eexists. split; [done|]. unfold never_batched.
    by rewrite run_call_config, run_call_batchManager.
  - eexists. split; [done|]. unfold never_batched.
    unfold onBeginFrame, applyCameraTransform, resetCanvasStats.
    by rewrite ?on_batchManager_eq.
  - destruct (onEndFrame_terminates r) as (r' & Hr' & _).
    exists r'. split; [done|].
    unfold onEndFrame, onEndFrame_fuel in Hr'.
    destruct (unwindTransforms _ _) as [r2|] eqn:Hr2; [|done].
    apply unwindTransforms_batchManager in Hr2 as [Hb2 Hc2].
    simpl in Hr'. injection Hr' as <-.
    unfold never_batched, updateStatistics. simpl.
    rewrite Hb2, Hc2, on_batchManager_eq. simpl.
    unfold flushBatch. simpl. rewrite Hb. simpl. done.
Qed.

Lemma run_steps_never_batched steps r :
  never_batched r →
  ∃ r', run_steps steps r = Some r' ∧ never_batched r'.
Proof.
  revert r. induction steps as [|s steps IH]; intros r Hr; simpl; [eauto|].
  destruct (run_step_never_batched s r Hr) as (r1 & -> & Hr1). simpl.
  by apply IH.
Qed.

(** C6.  With batching off in the batch manager, each of [addLine],
    [addCircle], [addRect], [addPolygon] and [addText] is exactly a call
    of its immediate-draw callback: nothing is buffered and the batch
    manager is unchanged.  With [enableBatchRendering] off in the
    renderer, each drawing primitive is its immediate implementation
    followed by one count; for any sequence of calls the draw-call
    counter ends at the same value as with [enableBatchRendering] on,
    namely the initial value plus one per draw that is carried out; and
    the batch manager is never touched, so its batched-draw-call counter
    keeps its value, 0 if it was 0; across frame starts and frame ends
    too, from a batch manager with an empty buffer, the counter is 0
    after every sequence of steps. *)
Theorem batching_off_draws_immediately (bm : BatchManager) (e : Env)
    (r : CanvasRenderer) (calls : list RendererCall) (steps : list Step) :
  batchingEnabled bm = false →
  cfg_enableBatchRendering (config r) = false →
  ((∀ start end_ style,
      addLine start end_ style (bm, e)
      = (bm, bm_drawLineImmediate bm start end_ style e)) ∧
   (∀ center radius style,
      addCircle center radius style (bm, e)
      = (bm, bm_drawCircleImmediate bm center radius style e)) ∧
   (∀ bounds style,
      addRect bounds style (bm, e)
      = (bm, bm_drawRectImmediate bm bounds style e)) ∧
   (∀ vertices style,
      addPolygon vertices style (bm, e)
      = (bm, bm_drawPolygonImmediate bm vertices style e)) ∧
   (∀ text position style,
      addText text position style (bm, e)
      = (bm, bm_drawTextImmediate bm text position style e))) ∧
  ((∀ start end_ style,
      onDrawLine start end_ style r
      = inc_drawCalls (on_env (drawLineImmediate start end_ style) r)) ∧
   (∀ center radius style,
      onDrawCircle center radius style r
      = inc_drawCalls (on_env (drawCircleImmediate center radius style) r)) ∧
   (∀ bounds style,
      onDrawRect bounds style r
      = inc_drawCalls (on_env (drawRectImmediate bounds style) r)) ∧
   (∀ vertices style,
      onDrawPolygon vertices style r
      = inc_drawCalls (on_env (drawPolygonImmediate vertices style) r)) ∧
   (∀ text position style,
      onDrawText text position style r
      = inc_drawCalls (on_env (drawTextImmediate text position style) r))) ∧
  drawCalls (canvasStats (run_calls calls (set_enableBatchRendering true r)))
    = drawCalls (canvasStats (run_calls calls r)) ∧
  drawCalls (canvasStats (run_calls calls r))
    = drawCalls (canvasStats r) + total_counted_draws calls ∧
  batchManager (run_calls calls r) = batchManager r ∧
  (batchedDrawCallCount (batchManager r) = 0 →
   batchedDrawCallCount (batchManager (run_calls calls r)) = 0) ∧
  (batchCommands (batchManager r) = [] →
   batchedDrawCallCount (batchManager r) = 0 →
   ∃ r', run_steps steps r = Some r' ∧
         batchedDrawCallCount (batchManager r') = 0).
Proof.
  intros Hb Hc. split_and!.
  - by apply add_immediate.
  - by apply add_immediate.
  - by apply add_immediate.
  - by apply add_immediate.
  - by apply add_immediate.
  - intros. unfold onDrawLine. by rewrite Hc.
  - intros. unfold onDrawCircle. by rewrite Hc.
  - intros. unfold onDrawRect. by rewrite Hc.
  - intros. unfold onDrawPolygon. by rewrite Hc.
  - intros. unfold onDrawText. by rewrite Hc.
  - by rewrite !run_calls_drawCalls.
  - apply run_calls_drawCalls.
  - by apply run_calls_batchManager.
  - intros H0. by rewrite run_calls_batchManager.
  - intros He H0.
    destruct (run_steps_never_batched steps r) as (r' & Hr' & _ & _ & Hn);
      [done|eauto].
Qed.

(** C8.  For a texture that is not a [CanvasTexture], [onDrawTexture] and
    [onDrawTextureRegion] only log a warning: the context log, the style
    manager, the coordinate system, the batch manager, the statistics
    and the transform-stack depth are unchanged, no error is raised, and
    every later sequence of calls runs as if the call had not been made
    (the two runs differ in the console log only). *)
Theorem foreign_texture_skipped (id : nat) (position : FixedVector2)
    (sourceRect destRect : FixedRect) (style : option TextureStyle)
    (r : CanvasRenderer) (calls : list RendererCall) :
  let r1 := onDrawTexture (OtherTexture id) position style r in
  let r2 := onDrawTextureRegion (OtherTexture id) sourceRect destRect style r in
  r1 = console_warn "Invalid texture type for Canvas renderer" r ∧
  r2 = console_warn "Invalid texture type for Canvas renderer" r ∧
  console r1 = console r ++ ["Invalid texture type for Canvas renderer"] ∧
  env r1 = env r ∧ env r2 = env r ∧
  batchManager r1 = batchManager r ∧ batchManager r2 = batchManager r ∧
  canvasStats r1 = canvasStats r ∧ canvasStats r2 = canvasStats r ∧
  transformStackDepth r1 = transformStackDepth r ∧
  transformStackDepth r2 = transformStackDepth r ∧
  forget_console r1 = forget_console r ∧
  forget_console r2 = forget_console r ∧
  forget_console (run_calls calls r1) = forget_console (run_calls calls r) ∧
  forget_console (run_calls calls r2) = forget_console (run_calls calls r).
Proof.
  simpl. split_and!; try done.
  - rewrite <- run_calls_forget_console. symmetry.
    by rewrite <- run_calls_forget_console.
  - rewrite <- run_calls_forget_console. symmetry.
    by rewrite <- run_calls_forget_console.
Qed.


(** *** Batching through the renderer, the state stack, statistics *)

Lemma set_batchManager_same r : set_batchManager (batchManager r) r = r.
Proof. by destruct r. Qed.

Lemma idle_draws r :
  batch_idle r →
  (∀ start end_ style,
     onDrawLine start end_ style r
     = inc_drawCalls (on_env (drawLineImmediate start end_ style) r)) ∧
  (∀ center radius style,
     onDrawCircle center radius style r
     = inc_drawCalls (on_env (drawCircleImmediate center radius style) r)) ∧
  (∀ bounds style,
     onDrawRect bounds style r
     = inc_drawCalls (on_env (drawRectImmediate bounds style) r)) ∧
  (∀ vertices style,
     onDrawPolygon vertices style r
     = inc_drawCalls (on_env (drawPolygonImmediate vertices style) r)) ∧
  (∀ text position style,
     onDrawText text position style r
     = inc_drawCalls (on_env (drawTextImmediate text position style) r)).
Proof.
  intros (Hoff & _ & _ & Hl & Hc & Hr & Hp & Ht).
  destruct (add_immediate (batchManager r) (env r) Hoff)
    as (Hal & Hac & Har & Hap & Hat).
  unfold onDrawLine, onDrawCircle, onDrawRect, onDrawPolygon, onDrawText.
  split_and!; intros; case_match; try done;
    rewrite on_batchManager_eq, ?Hal, ?Hac, ?Har, ?Hap, ?Hat; cbn [fst snd];
    rewrite set_batchManager_same, ?Hl, ?Hc, ?Hr, ?Hp, ?Ht; done.
Qed.

Lemma batch_idle_flag flag r : batch_idle r → batch_idle (set_enableBatchRendering flag r).
Proof. done. Qed.

Lemma run_call_idle c r :
  batch_idle r →
  batchManager (run_call c r) = batchManager r ∧
  ∀ flag, run_call c (set_enableBatchRendering flag r)
          = set_enableBatchRendering flag (run_call c r).
Proof.
  intros Hidle.
  destruct (idle_draws r Hidle) as (Hl & Hc & Hr & Hp & Ht).
  split.
  - destruct c; cbn [run_call]; rewrite ?Hl, ?Hc, ?Hr, ?Hp, ?Ht; try done;
      unfold_calls; by_cases; fields; done.
  - intros flag.
    destruct (idle_draws _ (batch_idle_flag flag r Hidle))
      as (Hl' & Hc' & Hr' & Hp' & Ht').
    destruct c; cbn [run_call];
      rewrite ?Hl, ?Hc, ?Hr, ?Hp, ?Ht, ?Hl', ?Hc', ?Hr', ?Hp', ?Ht'; try done;
      unfold_calls; by_cases; fields; done.
Qed.

Lemma batch_idle_batchManager r r' :
  batchManager r' = batchManager r → batch_idle r → batch_idle r'.
Proof. unfold batch_idle. by intros ->. Qed.

Lemma popTransform_flag flag r :
  popTransform (set_enableBatchRendering flag r)
  = set_enableBatchRendering flag (popTransform r).
Proof. unfold popTransform. by_cases. Qed.

Lemma unwindTransforms_flag flag fuel r :
  unwindTransforms fuel (set_enableBatchRendering flag r)
  = set_enableBatchRendering flag <$> unwindTransforms fuel r.
Proof.
  revert r. induction fuel as [|fuel IH]; intros r; cbn [unwindTransforms];
    fields; case_bool_decide; try done.
  by rewrite popTransform_flag, IH.
Qed.

Lemma flushBatch_idle r : batch_idle r → on_batchManager flushBatch r = r.
Proof.
  intros (_ & Hnil & _). rewrite on_batchManager_eq.
  unfold flushBatch. cbn [fst]. rewrite Hnil. cbn. by destruct r.
Qed.

Lemma run_step_idle s r :
  batch_idle r →
  ∃ r', run_step s r = Some r' ∧ batch_idle r' ∧
        ∀ flag, run_step s (set_enableBatchRendering flag r)
                = Some (set_enableBatchRendering flag r').
Proof.
  intros Hidle. destruct s as [c| |]; cbn [run_step].
  - destruct (run_call_idle c r Hidle) as [Hbm Hflag].
    eexists. split_and!; [done|by eapply batch_idle_batchManager|].
    intros flag. by rewrite Hflag.
  - eexists. split_and!; [done| |done].
    destruct Hidle as (? & ? & ? & ?). unfold batch_idle.
    unfold onBeginFrame, applyCameraTransform, resetCanvasStats. by fields.
  - destruct (onEndFrame_terminates r) as (r' & Hr' & _).
    exists r'. split; [done|].
    unfold onEndFrame, onEndFrame_fuel in Hr'. rewrite flushBatch_idle in Hr' by done.
    destruct (unwindTransforms _ r) as [r2|] eqn:Hr2; [|done].
    simpl in Hr'. injection Hr' as <-.
    pose proof (unwindTransforms_batchManager _ _ _ Hr2) as [Hb2 _].
    split.
    + eapply batch_idle_batchManager; [|done]. by rewrite <- Hb2.
    + intros flag. unfold onEndFrame, onEndFrame_fuel.
      rewrite flushBatch_idle by done. fields.
      rewrite unwindTransforms_flag, Hr2. done.
Qed.

Lemma run_steps_idle steps r :
  batch_idle r →
  ∃ r', run_steps steps r = Some r' ∧ batch_idle r' ∧
        ∀ flag, run_steps steps (set_enableBatchRendering flag r)
                = Some (set_enableBatchRendering flag r').
Proof.
  revert r. induction steps as [|s steps IH]; intros r Hidle; cbn [run_steps].
  - by exists r.
  - destruct (run_step_idle s r Hidle) as (r1 & -> & Hidle1 & Hflag1).
    destruct (IH r1 Hidle1) as (r' & Hr' & Hidle' & Hflag').
    exists r'. split_and!; try done.
    intros flag. rewrite Hflag1. simpl. apply Hflag'.
Qed.

Lemma CanvasRenderer_new_idle canvas partial dpr base r :
  CanvasRenderer_new canvas partial dpr base = Some r → batch_idle r.
Proof.
  unfold CanvasRenderer_new. case_match; [done|]. intros [= <-].
  unfold setupCanvas, setupBatchManager, setupCoordinateSystem,
    applyHighDPIScaling, batch_idle.
  by_cases; fields; done.
Qed.

Lemma applyHighDPIScaling_flag flag r :
  applyHighDPIScaling (set_enableBatchRendering flag r)
  = set_enableBatchRendering flag (applyHighDPIScaling r).
Proof.
  unfold applyHighDPIScaling. cbn [env canvas set_enableBatchRendering].
  by case_bool_decide.
Qed.

Lemma setupCanvas_flag flag r :
  setupCanvas (set_enableBatchRendering flag r)
  = set_enableBatchRendering flag (setupCanvas r).
Proof.
  unfold setupCanvas.
  cbn [config set_enableBatchRendering cfg_enableHighDPI].
  destruct (cfg_enableHighDPI (config r)).
  - rewrite applyHighDPIScaling_flag.
    generalize (applyHighDPIScaling r). intros r1.
    cbn [config set_enableBatchRendering cfg_enableAntialiasing].
    by destruct (cfg_enableAntialiasing (config r1)).
  - cbn [config set_enableBatchRendering cfg_enableAntialiasing].
    by destruct (cfg_enableAntialiasing (config r)).
Qed.

Lemma CanvasRenderer_new_flag canvas partial dpr base r flag :
  CanvasRenderer_new canvas partial dpr base = Some r →
  CanvasRenderer_new canvas (with_batching flag partial) dpr base
  = Some (set_enableBatchRendering flag r).
Proof.
  unfold CanvasRenderer_new. case_match; [done|]. intros [= <-]. f_equal.
  by rewrite <- setupCanvas_flag.
Qed.

(** X17.  Nothing in the renderer ever calls [beginBatch]: on a renderer
    built by the constructor, after any sequence of drawing, transform,
    render-state and viewport calls, frame starts and frame ends (each
    of which returns), the batch manager is as the constructor left it
    (batching off, empty buffer, counter 0), and the renderer built with
    [enableBatchRendering] on or off goes through the same states: the
    context log, the statistics and everything else are equal, the
    configuration flag apart. *)
Theorem enableBatchRendering_no_effect canvas partial dpr base r steps :
  CanvasRenderer_new canvas partial dpr base = Some r →
  ∃ r', run_steps steps r = Some r' ∧
        batch_idle r' ∧
        ∀ flag,
          ∃ r_flag,
            CanvasRenderer_new canvas (with_batching flag partial) dpr base
              = Some r_flag ∧
            run_steps steps r_flag = Some (set_enableBatchRendering flag r').
Proof.
  intros Hnew.
  destruct (run_steps_idle steps r (CanvasRenderer_new_idle _ _ _ _ _ Hnew))
    as (r' & Hr' & Hidle & Hflag).
  exists r'. split_and!; try done.
  intros flag. eexists. split; [by apply CanvasRenderer_new_flag|]. apply Hflag.
Qed.

Lemma save_depth_snoc log c : save_depth (log ++ [c]) = save_depth log + save_delta c.
Proof.
  unfold save_depth. induction log as [|x log IH]; simpl; [lia|].
  rewrite IH. lia.
Qed.

Lemma save_depth_call c e :
  save_depth (ctx (call c e)) = save_depth (ctx e) + save_delta c.
Proof. apply save_depth_snoc. Qed.

Lemma save_depth_cached_write {A} `{EqDecision A} get set write (v : A) e :
  save_delta (write v) = 0 →
  save_depth (ctx (cached_write get set write v e)) = save_depth (ctx e).
Proof.
  intros Hw. unfold cached_write. case_match; [|done].
  cbn [set_styleManager ctx]. rewrite save_depth_call, Hw. lia.
Qed.

Lemma save_depth_applyDashPattern d e :
  save_depth (ctx (applyDashPattern d e)) = save_depth (ctx e).
Proof.
  unfold applyDashPattern. repeat case_match; rewrite save_depth_call; simpl; lia.
Qed.

Lemma save_depth_applyLineStyle s e :
  save_depth (ctx (applyLineStyle s e)) = save_depth (ctx e).
Proof.
  unfold applyLineStyle, setLineWidth, setStrokeStyle.
  by rewrite save_depth_applyDashPattern, !save_depth_cached_write.
Qed.

Lemma save_depth_applyShapeStyle s e :
  save_depth (ctx (applyShapeStyle s e)) = save_depth (ctx e).
Proof.
  unfold applyShapeStyle, setFillStyle, setLineWidth, setStrokeStyle.
  repeat case_match;
    by rewrite ?save_depth_applyDashPattern, ?save_depth_cached_write.
Qed.

Lemma save_depth_applyTextStyle s e :
  save_depth (ctx (applyTextStyle s e)) = save_depth (ctx e).
Proof.
  unfold applyTextStyle, setFillStyle, setFont, setTextAlign, setTextBaseline.
  repeat case_match; by rewrite ?save_depth_cached_write.
Qed.

Lemma save_depth_fillAndStroke s e :
  save_depth (ctx (fillAndStroke s e)) = save_depth (ctx e).
Proof.
  unfold fillAndStroke.
  repeat case_match;
    rewrite ?save_depth_call, ?save_depth_applyShapeStyle,
      ?save_depth_call, ?save_depth_applyShapeStyle; simpl; lia.
Qed.

Lemma save_depth_polygon_edges vs e :
  save_depth
    (ctx (foldl (λ e v,
                   call (ctx_lineTo (sp_x (worldToScreen (coordinateSystem e) v))
                           (sp_y (worldToScreen (coordinateSystem e) v))) e)
            e vs))
  = save_depth (ctx e).
Proof.
  induction vs as [|v vs IH] using rev_ind; [done|].
  rewrite foldl_snoc, save_depth_call, IH. simpl. lia.
Qed.

Lemma save_depth_applyTextureStyle style p t e :
  save_depth (ctx (applyTextureStyle style p t e)) = save_depth (ctx e).
Proof.
  unfold applyTextureStyle, when.
  repeat case_match; rewrite ?save_depth_call; simpl; lia.
Qed.

(** Every immediate drawing method leaves as many saves as restores. *)
Lemma save_depth_immediate e :
  (∀ s e' st, save_depth (ctx (drawLineImmediate s e' st e)) = save_depth (ctx e)) ∧
  (∀ c rad st, save_depth (ctx (drawCircleImmediate c rad st e)) = save_depth (ctx e)) ∧
  (∀ b st, save_depth (ctx (drawRectImmediate b st e)) = save_depth (ctx e)) ∧
  (∀ vs st, save_depth (ctx (drawPolygonImmediate vs st e)) = save_depth (ctx e)) ∧
  (∀ b st, save_depth (ctx (drawEllipseImmediate b st e)) = save_depth (ctx e)) ∧
  (∀ t p st, save_depth (ctx (drawTextImmediate t p st e)) = save_depth (ctx e)) ∧
  (∀ t p st, save_depth (ctx (drawTextureImmediate t p st e)) = save_depth (ctx e)) ∧
  (∀ t s d st,
     save_depth (ctx (drawTextureRegionImmediate t s d st e)) = save_depth (ctx e)).
Proof.
  split_and!; intros.
  - unfold drawLineImmediate.
    rewrite !save_depth_call, save_depth_applyLineStyle. simpl. lia.
  - unfold drawCircleImmediate.
    rewrite save_depth_fillAndStroke, !save_depth_call. simpl. lia.
  - unfold drawRectImmediate.
    rewrite save_depth_fillAndStroke, !save_depth_call. simpl. lia.
  - unfold drawPolygonImmediate. repeat case_match; try done. cbv zeta.
    rewrite save_depth_fillAndStroke, save_depth_call, save_depth_polygon_edges,
      !save_depth_call. simpl. lia.
  - unfold drawEllipseImmediate.
    rewrite save_depth_fillAndStroke, !save_depth_call. simpl. lia.
  - unfold drawTextImmediate.
    rewrite !save_depth_call, save_depth_applyTextStyle, !save_depth_call.
    simpl. lia.
  - unfold drawTextureImmediate, when. destruct st.
    + rewrite !save_depth_call, save_depth_applyTextureStyle, save_depth_call.
      simpl. lia.
    + rewrite !save_depth_call. simpl. lia.
  - unfold drawTextureRegionImmediate, when. destruct st.
    + rewrite !save_depth_call, save_depth_applyTextureStyle, save_depth_call.
      simpl. lia.
    + rewrite !save_depth_call. simpl. lia.
Qed.

Lemma run_call_save_depth c r :
  batch_idle r →
  save_depth (ctx (env (run_call c r))) - transformStackDepth (run_call c r)
  = save_depth (ctx (env r)) - transformStackDepth r + counted_clips c.
Proof.
  intros Hidle.
  destruct (idle_draws r Hidle) as (Hl & Hc & Hr & Hp & Ht).
  destruct (save_depth_immediate (env r))
    as (Sl & Sc & Sr & Sp & Se & St & Sx & Sxr).
  destruct c; cbn [run_call counted_clips];
    rewrite ?Hl, ?Hc, ?Hr, ?Hp, ?Ht.
  - unfold applyTransform. fields. rewrite !save_depth_call. simpl. lia.
  - unfold popTransform. case_bool_decide; fields; [|lia].
    rewrite save_depth_call. simpl. lia.
  - fields. rewrite Sl. lia.
  - fields. rewrite Sc. lia.
  - fields. rewrite Sr. lia.
  - fields. rewrite Sp. lia.
  - unfold onDrawEllipse. fields. rewrite Se. lia.
  - fields. rewrite St. lia.
  - unfold onDrawTexture. case_match; fields; [|lia]. rewrite Sx. lia.
  - unfold onDrawTextureRegion. case_match; fields; [|lia]. rewrite Sxr. lia.
  - unfold onClear. fields. rewrite !save_depth_call. simpl. lia.
  - unfold onSetRenderState, applyClipRect, applyOpacity, applyBlendMode,
      setGlobalAlpha, setGlobalCompositeOperation.
    case_match; fields;
      rewrite ?save_depth_call, !save_depth_cached_write by done; simpl; lia.
  - unfold onSetViewport, setupCoordinateSystem, applyHighDPIScaling.
    by_cases; fields; cbn [set_coordinateSystem ctx];
      rewrite ?save_depth_call; cbn [set_coordinateSystem ctx];
      rewrite ?save_depth_call; simpl; lia.
Qed.

Lemma total_snoc count calls c : total count (calls ++ [c]) = total count calls + count c.
Proof.
  unfold total. induction calls as [|x calls IH]; simpl; [lia|]. rewrite IH. lia.
Qed.

Lemma run_calls_idle calls r :
  batch_idle r → batch_idle (run_calls calls r).
Proof.
  intros Hidle. induction calls as [|c calls IH] using rev_ind; [done|].
  rewrite run_calls_snoc.
  destruct (run_call_idle c _ IH) as [Hbm _].
  by eapply batch_idle_batchManager.
Qed.

Lemma run_calls_save_depth calls r :
  batch_idle r →
  save_depth (ctx (env (run_calls calls r))) - transformStackDepth (run_calls calls r)
  = save_depth (ctx (env r)) - transformStackDepth r + total counted_clips calls.
Proof.
  intros Hidle. induction calls as [|c calls IH] using rev_ind; [simpl; lia|].
  rewrite run_calls_snoc, total_snoc.
  rewrite run_call_save_depth by (by apply run_calls_idle). lia.
Qed.

(** What the unwinding loop leaves alone, and what it restores. *)
Lemma unwindTransforms_frame fuel r r' :
  unwindTransforms fuel r = Some r' →
  canvasStats r' = canvasStats r ∧ canvas r' = canvas r ∧
  styleManager (env r') = styleManager (env r) ∧
  save_depth (ctx (env r')) - transformStackDepth r'
  = save_depth (ctx (env r)) - transformStackDepth r.
Proof.
  revert r. induction fuel as [|fuel IH]; intros r; cbn [unwindTransforms];
    case_bool_decide as Hd; try done.
  - by intros [= <-].
  - intros (Hs & Hc & Hm & Hsd)%IH. rewrite Hs, Hc, Hm, Hsd.
    unfold popTransform. rewrite bool_decide_eq_true_2 by done. fields.
    rewrite save_depth_call. simpl. split_and!; try done. lia.
  - by intros [= <-].
Qed.

Lemma onBeginFrame_idle r : batch_idle r → batch_idle (onBeginFrame r).
Proof.
  intros (? & ? & ? & ?). unfold batch_idle.
  unfold onBeginFrame, applyCameraTransform, resetCanvasStats. by fields.
Qed.

(** X18.  Saves and restores on the context are balanced over a frame,
    clip rectangles apart.  On a renderer whose batch manager is idle,
    between [onBeginFrame] and [onEndFrame] the number of saves minus
    the number of restores exceeds the value before the frame by one,
    plus the transform-stack depth, plus the number of clip rectangles
    applied; [onEndFrame] returns with depth 0 and with as many saves as
    restores since before the frame, plus one save for every clip
    rectangle that a render state applied in the frame, which nothing
    restores. *)
Theorem save_restore_balanced r calls :
  batch_idle r →
  let in_frame := run_calls calls (onBeginFrame r) in
  save_depth (ctx (env in_frame))
    = save_depth (ctx (env r)) + 1 + transformStackDepth in_frame
      + total counted_clips calls ∧
  ∃ r', onEndFrame in_frame = Some r' ∧
        transformStackDepth r' = 0 ∧
        save_depth (ctx (env r'))
          = save_depth (ctx (env r)) + total counted_clips calls.
Proof.
  intros Hidle in_frame.
  pose proof (onBeginFrame_idle r Hidle) as Hidle0.
  pose proof (run_calls_save_depth calls _ Hidle0) as Hsd. fold in_frame in Hsd.
  assert (Hbegin : save_depth (ctx (env (onBeginFrame r)))
                   - transformStackDepth (onBeginFrame r)
                   = save_depth (ctx (env r)) + 1).
  { unfold onBeginFrame, applyCameraTransform, resetCanvasStats. fields.
    cbn [resetStyleChangeCount set_styleManager ctx].
    rewrite save_depth_call. simpl. lia. }
  split; [lia|].
  assert (Hd : 0 ≤ transformStackDepth in_frame).
  { apply run_calls_depth. unfold onBeginFrame, applyCameraTransform,
      resetCanvasStats. by fields. }
  destruct (onEndFrame_terminates in_frame) as (r' & Hr' & Hd').
  exists r'. split; [done|]. split; [lia|].
  unfold onEndFrame, onEndFrame_fuel in Hr'.
  rewrite flushBatch_idle in Hr' by (by apply run_calls_idle).
  destruct (unwindTransforms _ in_frame) as [r2|] eqn:Hr2; [|done].
  apply unwindTransforms_frame in Hr2 as (_ & _ & _ & Hu).
  simpl in Hr'. injection Hr' as <-.
  unfold updateStatistics in *. revert Hd'. fields. intros Hd'.
  rewrite save_depth_call. simpl. lia.
Qed.

Lemma run_call_counters c r :
  transformChanges (canvasStats (run_call c r))
    = transformChanges (canvasStats r) + counted_transforms c ∧
  textureBinds (canvasStats (run_call c r))
    = textureBinds (canvasStats r) + counted_textures c.
Proof.
  destruct c; unfold_calls; by_cases; fields; simpl; split; lia.
Qed.

Lemma run_calls_counters calls r :
  transformChanges (canvasStats (run_calls calls r))
    = transformChanges (canvasStats r) + total counted_transforms calls ∧
  textureBinds (canvasStats (run_calls calls r))
    = textureBinds (canvasStats r) + total counted_textures calls.
Proof.
  induction calls as [|c calls [IH1 IH2]] using rev_ind; [simpl; lia|].
  rewrite run_calls_snoc, !total_snoc.
  destruct (run_call_counters c (run_calls calls r)) as [-> ->]. lia.
Qed.

(** X19.  The statistics at the end of a frame: after [onBeginFrame],
    any calls and [onEndFrame], on a renderer whose batch manager is
    idle, the draw-call counter is the number of draws carried out in
    the frame, the transform-change counter the number of transforms
    applied (pops are not counted), the texture-bind counter the number
    of canvas textures drawn, the batched-draw-call counter 0, the
    style-change counter the counter of the style manager, and the
    pixel counter the area of the canvas, whatever was drawn. *)
Theorem frame_statistics r calls :
  batch_idle r →
  ∃ r', onEndFrame (run_calls calls (onBeginFrame r)) = Some r' ∧
        drawCalls (canvasStats r') = total_counted_draws calls ∧
        transformChanges (canvasStats r') = total counted_transforms calls ∧
        textureBinds (canvasStats r') = total counted_textures calls ∧
        batchedDrawCalls (canvasStats r') = 0 ∧
        styleChanges (canvasStats r') = styleChangeCount (styleManager (env r')) ∧
        pixelsDrawn (canvasStats r')
          = (canvas_width (canvas r') * canvas_height (canvas r'))%Qc.
Proof.
  intros Hidle. set (in_frame := run_calls calls (onBeginFrame r)).
  assert (Hidle1 : batch_idle in_frame)
    by (by apply run_calls_idle, onBeginFrame_idle).
  destruct (onEndFrame_terminates in_frame) as (r' & Hr' & _).
  exists r'. split; [done|].
  unfold onEndFrame, onEndFrame_fuel in Hr'.
  rewrite flushBatch_idle in Hr' by done.
  destruct (unwindTransforms _ in_frame) as [r2|] eqn:Hr2; [|done].
  pose proof (unwindTransforms_batchManager _ _ _ Hr2) as [Hbm _].
  apply unwindTransforms_frame in Hr2 as (Hst & Hcv & Hsm & _).
  simpl in Hr'. injection Hr' as <-.
  unfold updateStatistics. fields.
  cbn [drawCalls transformChanges textureBinds batchedDrawCalls styleChanges
       pixelsDrawn getBatchedDrawCallCount getStyleChangeCount].
  rewrite Hst, Hbm. subst in_frame.
  rewrite run_calls_drawCalls.
  destruct (run_calls_counters calls (onBeginFrame r)) as [-> ->].
  unfold getBatchedDrawCallCount, getStyleChangeCount.
  destruct Hidle1 as (_ & _ & -> & _).
  unfold onBeginFrame, applyCameraTransform, resetCanvasStats. fields.
  simpl. split_and!; try done; lia.
Qed.

(** X20.  A polygon of fewer than three vertices draws nothing:
    [drawPolygonImmediate] leaves the context, the style manager and
    the coordinate system as they are; [onDrawPolygon] still counts one
    draw call for it. *)
Theorem degenerate_polygon_counted vertices style e r :
  (length vertices < 3)%nat →
  batch_idle r →
  drawPolygonImmediate vertices style e = e ∧
  env (onDrawPolygon vertices style r) = env r ∧
  drawCalls (canvasStats (onDrawPolygon vertices style r))
    = drawCalls (canvasStats r) + 1.
Proof.
  intros Hlen Hidle.
  assert (Hno : ∀ e, drawPolygonImmediate vertices style e = e).
  { intros e'. unfold drawPolygonImmediate.
    destruct vertices as [|v0 [|v1 [|v2 vs]]]; try done. simpl in Hlen. lia. }
  destruct (idle_draws r Hidle) as (_ & _ & _ & Hp & _).
  rewrite Hp. fields. by rewrite Hno.
Qed.

(** X21.  [onSupportsFeature] answers yes exactly for the capabilities
    that [onGetRendererInfo] lists. *)
Theorem supported_features_are_capabilities feature :
  onSupportsFeature feature = true ↔ feature ∈ info_capabilities onGetRendererInfo.
Proof. unfold onSupportsFeature. by rewrite bool_decide_eq_true. Qed.

(** X22.  [dispose] is idempotent; it leaves batching off and the style
    cache empty, and when batching was already off it draws nothing and
    leaves the batch manager as it is. *)
Theorem dispose_idempotent r :
  dispose (dispose r) = dispose r ∧
  batchingEnabled (batchManager (dispose r)) = false ∧
  currentStyle (styleManager (env (dispose r))) = empty_StyleCacheEntry ∧
  (batchingEnabled (batchManager r) = false →
   batchManager (dispose r) = batchManager r ∧
   ctx (env (dispose r)) = ctx (env r)).
Proof.
  unfold dispose. rewrite !on_batchManager_eq.
  cbn [on_env env batchManager set_env set_batchManager].
  pose proof (endBatch_off (batchManager r, env r)) as Hoff.
  set (s := endBatch (batchManager r, env r)) in *.
  split_and!.
  - unfold endBatch at 1 2. cbn [fst]. rewrite Hoff. cbn [fst snd].
    unfold resetCache. cbn. done.
  - done.
  - done.
  - intros Hen. subst s. unfold endBatch. cbn [fst]. by rewrite Hen.
Qed.

(** X23.  [onSetViewport] with the size the canvas already has does
    nothing.  With another size, when high-DPI scaling is off or the
    device pixel ratio is 1, the canvas and the coordinate system take
    the size of the viewport and the centre translate and the Y flip
    are issued again, on top of the transform in force; when high-DPI
    scaling applies, the size asked for is overridden: the canvas gets
    the size of its client rectangle times the ratio and the coordinate
    system the client rectangle, after one more [scale] by the ratio.
    The style manager, the transform-stack depth and the statistics are
    never touched. *)
Theorem onSetViewport_outcomes viewport r :
  let r' := onSetViewport viewport r in
  let ratio := devicePixelRatio (coordinateSystem (env r)) in
  let rect := canvas_clientRect (canvas r) in
  (canvas_width (canvas r) = vp_width viewport →
   canvas_height (canvas r) = vp_height viewport → r' = r) ∧
  (canvas_width (canvas r) ≠ vp_width viewport
   ∨ canvas_height (canvas r) ≠ vp_height viewport →
   (cfg_enableHighDPI (config r) = false ∨ ratio = 1%Qc →
    canvas_width (canvas r') = vp_width viewport ∧
    canvas_height (canvas r') = vp_height viewport ∧
    canvasSize (coordinateSystem (env r'))
      = mkScreenSize (vp_width viewport) (vp_height viewport) ∧
    ctx (env r')
      = ctx (env r)
        ++ [ctx_translate (vp_width viewport / 2)%Qc (vp_height viewport / 2)%Qc;
            ctx_scale 1%Qc (-1)%Qc]) ∧
   (cfg_enableHighDPI (config r) = true → ratio ≠ 1%Qc →
    canvas_width (canvas r') = (width rect * ratio)%Qc ∧
    canvas_height (canvas r') = (height rect * ratio)%Qc ∧
    canvasSize (coordinateSystem (env r'))
      = mkScreenSize (width rect) (height rect) ∧
    ctx (env r')
      = ctx (env r)
        ++ [ctx_scale ratio ratio;
            ctx_translate (width rect * ratio / 2)%Qc (height rect * ratio / 2)%Qc;
            ctx_scale 1%Qc (-1)%Qc])) ∧
  styleManager (env r') = styleManager (env r) ∧
  transformStackDepth r' = transformStackDepth r ∧
  canvasStats r' = canvasStats r.
Proof.
  cbn zeta. unfold onSetViewport, setupCoordinateSystem, applyHighDPIScaling.
  split_and!.
  - intros -> ->. rewrite !bool_decide_eq_false_2 by (by intros Hn; apply Hn).
    done.
  - intros Hne.
    assert (Hb : bool_decide (canvas_width (canvas r) ≠ vp_width viewport)
                 || bool_decide (canvas_height (canvas r) ≠ vp_height viewport)
                 = true).
    { destruct Hne; [rewrite bool_decide_eq_true_2 by done; done|].
      rewrite (bool_decide_eq_true_2 (canvas_height _ ≠ _)) by done.
      apply orb_true_r. }
    rewrite Hb. fields. cbn [set_coordinateSystem coordinateSystem devicePixelRatio
      setCanvasSize].
    split.
    + intros Hcase.
      destruct (cfg_enableHighDPI (config r)) eqn:Hdpi.
      * destruct Hcase as [|Hone]; [done|]. rewrite bool_decide_eq_true_2 by done.
        fields. unfold call. cbn. rewrite <- !app_assoc. done.
      * fields. unfold call. cbn. rewrite <- !app_assoc. done.
    + intros -> Hone. rewrite bool_decide_eq_false_2 by done.
      fields. unfold call. cbn. rewrite <- !app_assoc. done.
  - by_cases; fields; done.
  - by_cases; fields; done.
  - by_cases; fields; done.
Qed.

Lemma setupCanvas_outcomes r :
  let r' := setupCanvas r in
  let ratio := devicePixelRatio (coordinateSystem (env r)) in
  let rect := canvas_clientRect (canvas r) in
  let scaled := cfg_enableHighDPI (config r) && negb (bool_decide (ratio = 1%Qc)) in
  config r' = config r ∧
  transformStackDepth r' = transformStackDepth r ∧
  canvasStats r' = canvasStats r ∧
  batchManager r' = batchManager r ∧
  styleManager (env r') = styleManager (env r) ∧
  pixelsPerUnit (coordinateSystem (env r')) = pixelsPerUnit (coordinateSystem (env r)) ∧
  devicePixelRatio (coordinateSystem (env r')) = ratio ∧
  (scaled = false →
   canvas r' = canvas r ∧
   canvasSize (coordinateSystem (env r')) = canvasSize (coordinateSystem (env r))) ∧
  (scaled = true →
   canvas_width (canvas r') = (width rect * ratio)%Qc ∧
   canvas_height (canvas r') = (height rect * ratio)%Qc ∧
   canvasSize (coordinateSystem (env r'))
     = mkScreenSize (width rect) (height rect)) ∧
  ctx (env r')
    = ctx (env r)
      ++ (if scaled then [ctx_scale ratio ratio] else [])
      ++ (if cfg_enableAntialiasing (config r) then []
          else [ctx_set_imageSmoothingEnabled false])
      ++ [ctx_translate (canvas_width (canvas r') / 2)%Qc
            (canvas_height (canvas r') / 2)%Qc;
          ctx_scale 1%Qc (-1)%Qc].
Proof.
  cbn zeta. unfold setupCanvas, setupCoordinateSystem, applyHighDPIScaling.
  destruct (cfg_enableHighDPI (config r)) eqn:Hdpi;
    [case_bool_decide as Hone|]; fields;
    destruct (cfg_enableAntialiasing (config r)) eqn:Haa; cbn [negb andb];
    fields; unfold call;
    cbn [ctx styleManager coordinateSystem set_coordinateSystem setCanvasSize
         canvasSize pixelsPerUnit devicePixelRatio canvas_width canvas_height];
    rewrite <- ?app_assoc; split_and!; done.
Qed.

(** X24.  The constructor fails exactly when the canvas gives no 2D
    context.  Otherwise the renderer has the defaults overridden by the
    given options, depth 0, zero statistics, an idle batch manager with
    the configured size limit, and an empty style cache; the device
    pixel ratio is 1 when high-DPI scaling is off or the window reports
    0, the window's value otherwise.  With ratio 1 the canvas is not
    resized; otherwise its backing size is the client rectangle times
    the ratio while the coordinate system keeps the client rectangle.
    The context receives, in this order: the [scale] by the ratio (if
    not 1), the smoothing switch (if antialiasing is off), the translate
    to the centre of the backing size, and the Y flip. *)
Theorem constructor_outcomes element partial dpr base :
  let cfg := merge_config partial in
  let ratio :=
    if cfg_enableHighDPI cfg
    then (if bool_decide (dpr = 0%Qc) then 1%Qc else dpr) else 1%Qc in
  let rect := canvas_clientRect element in
  (CanvasRenderer_new element partial dpr base = None
   ↔ canvas_has2d element = false) ∧
  ∀ r, CanvasRenderer_new element partial dpr base = Some r →
    config r = cfg ∧
    transformStackDepth r = 0 ∧
    canvasStats r = zero_stats ∧
    batch_idle r ∧
    maxBatchSize (batchManager r) = cfg_maxBatchSize cfg ∧
    styleManager (env r) = StyleManager_new (cfg_enableStyleCaching cfg) ∧
    pixelsPerUnit (coordinateSystem (env r)) = cfg_pixelsPerUnit cfg ∧
    devicePixelRatio (coordinateSystem (env r)) = ratio ∧
    (ratio = 1%Qc →
     canvas r = element ∧
     canvasSize (coordinateSystem (env r))
       = mkScreenSize (canvas_width element) (canvas_height element)) ∧
    (ratio ≠ 1%Qc →
     canvas_width (canvas r) = (width rect * ratio)%Qc ∧
     canvas_height (canvas r) = (height rect * ratio)%Qc ∧
     canvasSize (coordinateSystem (env r))
       = mkScreenSize (width rect) (height rect)) ∧
    ctx (env r)
      = (if bool_decide (ratio = 1%Qc) then [] else [ctx_scale ratio ratio])
        ++ (if cfg_enableAntialiasing cfg then []
            else [ctx_set_imageSmoothingEnabled false])
        ++ [ctx_translate (canvas_width (canvas r) / 2)%Qc
              (canvas_height (canvas r) / 2)%Qc;
            ctx_scale 1%Qc (-1)%Qc].
Proof.
  cbn zeta. split.
  - unfold CanvasRenderer_new. destruct (canvas_has2d element); simpl; split; done.
  - intros r Hnew.
    pose proof (CanvasRenderer_new_idle _ _ _ _ _ Hnew) as Hidle.
    revert Hnew. unfold CanvasRenderer_new.
    destruct (canvas_has2d element); [|done]. cbn [negb].
    set (ratio := if cfg_enableHighDPI (merge_config partial)
                  then (if bool_decide (dpr = 0%Qc) then 1%Qc else dpr)
                  else 1%Qc).
    set (r0 := setupBatchManager _). intros [= Hr].
    destruct (setupCanvas_outcomes r0)
      as (Hcfg & Hd & Hst & Hbm & Hsm & Hppu & Hdpr & Hplain & Hscaled & Hctx).
    rewrite Hr in Hcfg, Hd, Hst, Hbm, Hsm, Hppu, Hdpr, Hplain, Hscaled, Hctx.
    change (devicePixelRatio (coordinateSystem (env r0))) with ratio in *.
    change (config r0) with (merge_config partial) in *.
    change (canvas r0) with element in *.
    change (ctx (env r0)) with (@nil CtxCall) in *.
    assert (Hsc : cfg_enableHighDPI (merge_config partial)
                  && negb (bool_decide (ratio = 1%Qc))
                  = negb (bool_decide (ratio = 1%Qc))).
    { subst ratio. destruct (cfg_enableHighDPI (merge_config partial)); [done|].
      by rewrite bool_decide_eq_true_2. }
    rewrite Hsc in Hplain, Hscaled, Hctx.
    split_and!; try done.
    + by rewrite Hbm.
    + intros Hone. rewrite bool_decide_eq_true_2 in Hplain by done.
      destruct Hplain as [-> ->]; done.
    + intros Hne. rewrite bool_decide_eq_false_2 in Hscaled by done. by apply Hscaled.
    + rewrite Hctx. by destruct (bool_decide (ratio = 1%Qc)).
Qed.

(** X25.  Of the tint of a texture style only the alpha is used, and a
    rotation of zero is no rotation: two styles that differ in the
    colour of the tint only, or in having a zero rotation or none, draw
    the same; the style manager and its cache are not involved. *)
Theorem texture_style_alpha_and_rotation texture position e
    tint1 tint2 opacity scale_ anchor flipX flipY zero :
  a tint1 = a tint2 →
  raw zero = 0 →
  drawTextureImmediate texture position
    (Some (mkTextureStyle (Some tint1) opacity scale_ (Some zero) anchor flipX flipY)) e
  = drawTextureImmediate texture position
      (Some (mkTextureStyle (Some tint2) opacity scale_ None anchor flipX flipY)) e ∧
  styleManager
    (drawTextureImmediate texture position
       (Some (mkTextureStyle (Some tint1) opacity scale_ (Some zero) anchor flipX flipY)) e)
  = styleManager e.
Proof.
  intros Ha Hz.
  assert (Heq : Fixed_equals zero Fixed_ZERO = true).
  { rewrite equals_raw, raw_ZERO. by apply bool_decide_eq_true_2. }
  unfold drawTextureImmediate, applyTextureStyle, when.
  cbn [tx_tint tx_opacity tx_scale tx_rotation tx_anchor tx_flipX tx_flipY].
  rewrite Heq, Ha. split; [done|].
  destruct opacity, scale_, anchor, flipX, flipY; done.
Qed.


(** X27.  With a pixels-per-unit scale that is not zero (and does not
    round to the fixed-point zero), [onMeasureText] returns the measured
    width divided by the configured pixels per unit and the font size
    divided by it, rounded to nearest; the height depends neither on the
    text nor on the measured width.  The width is what
    [screenToWorldDistance] gives for a coordinate system with the same
    scale and a zoom of one: the camera zoom is not taken into account.
    Measuring is not free of effects: the text style stays applied on
    the context and in the cache. *)
Theorem onMeasureText_outcome measureText text style r :
  let ppu := cfg_pixelsPerUnit (config r) in
  ppu ≠ 0%Qc →
  raw (Fixed_new ppu) ≠ 0 →
  let result := onMeasureText measureText text style r in
  env result.1 = applyTextStyle style (env r) ∧
  canvasStats result.1 = canvasStats r ∧
  ∃ height,
    result.2 = Some (mkFixedVector2 (Fixed_new (measureText text / ppu)%Qc) height) ∧
    2 * Z.abs (raw height * raw (Fixed_new ppu) - raw (ts_fontSize style) * SCALE)
      ≤ Z.abs (raw (Fixed_new ppu)) ∧
    ∀ cs, pixelsPerUnit cs = ppu → cameraZoom cs = Fixed_ONE →
          screenToWorldDistance cs (measureText text)
          = Some (Fixed_new (measureText text / ppu)%Qc).
Proof.
  intros ppu Hp Hn result. subst result. unfold onMeasureText.
  cbn [fst snd on_env env set_env config canvasStats]. fold ppu.
  split; [done|]. split; [done|].
  unfold js_div. destruct (decide (ppu = 0%Qc)); [done|]. cbn [mbind option_bind].
  destruct (divide_round (ts_fontSize style) (Fixed_new ppu) Hn) as (h & -> & Hh).
  cbn [mbind option_bind]. exists h. split_and!; try done.
  intros cs Hcs Hz. unfold screenToWorldDistance, js_div.
  rewrite Hcs, Hz, toNumber_ONE.
  destruct (decide ((ppu * 1)%Qc = 0%Qc)) as [Heq|_].
  { destruct Hp. rewrite <- Heq. ring. }
  cbn [mbind option_bind]. do 2 f_equal. field. done.
Qed.

End RendererTheorems.

(** ** Debug renderer *)

Section DebugTheorems.
Context `{FP : FixedPoint, HH : !Host}.

Lemma multiply_of_Z m n :
  raw (Fixed_multiply (Fixed_new (Qc_of_Z m)) (Fixed_new (Qc_of_Z n)))
  = m * n * SCALE.
Proof.
  pose proof (multiply_round (Fixed_new (Qc_of_Z m)) (Fixed_new (Qc_of_Z n))) as Hr.
  rewrite !Fixed_new_of_Z in Hr. pose proof SCALE_pos.
  set (x := raw (Fixed_multiply _ _)) in *.
  replace (x * SCALE - m * SCALE * (n * SCALE))
    with ((x - m * n * SCALE) * SCALE) in Hr by ring.
  nia.
Qed.

(** X28.  The overlay background is 200 units wide and exactly
    [36 + 16 n] units high for [n] items (the title line, 16 per item
    and the padding twice), starts 8 units left of and below the given
    position, and grows by exactly 16 units with every item: the
    fixed-point products involved are exact. *)
Theorem calculateOverlayBounds_size info position :
  let n := Z.of_nat (length (info_items info)) in
  let bounds := calculateOverlayBounds info position in
  raw (rect_height bounds) = (36 + 16 * n) * SCALE ∧
  raw (rect_width bounds) = 200 * SCALE ∧
  raw (rect_x bounds) = raw (v2_x position) - 8 * SCALE ∧
  raw (rect_y bounds) = raw (v2_y position) - 8 * SCALE ∧
  ∀ item,
    raw (rect_height
           (calculateOverlayBounds
              (mkDebugInfo (info_title info) (info_items info ++ [item])
                 (info_position info)) position))
    = raw (rect_height bounds) + 16 * SCALE.
Proof.
  cbn zeta. unfold calculateOverlayBounds.
  cbn [rect_x rect_y rect_width rect_height info_items].
  rewrite !raw_add, !raw_subtract, !multiply_of_Z, !Fixed_new_of_Z.
  split_and!; try lia.
  intros item. rewrite !raw_add, !multiply_of_Z, !Fixed_new_of_Z, length_app.
  simpl. lia.
Qed.

(** X29.  A measurement that is started and ended records the difference
    of the two clock values under its name and forgets the start; ending
    it again, or ending a measurement that was never started, changes
    nothing; starts and measurements under other names are not touched. *)
Theorem performance_measure_roundtrip st name start stop :
  let st1 := startPerformanceMeasure name start st in
  let st2 := endPerformanceMeasure name stop st1 in
  getPerformanceMeasurements st2 !! name = Some (stop - start)%Qc ∧
  performanceCounters st2 !! name = None ∧
  (∀ later, endPerformanceMeasure name later st2 = st2) ∧
  (∀ other, other ≠ name →
     getPerformanceMeasurements st2 !! other = getPerformanceMeasurements st !! other ∧
     performanceCounters st2 !! other = performanceCounters st !! other) ∧
  (performanceCounters st !! name = None →
   ∀ now, endPerformanceMeasure name now st = st).
Proof.
  cbn zeta. unfold endPerformanceMeasure, startPerformanceMeasure,
    getPerformanceMeasurements.
  cbn [performanceCounters performanceMeasurements].
  rewrite lookup_insert_eq. cbn [performanceCounters performanceMeasurements].
  split_and!.
  - by rewrite lookup_insert_eq.
  - by rewrite lookup_delete_eq.
  - intros later. by rewrite lookup_delete_eq.
  - intros other Hne. rewrite lookup_insert_ne by done.
    by rewrite lookup_delete_ne, lookup_insert_ne by done.
  - intros Hnone now. by rewrite Hnone.
Qed.

End DebugTheorems.

(** ** The reference host satisfies the interfaces *)

Lemma ref_round_div_pos_spec n d :
  0 < d → 2 * Z.abs (ref_round_div_pos n d * d - n) ≤ d.
Proof.
  intros Hd. unfold ref_round_div_pos.
  pose proof (Z.div_mod (2 * n + d) (2 * d)) as Hdm.
  pose proof (Z.mod_pos_bound (2 * n + d) (2 * d)) as Hmod.
  lia.
Qed.

Lemma ref_round_div_spec n d :
  d ≠ 0 → 2 * Z.abs (ref_round_div n d * d - n) ≤ Z.abs d.
Proof.
  intros Hd. unfold ref_round_div. case_bool_decide.
  - pose proof (ref_round_div_pos_spec (- n) (- d)). lia.
  - pose proof (ref_round_div_pos_spec n d). lia.
Qed.

Lemma ref_multiply_nearest a b :
  2 * Z.abs (ref_multiply a b * ref_scale - a * b) ≤ ref_scale.
Proof. apply ref_round_div_pos_spec. done. Qed.

Lemma ref_divide_nearest a b :
  b ≠ 0 →
  ∃ c, ref_divide a b = Some c ∧ 2 * Z.abs (c * b - a * ref_scale) ≤ Z.abs b.
Proof.
  intros Hb. unfold ref_divide. rewrite bool_decide_eq_false_2 by done.
  eexists; split; [done|]. by apply ref_round_div_spec.
Qed.

Lemma ref_new_nearest (q : number) :
  2 * Z.abs (ref_new q * Zpos (Qden q) - Qnum q * ref_scale) ≤ Zpos (Qden q).
Proof. apply ref_round_div_pos_spec. lia. Qed.

#[global] Instance ref_fixed : FixedPoint := {|
  Fixed := Z;
  SCALE := ref_scale;
  raw := id;
  Fixed_new := ref_new;
  Fixed_ZERO := 0;
  Fixed_ONE := ref_scale;
  Fixed_toNumber := ref_toNumber;
  Fixed_add := Z.add;
  Fixed_subtract := Z.sub;
  Fixed_multiply := ref_multiply;
  Fixed_divide := ref_divide;
  Fixed_equals := λ a b, bool_decide (a = b);
  SCALE_pos := eq_refl;
  raw_inj := λ a b Hab, Hab;
  raw_ZERO := eq_refl;
  raw_ONE := eq_refl;
  toNumber_raw := λ a, eq_refl;
  raw_add := λ a b, eq_refl;
  raw_subtract := λ a b, eq_refl;
  multiply_round := ref_multiply_nearest;
  divide_round := ref_divide_nearest;
  new_round := ref_new_nearest;
  equals_raw := λ a b, eq_refl
|}.

Definition ref_stringify (s : Style) : string :=
  match s with
  | OfLineStyle s =>
      "{" +:+ ref_toHex (ls_color s) +:+ "|" +:+ pretty (ls_thickness s : Z)
        +:+ "|" +:+ ref_show_opt (ref_show_list (pretty : Z → string))
                      (ls_dashPattern s) +:+ "}"
  | OfShapeStyle s =>
      "{" +:+ ref_show_opt ref_toHex (ss_fillColor s) +:+ "|"
        +:+ ref_show_opt ref_toHex (ss_strokeColor s) +:+ "|"
        +:+ ref_show_opt (pretty : Z → string) (ss_strokeThickness s) +:+ "|"
        +:+ ref_show_opt (ref_show_list (pretty : Z → string))
              (ss_dashPattern s) +:+ "}"
  | OfTextStyle s =>
      "{" +:+ ref_toHex (ts_color s) +:+ "|" +:+ pretty (ts_fontSize s : Z)
        +:+ "|" +:+ ref_show_opt id (ts_fontFamily s)
        +:+ "|" +:+ ref_show_opt id (ts_fontWeight s)
        +:+ "|" +:+ ref_show_opt id (ts_fontStyle s)
        +:+ "|" +:+ ref_show_opt id (ts_textAlign s)
        +:+ "|" +:+ ref_show_opt id (ts_textBaseline s) +:+ "}"
  end.

(** The superclass keeps the stack of pushed transforms; the reference
    host keeps its height. *)
#[global] Instance ref_host : Host := {|
  ColorUtils_toHex := ref_toHex;
  JSON_stringify := ref_stringify;
  Number_toString := ref_show_number;
  Math_PI := Q2Qc (355 # 113);
  BaseRenderer := nat;
  BaseRenderer_popTransform := Nat.pred
|}.

(** * The model at work

    Sample inputs on the reference host, on which the theorems above are
    applied and on which the statements that do not hold as the
    specification words them are evaluated. *)

Definition ref_size : ScreenSize := mkScreenSize (Qc_of_Z 800) (Qc_of_Z 600).

(** A camera at (0.5, -0.25) with zoom 2. *)
Definition ref_cs : CoordinateSystem :=
  mkCoordinateSystem (Qc_of_Z 100) ref_size (mkFixedVector2 500000 (-250000))
    2000000 1%Qc.




Definition ref_red : ShapeStyle :=
  mkShapeStyle (Some (mkColor 1 0 0 1)%Qc) None None None.
Definition ref_blue : ShapeStyle :=
  mkShapeStyle (Some (mkColor 0 0 1 1)%Qc) None None None.
Definition ref_line : LineStyle := mkLineStyle (mkColor 1 1 1 1)%Qc 20000 None.

Definition ref_circle1 : Circle := (mkFixedVector2 0 0, 100000, ref_red).
Definition ref_circle2 : Circle := (mkFixedVector2 1000000 0, 100000, ref_blue).
Definition ref_circle3 : Circle := (mkFixedVector2 0 1000000, 100000, ref_red).

Definition ref_canvas : Canvas :=
  mkCanvas (Qc_of_Z 800) (Qc_of_Z 600) "800px" "600px" ref_size true.

Definition ref_partial (batching : bool) (maxBatchSize : Z) : PartialConfig :=
  mkPartialConfig None None None (Some batching) (Some maxBatchSize) None None.

(** The renderer that the constructor builds on [ref_canvas]. *)
Definition ref_renderer (batching : bool) (maxBatchSize : Z) : CanvasRenderer :=
  setupCanvas
    (setupBatchManager
       (mkCanvasRenderer ref_canvas (merge_config (ref_partial batching maxBatchSize))
          (mkEnv [] (StyleManager_new true)
             (CoordinateSystem_new (Qc_of_Z 100) ref_size 1%Qc))
          (BatchManager_new maxBatchSize) 0 zero_stats [] 0%nat)).

Definition ref_transform : Transform2D :=
  mkTransform2D (mkFixedVector2 1000000 0) 0 (mkFixedVector2 1000000 1000000).

Lemma ref_renderer_constructed batching maxBatchSize :
  CanvasRenderer_new ref_canvas (ref_partial batching maxBatchSize) 1%Qc 0%nat
  = Some (ref_renderer batching maxBatchSize).
Proof. reflexivity. Qed.


Lemma Qc_of_Z_100_ne_0 : Qc_of_Z 100 ≠ 0%Qc.
Proof. rewrite <- Z2Qc_inj_0. intros Heq%Z2Qc_inj. lia. Qed.

(** The default camera on an 800 x 600 canvas. *)
Example ref_worldToScreen_unit_x :
  worldToScreen (CoordinateSystem_new (Qc_of_Z 100) ref_size 1%Qc)
    (mkFixedVector2 1000000 0)
  = mkScreenPoint (Qc_of_Z 500) (Qc_of_Z 300).
Proof. unfold worldToScreen. f_equal; apply Qc_is_canon; reflexivity. Qed.

Example ref_worldToScreen_unit_y :
  worldToScreen (CoordinateSystem_new (Qc_of_Z 100) ref_size 1%Qc)
    (mkFixedVector2 0 1000000)
  = mkScreenPoint (Qc_of_Z 400) (Qc_of_Z 200).
Proof. unfold worldToScreen. f_equal; apply Qc_is_canon; reflexivity. Qed.






(** C3, as the specification words it, fails.  From a fresh style manager,
    two applications of the same line style count 2 style changes with
    caching on, not 1, and 4 with caching off, not 2. *)
Lemma applyLineStyle_twice_counterexample :
  let on := mkEnv [] (StyleManager_new true) ref_cs in
  let off := mkEnv [] (StyleManager_new false) ref_cs in
  styleChangeCount (styleManager (applyLineStyle ref_line (applyLineStyle ref_line on)))
    = 2 ∧
  styleChangeCount (styleManager (applyLineStyle ref_line (applyLineStyle ref_line on)))
    ≠ styleChangeCount (styleManager on) + 1 ∧
  styleChangeCount (styleManager (applyLineStyle ref_line (applyLineStyle ref_line off)))
    = 4 ∧
  styleChangeCount (styleManager (applyLineStyle ref_line (applyLineStyle ref_line off)))
    ≠ styleChangeCount (styleManager off) + 2.
Proof. vm_compute. repeat split; discriminate. Qed.

(** Two pushes, three pops (one of them surplus) and a frame end. *)
Definition ref_steps : list Step :=
  [StepBeginFrame;
   StepCall (CallApplyTransform ref_transform);
   StepCall (CallApplyTransform ref_transform);
   StepCall CallPopTransform; StepCall CallPopTransform;
   StepCall CallPopTransform;
   StepEndFrame].

(** Two pushes that are never popped, and a circle. *)
Definition ref_calls : list RendererCall :=
  [CallApplyTransform ref_transform; CallApplyTransform ref_transform;
   CallDrawCircle (mkFixedVector2 0 0) 100000 ref_red].

Lemma transformStackDepth_never_negative_witness :
  0 ≤ transformStackDepth (ref_renderer true 1000) ∧
  (∃ r', run_steps ref_steps (ref_renderer true 1000) = Some r' ∧
         0 ≤ transformStackDepth r') ∧
  (∃ r', onEndFrame (run_calls ref_calls (onBeginFrame (ref_renderer true 1000)))
         = Some r' ∧ transformStackDepth r' = 0).
Proof.
  assert (H0 : 0 ≤ transformStackDepth (ref_renderer true 1000)) by reflexivity.
  destruct (transformStackDepth_never_negative (ref_renderer true 1000)
              ref_steps ref_calls H0) as (Hsteps & _ & Hframe & _).
  split; [exact H0|]. split; [exact Hsteps|exact Hframe].
Defined.

Lemma batching_off_draws_immediately_witness :
  let bm := BatchManager_new 1000 in
  let r := ref_renderer false 1000 in
  batchingEnabled bm = false ∧
  cfg_enableBatchRendering (config r) = false ∧
  drawCalls (canvasStats (run_calls ref_calls (set_enableBatchRendering true r)))
    = drawCalls (canvasStats (run_calls ref_calls r)) ∧
  batchedDrawCallCount (batchManager (run_calls ref_calls r)) = 0.
Proof.
  assert (H1 : batchingEnabled (BatchManager_new 1000) = false) by reflexivity.
  assert (H2 : cfg_enableBatchRendering (config (ref_renderer false 1000)) = false)
    by reflexivity.
  destruct (batching_off_draws_immediately (BatchManager_new 1000)
              (env (ref_renderer false 1000)) (ref_renderer false 1000)
              ref_calls ref_steps H1 H2) as (_ & _ & Hsame & _ & _ & Hzero & _).
  split; [exact H1|]. split; [exact H2|]. split; [exact Hsame|].
  apply Hzero. reflexivity.
Defined.

Lemma flushBatch_empty_noop_witness :
  let bm := batchManager (ref_renderer true 1000) in
  let e := env (ref_renderer true 1000) in
  batchCommands bm = [] ∧ flushBatch (bm, e) = (bm, e).
Proof.
  assert (H1 : batchCommands (batchManager (ref_renderer true 1000)) = [])
    by reflexivity.
  split; [exact H1|].
  apply (flushBatch_empty_noop (batchManager (ref_renderer true 1000))
           (env (ref_renderer true 1000)) H1).
Defined.

(** A frame of three circles on the renderer as constructed, with
    [enableBatchRendering] on: nothing ever calls [beginBatch], so the
    batch manager hands every circle to its immediate-draw callback; the
    frame counts three draw calls, no batched draw call and three style
    changes (red, blue, red fill paint), and leaves the transform stack at
    depth 0. *)
Example ref_frame_statistics :
  match run_steps
          [StepBeginFrame;
           StepCall (CallDrawCircle (mkFixedVector2 0 0) 100000 ref_red);
           StepCall (CallApplyTransform ref_transform);
           StepCall (CallDrawCircle (mkFixedVector2 1000000 0) 100000 ref_blue);
           StepCall (CallDrawCircle (mkFixedVector2 0 1000000) 100000 ref_red);
           StepEndFrame]
          (ref_renderer true 1000)
  with
  | Some r =>
      drawCalls (canvasStats r) = 3 ∧
      batchedDrawCalls (canvasStats r) = 0 ∧
      transformChanges (canvasStats r) = 1 ∧
      styleChanges (canvasStats r) = 3 ∧
      transformStackDepth r = 0 ∧
      length (batchCommands (batchManager r)) = 0%nat
  | None => False
  end.
Proof. vm_compute. repeat split. Qed.


(** ** More sample inputs *)


(** The unit square with its corner at the world origin. *)
Definition ref_unit_square : FixedRect := mkFixedRect 0 0 1000000 1000000.

Definition ref_origin : FixedVector2 := mkFixedVector2 0 0.

Definition ref_text : TextStyle :=
  mkTextStyle (mkColor 0 0 0 1)%Qc 12000000 None (Some "bold") None
    (Some "center") None.

(** A stroke thickness and a dash pattern, but no colour. *)
Definition ref_colourless : ShapeStyle :=
  mkShapeStyle None None (Some 20000) (Some [50000; 50000]).


(** Two vertices only. *)
Definition ref_segment : list FixedVector2 :=
  [mkFixedVector2 0 0; mkFixedVector2 1000000 0].

Definition ref_texture : CanvasTexture :=
  mkCanvasTexture (Qc_of_Z 64) (Qc_of_Z 64) 0%nat.

Definition ref_env : Env := env (ref_renderer true 1000).

Lemma camera_position_visible_witness :
  (0 ≤ width (canvasSize ref_cs))%Qc ∧
  (0 ≤ height (canvasSize ref_cs))%Qc ∧
  isPointVisible ref_cs (cameraPosition ref_cs) Fixed_ZERO = true.
Proof.
  assert (HW : (0 ≤ width (canvasSize ref_cs))%Qc) by (vm_compute; discriminate).
  assert (HH : (0 ≤ height (canvasSize ref_cs))%Qc) by (vm_compute; discriminate).
  split; [exact HW|]. split; [exact HH|].
  apply (camera_position_visible ref_cs HW HH).
Defined.

Lemma canvas_centre_is_camera_witness :
  pixelsPerUnit ref_cs ≠ 0%Qc ∧
  raw (cameraZoom ref_cs) ≠ 0 ∧
  screenToWorld ref_cs (mkScreenPoint (Qc_of_Z 800 / 2)%Qc (Qc_of_Z 600 / 2)%Qc)
  = Some (mkFixedVector2 500000 (-250000)).
Proof.
  split; [exact Qc_of_Z_100_ne_0|].
  split; [vm_compute; discriminate|].
  apply (canvas_centre_is_camera ref_cs);
    [exact Qc_of_Z_100_ne_0 | vm_compute; discriminate].
Defined.




Lemma applyTextStyle_idempotent_witness :
  enableCaching (styleManager ref_env) = true ∧
  applyTextStyle ref_text (applyTextStyle ref_text ref_env)
  = applyTextStyle ref_text ref_env.
Proof.
  split; [reflexivity|].
  apply (applyTextStyle_idempotent ref_text ref_env). reflexivity.
Defined.

Lemma drawTextImmediate_again_witness :
  enableCaching (styleManager ref_env) = true ∧
  let e1 := drawTextImmediate "a" ref_origin ref_text ref_env in
  last (ctx e1) = Some ctx_restore ∧
  setFillStyle (ColorUtils_toHex (ts_color ref_text)) e1 = e1.
Proof.
  assert (Hc : enableCaching (styleManager ref_env) = true) by reflexivity.
  split; [exact Hc|].
  destruct (drawTextImmediate_again "a" ref_origin "b" ref_origin ref_text
              ref_env Hc) as (Hl & _ & Hf & _).
  split; [exact Hl|exact Hf].
Defined.

Lemma shape_without_colours_witness :
  ss_fillColor ref_colourless = None ∧
  ss_strokeColor ref_colourless = None ∧
  applyShapeStyle ref_colourless ref_env = ref_env ∧
  fillAndStroke ref_colourless ref_env = ref_env.
Proof.
  assert (Hf : ss_fillColor ref_colourless = None) by reflexivity.
  assert (Hs : ss_strokeColor ref_colourless = None) by reflexivity.
  destruct (shape_without_colours ref_colourless ref_env Hf Hs) as (Ha & Hfs & _).
  repeat split; assumption.
Defined.

Lemma endBatch_counts_keys_witness :
  let s := addCircles [ref_circle1; ref_circle2; ref_circle3]
             (beginBatch (batchManager (ref_renderer true 1000), ref_env)) in
  batchingEnabled s.1 = true ∧
  batchedDrawCallCount (endBatch s).1
  = batchedDrawCallCount s.1 + Z.of_nat (size (keys_of (batchCommands s.1))).
Proof.
  cbn zeta.
  set (s := addCircles [ref_circle1; ref_circle2; ref_circle3]
              (beginBatch (batchManager (ref_renderer true 1000), ref_env))).
  assert (Hen : batchingEnabled s.1 = true) by reflexivity.
  split; [exact Hen|].
  destruct (endBatch_counts_keys s.1 s.2 Hen) as (Hend & _).
  replace s with (s.1, s.2) at 1 by (by destruct s).
  rewrite Hend. reflexivity.
Defined.


Lemma enableBatchRendering_no_effect_witness :
  CanvasRenderer_new ref_canvas (ref_partial true 1000) 1%Qc 0%nat
    = Some (ref_renderer true 1000) ∧
  ∃ r', run_steps ref_steps (ref_renderer true 1000) = Some r' ∧
        batch_idle r' ∧
        ∃ r_off,
          CanvasRenderer_new ref_canvas
            (with_batching false (ref_partial true 1000)) 1%Qc 0%nat = Some r_off ∧
          run_steps ref_steps r_off = Some (set_enableBatchRendering false r').
Proof.
  assert (Hnew : CanvasRenderer_new ref_canvas (ref_partial true 1000) 1%Qc 0%nat
                 = Some (ref_renderer true 1000)) by reflexivity.
  split; [exact Hnew|].
  destruct (enableBatchRendering_no_effect ref_canvas (ref_partial true 1000)
              1%Qc _ (ref_renderer true 1000) ref_steps Hnew)
    as (r' & Hr' & Hidle & Hflag).
  exists r'. split; [exact Hr'|]. split; [exact Hidle|]. exact (Hflag false).
Defined.

(** A frame with a clip rectangle, two pushes that are never popped and a
    circle. *)
Definition ref_frame_calls : list RendererCall :=
  CallSetRenderState (mkRenderState Normal 1%Qc (Some ref_unit_square))
    :: ref_calls.

Lemma save_restore_balanced_witness :
  batch_idle (ref_renderer true 1000) ∧
  ∃ r', onEndFrame (run_calls ref_frame_calls (onBeginFrame (ref_renderer true 1000)))
        = Some r' ∧
        transformStackDepth r' = 0 ∧
        save_depth (ctx (env r'))
          = save_depth (ctx (env (ref_renderer true 1000))) + 1.
Proof.
  assert (Hidle : batch_idle (ref_renderer true 1000)) by (by repeat split).
  split; [exact Hidle|].
  destruct (save_restore_balanced (ref_renderer true 1000) ref_frame_calls Hidle)
    as (_ & r' & Hr' & Hd & Hs).
  exists r'. split; [exact Hr'|]. split; [exact Hd|exact Hs].
Defined.

Lemma frame_statistics_witness :
  batch_idle (ref_renderer true 1000) ∧
  ∃ r', onEndFrame (run_calls ref_frame_calls (onBeginFrame (ref_renderer true 1000)))
        = Some r' ∧
        drawCalls (canvasStats r') = 1 ∧
        transformChanges (canvasStats r') = 2 ∧
        textureBinds (canvasStats r') = 0 ∧
        batchedDrawCalls (canvasStats r') = 0.
Proof.
  assert (Hidle : batch_idle (ref_renderer true 1000)) by (by repeat split).
  split; [exact Hidle|].
  destruct (frame_statistics (ref_renderer true 1000) ref_frame_calls Hidle)
    as (r' & Hr' & Hd & Ht & Hx & Hb & _).
  exists r'. repeat split; assumption.
Defined.

Lemma degenerate_polygon_counted_witness :
  let r := ref_renderer true 1000 in
  (length ref_segment < 3)%nat ∧
  batch_idle r ∧
  env (onDrawPolygon ref_segment ref_red r) = env r ∧
  drawCalls (canvasStats (onDrawPolygon ref_segment ref_red r))
    = drawCalls (canvasStats r) + 1.
Proof.
  cbn zeta.
  assert (Hlen : (length ref_segment < 3)%nat) by (simpl; lia).
  assert (Hidle : batch_idle (ref_renderer true 1000)) by (by repeat split).
  destruct (degenerate_polygon_counted ref_segment ref_red ref_env
              (ref_renderer true 1000) Hlen Hidle) as (_ & He & Hd).
  repeat split; assumption.
Defined.

Lemma texture_style_alpha_and_rotation_witness :
  let style tint rot :=
    Some (mkTextureStyle (Some tint) None None rot None false false) in
  a (mkColor 1 0 0 1)%Qc = a (mkColor 0 0 1 1)%Qc ∧
  raw (Fixed_ZERO : Fixed) = 0 ∧
  drawTextureImmediate ref_texture ref_origin
    (style (mkColor 1 0 0 1)%Qc (Some Fixed_ZERO)) ref_env
  = drawTextureImmediate ref_texture ref_origin
      (style (mkColor 0 0 1 1)%Qc None) ref_env.
Proof.
  cbn zeta.
  assert (Ha : a (mkColor 1 0 0 1)%Qc = a (mkColor 0 0 1 1)%Qc) by reflexivity.
  assert (Hz : raw (Fixed_ZERO : Fixed) = 0) by reflexivity.
  split; [exact Ha|]. split; [exact Hz|].
  apply (texture_style_alpha_and_rotation ref_texture ref_origin
           ref_env (mkColor 1 0 0 1)%Qc (mkColor 0 0 1 1)%Qc None None None
           false false Fixed_ZERO Ha Hz).
Defined.


(** The text measures 250 pixels. *)
Lemma onMeasureText_outcome_witness :
  let r := ref_renderer true 1000 in
  cfg_pixelsPerUnit (config r) ≠ 0%Qc ∧
  raw (Fixed_new (cfg_pixelsPerUnit (config r))) ≠ 0 ∧
  env (onMeasureText (λ _, Qc_of_Z 250) "a" ref_text r).1
  = applyTextStyle ref_text (env r).
Proof.
  cbn zeta.
  assert (Hp : cfg_pixelsPerUnit (config (ref_renderer true 1000)) ≠ 0%Qc)
    by exact Qc_of_Z_100_ne_0.
  assert (Hn : raw (Fixed_new (cfg_pixelsPerUnit (config (ref_renderer true 1000))))
               ≠ 0) by (vm_compute; discriminate).
  split; [exact Hp|]. split; [exact Hn|].
  apply (onMeasureText_outcome (λ _, Qc_of_Z 250) "a" ref_text
           (ref_renderer true 1000) Hp Hn).
Defined.
